(** * Task-Reminder: offline sync, recurrence and reminder scheduling

    A shallow embedding of the synchronisation / recurrence / notification
    core of the Task-Reminder application, and the properties its
    specification states about it.

    Conventions of the embedding.
    - Time values are ECMAScript time values: integers, milliseconds since
      1970-01-01T00:00Z.  The [Date] methods that read and write local
      time take the time zone of the host as a parameter
      ([JsDate.TimeZone]); the recurrence code of the browser and of the
      server uses them.  The reminder code only parses a date-time string
      and subtracts a lead from it: there the string is read as UTC.
    - An ISO calendar date ['YYYY-MM-DD'] is represented by its day number
      (days since 1970-01-01); an ISO timestamp by the instant it denotes;
      a time of day ['HH:MM'] by its minutes after midnight.
    - [crypto.randomUUID()] and [Date.now()] are oracles: the identifiers and
      clock readings a call obtains are explicit arguments.
    - IndexedDB requests succeed; object stores are finite maps keyed by
      the key path [id].  A remote (Supabase) call may throw, and a write
      may be refused: it then resolves with an error in its result. *)

From stdpp Require Import gmap strings list fin_maps pretty.
From Stdlib Require Import ZArith Lia.

Local Open Scope Z_scope.

(* ================================================================== *)
(** * Part I: definitions                                              *)
(* ================================================================== *)

(** ** ECMAScript dates (ECMA-262, "Date objects") *)

Module JsDate.

Definition msPerDay : Z := 86400000.
Definition msPerMinute : Z := 60000.

Definition Day (t : Z) : Z := t / msPerDay.
Definition TimeWithinDay (t : Z) : Z := t mod msPerDay.
Definition MakeDate (day time : Z) : Z := day * msPerDay + time.

Definition DaysInYear (y : Z) : Z :=
  if negb (y mod 4 =? 0) then 365
  else if negb (y mod 100 =? 0) then 366
  else if negb (y mod 400 =? 0) then 365
  else 366.

Definition InLeapYear (y : Z) : Z := if DaysInYear y =? 366 then 1 else 0.

Definition DayFromYear (y : Z) : Z :=
  365 * (y - 1970) + (y - 1969) / 4 - (y - 1901) / 100 + (y - 1601) / 400.

(** The largest [y] with [DayFromYear y <= d]: the estimate from the mean
    Gregorian year is off by at most one in either direction. *)
Definition YearFromDay (d : Z) : Z :=
  let y := 1970 + (400 * d) / 146097 in
  if DayFromYear (y + 1) <=? d then y + 1
  else if DayFromYear y <=? d then y
  else y - 1.

(** Days of the year that precede month [m] (0 = January). *)
Definition DaysBeforeMonth (leap m : Z) : Z :=
  match m with
  | 0 => 0 | 1 => 31 | 2 => 59 + leap | 3 => 90 + leap | 4 => 120 + leap
  | 5 => 151 + leap | 6 => 181 + leap | 7 => 212 + leap | 8 => 243 + leap
  | 9 => 273 + leap | 10 => 304 + leap | _ => 334 + leap
  end.

Definition DayWithinYear (d : Z) : Z := d - DayFromYear (YearFromDay d).

Definition MonthFromDay (d : Z) : Z :=
  let w := DayWithinYear d in
  let l := InLeapYear (YearFromDay d) in
  if w <? 31 then 0 else if w <? 59 + l then 1 else if w <? 90 + l then 2
  else if w <? 120 + l then 3 else if w <? 151 + l then 4
  else if w <? 181 + l then 5 else if w <? 212 + l then 6
  else if w <? 243 + l then 7 else if w <? 273 + l then 8
  else if w <? 304 + l then 9 else if w <? 334 + l then 10 else 11.

Definition DateFromDay (d : Z) : Z :=
  DayWithinYear d - DaysBeforeMonth (InLeapYear (YearFromDay d)) (MonthFromDay d) + 1.

(** [MakeDay]: months outside 0..11 carry into the year, and dates outside
    the month carry into the neighbouring months. *)
Definition MakeDay (year month date : Z) : Z :=
  let ym := year + month / 12 in
  let mn := month mod 12 in
  DayFromYear ym + DaysBeforeMonth (InLeapYear ym) mn + date - 1.

(** Number of days of the month [month] (0-based, any integer) of [year]. *)
Definition DaysInMonth (year month : Z) : Z :=
  MakeDay year (month + 1) 1 - MakeDay year month 1.

(** *** The fields of a time value on the UTC calendar *)

Definition getUTCFullYear (t : Z) : Z := YearFromDay (Day t).
Definition getUTCMonth (t : Z) : Z := MonthFromDay (Day t).
Definition getUTCDate (t : Z) : Z := DateFromDay (Day t).

Definition setUTCDate (t dt : Z) : Z :=
  MakeDate (MakeDay (getUTCFullYear t) (getUTCMonth t) dt) (TimeWithinDay t).
Definition setUTCMonth (t m : Z) : Z :=
  MakeDate (MakeDay (getUTCFullYear t) m (getUTCDate t)) (TimeWithinDay t).
Definition setUTCFullYear (t y : Z) : Z :=
  MakeDate (MakeDay y (getUTCMonth t) (getUTCDate t)) (TimeWithinDay t).

(** *** The time zone of the host

    [LocalTZA t true] is the offset of local time from UTC, in
    milliseconds, at the instant [t]; [LocalTZA t false] is the offset in
    force at the local time [t]. *)
Class TimeZone := { LocalTZA : Z -> bool -> Z }.

Section Local.
Context {tz : TimeZone}.

Definition LocalTime (t : Z) : Z := t + LocalTZA t true.
Definition UTC (t : Z) : Z := t - LocalTZA t false.

(** *** The [Date] methods the application uses

    They read and write the fields of local time. *)

Definition getFullYear (t : Z) : Z := getUTCFullYear (LocalTime t).
Definition getMonth (t : Z) : Z := getUTCMonth (LocalTime t).
Definition getDate (t : Z) : Z := getUTCDate (LocalTime t).

Definition setDate (t dt : Z) : Z := UTC (setUTCDate (LocalTime t) dt).
Definition setMonth (t m : Z) : Z := UTC (setUTCMonth (LocalTime t) m).
Definition setFullYear (t y : Z) : Z := UTC (setUTCFullYear (LocalTime t) y).

(** [new Date(year, month, date)]: local midnight of that day. *)
Definition DateYMD (year month date : Z) : Z := UTC (MakeDate (MakeDay year month date) 0).

End Local.

(** [new Date('YYYY-MM-DD')], the date given by its day number: a
    date-only string denotes midnight UTC. *)
Definition parseISODate (day : Z) : Z := MakeDate day 0.
(** [d.toISOString().split('T')[0]], as a day number: the date of the
    instant at UTC. *)
Definition toISODate (t : Z) : Z := Day t.
(** [new Date(`${due_date}T${due_time}`).getTime()], the string read as
    UTC. *)
Definition parseDateTime (day minutes : Z) : Z := MakeDate day (minutes * msPerMinute).

(** The day number of the calendar date [y]-[m]-[d] (month 1..12), to
    write dates down. *)
Definition isoDate (y m d : Z) : Z := MakeDay y (m - 1) d.

(** A host at UTC. *)
Definition utc : TimeZone := {| LocalTZA _ _ := 0 |}.

End JsDate.

(** ** JavaScript numbers and property lookup *)

Module Js.

(** A number is an integer here, or [NaN]. *)
Inductive num := Num (z : Z) | NaN.

(** [a <= b], [a > b] on numbers: every comparison with [NaN] is false. *)
Definition le (a b : num) : bool :=
  match a, b with Num x, Num y => x <=? y | _, _ => false end.
Definition gt (a b : num) : bool :=
  match a, b with Num x, Num y => y <? x | _, _ => false end.

(** What reading [obj[key]] of an object literal with numeric members
    yields: an own member, a member inherited from [Object.prototype] (a
    function or object, never a number), or [undefined]. *)
Inductive value := Number (z : Z) | Inherited (name : string) | Undefined.

(** The members every object literal inherits from [Object.prototype]. *)
Definition Object_prototype : list string :=
  ["constructor"; "__defineGetter__"; "__defineSetter__"; "hasOwnProperty";
   "__lookupGetter__"; "__lookupSetter__"; "isPrototypeOf";
   "propertyIsEnumerable"; "toString"; "valueOf"; "__proto__";
   "toLocaleString"]%string.

Definition get (own : gmap string Z) (key : string) : value :=
  match own !! key with
  | Some v => Number v
  | None => if bool_decide (key ∈ Object_prototype) then Inherited key else Undefined
  end.

Definition truthy (v : value) : bool :=
  match v with
  | Number z => negb (z =? 0)
  | Inherited _ => true
  | Undefined => false
  end.

(** [a || b] *)
Definition or (a b : value) : value := if truthy a then a else b.

(** [ToNumber]: functions and plain objects convert to [NaN]. *)
Definition toNumber (v : value) : num :=
  match v with Number z => Num z | _ => NaN end.

(** [a - b] for a finite number [a]. *)
Definition minus (a : Z) (b : value) : num :=
  match toNumber b with Num z => Num (a - z) | NaN => NaN end.

(** [s || d] on strings: the empty string is falsy. *)
Definition or_str (s d : string) : string := if bool_decide (s = EmptyString) then d else s.

(** [o || d] for an optional string member. *)
Definition or_opt (o : option string) (d : string) : string :=
  match o with Some s => or_str s d | None => d end.

(** Truthiness of an optional string / boolean member. *)
Definition truthy_opt (o : option string) : bool :=
  match o with Some s => negb (bool_decide (s = EmptyString)) | None => false end.
Definition truthy_bool (o : option bool) : bool := default false o.

End Js.

(** ** Data model *)

Inductive Priority := low | medium | high.
Inductive Recurrence := none | daily | weekly | monthly.
Inductive SyncStatus := synced | pending | updated | deleted.
Inductive EntityType := task | task_list.
Inductive Action := create | update | delete.

Global Instance Priority_eq_dec : EqDecision Priority.
Proof. solve_decision. Defined.
Global Instance Recurrence_eq_dec : EqDecision Recurrence.
Proof. solve_decision. Defined.
Global Instance SyncStatus_eq_dec : EqDecision SyncStatus.
Proof. solve_decision. Defined.
Global Instance EntityType_eq_dec : EqDecision EntityType.
Proof. solve_decision. Defined.
Global Instance Action_eq_dec : EqDecision Action.
Proof. solve_decision. Defined.

(** [OfflineTask].  Optional members ([description?], [list_id?],
    [recurrence_id?], [offline_created?]) are [None] when absent;
    [completed] is optional too because a [RecurringTaskInstance] is stored
    in the same object store and has no such member. *)
Module Task.
Record t := mk {
  id : string;
  title : string;
  description : option string;
  due_date : Z;
  due_time : Z;
  priority : Priority;
  completed : option bool;
  user_id : string;
  list_id : option string;
  email_reminder : bool;
  push_notification : bool;
  notification_time : string;
  recurrence : Recurrence;
  recurrence_id : option string;
  is_recurring_parent : bool;
  sync_status : SyncStatus;
  created_at : Z;
  updated_at : Z;
  offline_created : option bool
}.
End Task.

Module TaskList.
Record t := mk {
  id : string;
  name : string;
  user_id : string;
  sync_status : SyncStatus;
  created_at : Z;
  updated_at : Z;
  offline_created : option bool
}.
End TaskList.

Global Instance Task_eq_dec : EqDecision Task.t.
Proof. solve_decision. Defined.
Global Instance TaskList_eq_dec : EqDecision TaskList.t.
Proof. solve_decision. Defined.

(** The payload snapshot of a queued mutation ([data: any]). *)
Inductive Payload := TaskData (d : Task.t) | ListData (d : TaskList.t).

Definition payload_id (p : Payload) : string :=
  match p with TaskData d => Task.id d | ListData d => TaskList.id d end.

Module SyncQueueItem.
Record t := mk {
  id : string;
  type : EntityType;
  action : Action;
  data : Payload;
  timestamp : Z;
  retries : Z
}.
End SyncQueueItem.

(** ** The Local Durable Store ([IndexedDBManager]) *)

Module IndexedDB.

Record DB := mk {
  tasks : gmap string Task.t;
  task_lists : gmap string TaskList.t;
  sync_queue : gmap string SyncQueueItem.t
}.

Definition empty : DB := mk ∅ ∅ ∅.

Definition with_tasks (f : gmap string Task.t -> gmap string Task.t) (db : DB) : DB :=
  mk (f (tasks db)) (task_lists db) (sync_queue db).
Definition with_task_lists (f : gmap string TaskList.t -> gmap string TaskList.t) (db : DB) : DB :=
  mk (tasks db) (f (task_lists db)) (sync_queue db).
Definition with_sync_queue (f : gmap string SyncQueueItem.t -> gmap string SyncQueueItem.t) (db : DB) : DB :=
  mk (tasks db) (task_lists db) (f (sync_queue db)).

(** [store.getAll()]: every record of the store. *)
Definition getAll {A} (m : gmap string A) : list A := (map_to_list m).*2.

(** [store.put(task)] *)
Definition saveTask (x : Task.t) : DB -> DB := with_tasks <[Task.id x := x]>.
Definition saveTasks (xs : list Task.t) (db : DB) : DB := foldl (fun d x => saveTask x d) db xs.

Definition getTasks (userId : string) (db : DB) : list Task.t :=
  filter (fun x => Task.sync_status x ≠ deleted)
    (filter (fun x => Task.user_id x = userId) (getAll (tasks db))).

Definition getTask (taskId : string) (db : DB) : option Task.t :=
  match tasks db !! taskId with
  | Some x => if decide (Task.sync_status x ≠ deleted) then Some x else None
  | None => None
  end.

Definition deleteTask (taskId : string) : DB -> DB := with_tasks (base.delete taskId).

Definition getTasksForNotifications (userId : string) (db : DB) : list Task.t :=
  filter (fun x => Task.sync_status x ≠ deleted ∧ Task.push_notification x = true
                   ∧ Js.truthy_bool (Task.completed x) = false)
    (filter (fun x => Task.user_id x = userId) (getAll (tasks db))).

Definition saveTaskList (x : TaskList.t) : DB -> DB := with_task_lists <[TaskList.id x := x]>.
Definition saveTaskLists (xs : list TaskList.t) (db : DB) : DB :=
  foldl (fun d x => saveTaskList x d) db xs.

Definition getTaskLists (userId : string) (db : DB) : list TaskList.t :=
  filter (fun x => TaskList.sync_status x ≠ deleted)
    (filter (fun x => TaskList.user_id x = userId) (getAll (task_lists db))).

Definition deleteTaskList (listId : string) : DB -> DB := with_task_lists (base.delete listId).

(** [addToSyncQueue(item)]: a fresh id ([uuid]), the enqueue time ([now])
    and a zero retry counter. *)
Definition addToSyncQueue (ty : EntityType) (act : Action) (d : Payload)
    (uuid : string) (now : Z) : DB -> DB :=
  with_sync_queue <[uuid := SyncQueueItem.mk uuid ty act d now 0]>.

Definition getSyncQueue (db : DB) : list SyncQueueItem.t := getAll (sync_queue db).
Definition removeSyncQueueItem (itemId : string) : DB -> DB :=
  with_sync_queue (base.delete itemId).
Definition updateSyncQueueItem (item : SyncQueueItem.t) : DB -> DB :=
  with_sync_queue <[SyncQueueItem.id item := item]>.
Definition clearSyncQueue : DB -> DB := with_sync_queue (fun _ => ∅).

(** Every object store is keyed by the key path [id] of its records. *)
Definition keyed (db : DB) : Prop :=
  map_Forall (fun k x => Task.id x = k) (tasks db)
  ∧ map_Forall (fun k x => TaskList.id x = k) (task_lists db)
  ∧ map_Forall (fun k x => SyncQueueItem.id x = k) (sync_queue db).

Global Instance keyed_dec (db : DB) : Decision (keyed db).
Proof. unfold keyed. apply _. Defined.

End IndexedDB.

(** ** The reminder scheduler, client half ([useNotifications]) *)

Module NotifStatus.
Inductive t := pending | synced | cancelled.
End NotifStatus.

Inductive NotificationPermission := perm_default | perm_granted | perm_denied.

Global Instance NotificationPermission_eq_dec : EqDecision NotificationPermission.
Proof. solve_decision. Defined.

Module ScheduledNotification.
(** [body] keeps the two interpolated parts of the template literal
    [`${task.title} is due in ${timingLabel}`]: the task's title and the
    value the label lookup produced. *)
Record t := mk {
  id : string;
  taskId : string;
  title : string;
  body : string * string;
  scheduledTime : Js.num;
  notificationTime : string;
  taskData : Task.t;
  sync_status : NotifStatus.t
}.
End ScheduledNotification.

Module Notifications.

(** The lead-time table shared by every copy of [timingMap]. *)
Definition timingMap : gmap string Z :=
  list_to_map
    [("3min", 3 * 60 * 1000); ("5min", 5 * 60 * 1000); ("10min", 10 * 60 * 1000);
     ("15min", 15 * 60 * 1000); ("20min", 20 * 60 * 1000); ("25min", 25 * 60 * 1000);
     ("30min", 30 * 60 * 1000); ("45min", 45 * 60 * 1000); ("50min", 50 * 60 * 1000);
     ("1hour", 60 * 60 * 1000); ("2hours", 2 * 60 * 60 * 1000);
     ("1day", 24 * 60 * 60 * 1000)]%string.

(** The twelve enumerated lead times. *)
Definition leadOptions : list string :=
  ["3min"; "5min"; "10min"; "15min"; "20min"; "25min"; "30min"; "45min";
   "50min"; "1hour"; "2hours"; "1day"]%string.

(** [timingMap[timing] || 10 * 60 * 1000] *)
Definition getNotificationDelay (timing : string) : Js.value :=
  Js.or (Js.get timingMap timing) (Js.Number (10 * 60 * 1000)).

(** [getTimingLabel]: the same lookup over the table of labels.  The result
    is only interpolated into the body text; an inherited member is shown
    there by its name. *)
Definition labelMap : list (string * string) :=
  [("3min", "3 minutes"); ("5min", "5 minutes"); ("10min", "10 minutes");
   ("15min", "15 minutes"); ("20min", "20 minutes"); ("25min", "25 minutes");
   ("30min", "30 minutes"); ("45min", "45 minutes"); ("50min", "50 minutes");
   ("1hour", "1 hour"); ("2hours", "2 hours"); ("1day", "1 day")]%string.

Definition getTimingLabel (timing : string) : string :=
  match (list_to_map labelMap : gmap string string) !! timing with
  | Some l => l
  | None => if bool_decide (timing ∈ Js.Object_prototype) then timing else "10 minutes"%string
  end.

(** What the closures of one render of the hook have captured. *)
Record Render := mkRender {
  scheduledNotifications : list ScheduledNotification.t;
  permission : NotificationPermission
}.

(** A pending [setTimeout] callback [() => showTaskNotification(notification)]:
    the instant it runs at, its argument, and the render that created it. *)
Record Timer := mkTimer {
  fireAt : Z;
  notification : ScheduledNotification.t;
  env : Render
}.

(** What the hook acts on: the list last passed to
    [saveScheduledNotifications] (written to IndexedDB and handed to the
    next render), the pending timers, the browser notifications shown, and
    the console. *)
Record Effects := mkEffects {
  stored : list ScheduledNotification.t;
  timers : list Timer;
  displayed : list ScheduledNotification.t;
  console : list string
}.

Definition saveScheduledNotifications (l : list ScheduledNotification.t) (e : Effects) : Effects :=
  mkEffects l (timers e) (displayed e) (console e).

Definition setTimeout (tm : Timer) (e : Effects) : Effects :=
  mkEffects (stored e) (timers e ++ [tm]) (displayed e) (console e).

Definition log (msg : string) (e : Effects) : Effects :=
  mkEffects (stored e) (timers e) (displayed e) (console e ++ [msg]).

Definition showTaskNotification (r : Render) (n : ScheduledNotification.t) (e : Effects) : Effects :=
  if decide (permission r ≠ perm_granted) then e
  else
    let e1 := mkEffects (stored e) (timers e) (displayed e ++ [n]) (console e) in
    saveScheduledNotifications
      (filter (fun m => ScheduledNotification.id m ≠ ScheduledNotification.id n)
              (scheduledNotifications r)) e1.

(** [scheduleLocalNotification]; [now] is its own reading of [Date.now()].
    A [NaN] delay is not [<= 0], and [setTimeout] treats it as zero. *)
Definition scheduleLocalNotification (r : Render) (n : ScheduledNotification.t) (now : Z)
    (e : Effects) : Effects :=
  match ScheduledNotification.scheduledTime n with
  | Js.Num s =>
      if s - now <=? 0 then showTaskNotification r n e
      else setTimeout (mkTimer s n r) e
  | Js.NaN => setTimeout (mkTimer now n r) e
  end.

(** [customTime || (taskDateTime.getTime() - notificationDelay)] *)
Definition reminderTime (x : Task.t) (customTime : option Z) : Js.num :=
  let taskDateTime := JsDate.parseDateTime (Task.due_date x) (Task.due_time x) in
  let notificationDelay := getNotificationDelay (Js.or_str (Task.notification_time x) "10min") in
  match customTime with
  | Some c => if c =? 0 then Js.minus taskDateTime notificationDelay else Js.Num c
  | None => Js.minus taskDateTime notificationDelay
  end.

Definition scheduleTaskNotification (r : Render) (x : Task.t) (customTime : option Z)
    (uuid : string) (now now' : Z) (e : Effects) : Effects :=
  if negb (Task.push_notification x) || Js.truthy_bool (Task.completed x) then e
  else
    let rt := reminderTime x customTime in
    if Js.le rt (Js.Num now) then log "Task notification time has already passed" e
    else
      let timingLabel := getTimingLabel (Js.or_str (Task.notification_time x) "10min") in
      let n := ScheduledNotification.mk uuid (Task.id x) "🔔 Task Due Soon!"
                 (Task.title x, timingLabel) rt
                 (Js.or_str (Task.notification_time x) "10min") x NotifStatus.pending in
      let e1 := saveScheduledNotifications (scheduledNotifications r ++ [n]) e in
      let e2 := scheduleLocalNotification r n now' e1 in
      log "Task notification scheduled" e2.

Definition cancelTaskNotifications (r : Render) (taskId : string) (e : Effects) : Effects :=
  saveScheduledNotifications
    (filter (fun n => ScheduledNotification.taskId n ≠ taskId) (scheduledNotifications r)) e.

Definition updateTaskNotification (r : Render) (x : Task.t) (uuid : string) (now now' : Z)
    (e : Effects) : Effects :=
  let e1 := cancelTaskNotifications r (Task.id x) e in
  if Task.push_notification x && negb (Js.truthy_bool (Task.completed x))
  then scheduleTaskNotification r x None uuid now now' e1
  else e1.

(** The next render captures what was stored. *)
Definition rerender (r : Render) (e : Effects) : Render :=
  mkRender (stored e) (permission r).

(** The event loop at instant [now]: every timer that is due runs its
    callback, in registration order, and is gone afterwards. *)
Definition runTimers (now : Z) (e : Effects) : Effects :=
  let due := filter (fun tm => fireAt tm <= now) (timers e) in
  let rest := filter (fun tm => ¬ fireAt tm <= now) (timers e) in
  foldl (fun e' tm => showTaskNotification (env tm) (notification tm) e')
        (mkEffects (stored e) rest (displayed e) (console e)) due.

End Notifications.

(** ** The email reminder queue, client side ([useEmailNotifications]) *)

Module EmailNotifications.

Record EmailNotification := mk {
  id : string;
  taskId : string;
  scheduledTime : Js.num;
  taskData : Task.t;
  sync_status : NotifStatus.t;
  created_at : Z
}.

(** [timingMap[timing] || 60 * 60 * 1000] *)
Definition getNotificationDelay (timing : string) : Js.value :=
  Js.or (Js.get Notifications.timingMap timing) (Js.Number (60 * 60 * 1000)).

Definition reminderTime (x : Task.t) : Js.num :=
  let taskDateTime := JsDate.parseDateTime (Task.due_date x) (Task.due_time x) in
  let notificationDelay := getNotificationDelay (Js.or_str (Task.notification_time x) "1hour") in
  Js.minus taskDateTime notificationDelay.

(** [scheduleEmailNotification] up to saving the queue; [emailQueue] is the
    queue captured by the closure, the result is the queue saved ([None]
    when the call returns early).  The immediate [syncEmailQueue()] that
    follows when online only posts the queue to the server. *)
Definition scheduleEmailNotification (user : option string) (emailQueue : list EmailNotification)
    (x : Task.t) (uuid : string) (now : Z) : option (list EmailNotification) :=
  if negb (Task.email_reminder x) || Js.truthy_bool (Task.completed x)
     || negb (bool_decide (is_Some user)) then None
  else
    let rt := reminderTime x in
    if Js.le rt (Js.Num now) then None
    else Some (emailQueue ++ [mk uuid (Task.id x) rt x NotifStatus.pending now]).

End EmailNotifications.

(** ** The recurrence expander, client side ([useRecurringTasks]) *)

Module RecurringTasks.
Import JsDate.

(** The [switch] on the recurrence pattern: [baseDate] moved [i] steps. *)
Definition advance {tz : TimeZone} (recurrenceType : Recurrence) (baseDate i : Z) : Z :=
  match recurrenceType with
  | daily => setDate baseDate (getDate baseDate + i)
  | weekly => setDate baseDate (getDate baseDate + i * 7)
  | monthly => setMonth baseDate (getMonth baseDate + i)
  | none => baseDate
  end.

(** [new Date(now.getFullYear() + 1, now.getMonth(), now.getDate())] *)
Definition oneYearFromToday {tz : TimeZone} (now : Z) : Z :=
  DateYMD (getFullYear now + 1) (getMonth now) (getDate now).

(** [oneYearFromNow.setFullYear(oneYearFromNow.getFullYear() + 1)] *)
Definition oneYearFromNow {tz : TimeZone} (now : Z) : Z :=
  setFullYear now (getFullYear now + 1).

(** The object literal both generators build; [src] is the parent task or
    the completed task, [parentId] the series it is linked to. *)
Definition instance (userId uuid : string) (now : Z) (src : Task.t) (parentId : string)
    (due : Z) : Task.t :=
  {| Task.id := uuid;
     Task.title := Task.title src;
     Task.description := Task.description src;
     Task.due_date := due;
     Task.due_time := Task.due_time src;
     Task.priority := Task.priority src;
     Task.completed := None;
     Task.user_id := userId;
     Task.list_id := Task.list_id src;
     Task.email_reminder := Task.email_reminder src;
     Task.push_notification := Task.push_notification src;
     Task.notification_time := Task.notification_time src;
     Task.recurrence := none;
     Task.recurrence_id := Some parentId;
     Task.is_recurring_parent := false;
     Task.sync_status := pending;
     Task.created_at := now;
     Task.updated_at := now;
     Task.offline_created := Some true |}.

(** The [for] loop of [generateRecurringInstances] from iteration [i] on,
    with [remaining] iterations left; [randomUUID i] is the identifier
    drawn in iteration [i]. *)
Fixpoint instancesFrom {tz : TimeZone} (userId : string) (randomUUID : nat -> string)
    (now : Z) (parentTask : Task.t) (recurrenceType : Recurrence) (i remaining : nat)
    : list Task.t :=
  match remaining with
  | O => []
  | S k =>
      let baseDate := parseISODate (Task.due_date parentTask) in
      let instanceDate := advance recurrenceType baseDate (Z.of_nat i) in
      if instanceDate >? oneYearFromToday now then []
      else instance userId (randomUUID i) now parentTask (Task.id parentTask)
             (toISODate instanceDate)
           :: instancesFrom userId randomUUID now parentTask recurrenceType (S i) k
  end.

Definition generateRecurringInstances {tz : TimeZone} (user : option string)
    (randomUUID : nat -> string)
    (now : Z) (parentTask : Task.t) (recurrenceType : Recurrence) (instanceCount : nat)
    : list Task.t :=
  match user with
  | None => []
  | Some userId =>
      if decide (recurrenceType = none) then []
      else instancesFrom userId randomUUID now parentTask recurrenceType 1 instanceCount
  end.

(** [instanceCount: number = 52], the count of a call that gives none. *)
Definition instanceCount_default : nat := 52.

Definition getInstanceCount (recurrenceType : Recurrence) : nat :=
  match recurrenceType with
  | daily => 30%nat
  | weekly => 52%nat
  | monthly => 12%nat
  | none => 0%nat
  end.

(** The client state the hook acts on: the local store and the
    notification hook's surroundings. *)
Record World := mkWorld {
  db : IndexedDB.DB;
  notif : Notifications.Effects
}.

Definition onDb (f : IndexedDB.DB -> IndexedDB.DB) (w : World) : World :=
  mkWorld (f (db w)) (notif w).
Definition onNotif (f : Notifications.Effects -> Notifications.Effects) (w : World) : World :=
  mkWorld (db w) (f (notif w)).

Section Hook.
(** The time zone of the browser, [user] from [useAuth()], the render of the
    [useNotifications()] instance this hook holds, and the clock. *)
Context {tz : TimeZone}.
Variable user : option string.
Variable render : Notifications.Render.
Variable now : Z.

(** One pass of the loop of [saveRecurringInstances]; [queueId] and
    [notificationId] are the identifiers drawn for the queue entry and for
    the scheduled notification. *)
Definition saveRecurringInstance (queueId notificationId : string) (x : Task.t) (w : World)
    : World :=
  let w1 := onDb (IndexedDB.saveTask x) w in
  let w2 := onDb (IndexedDB.addToSyncQueue task create (TaskData x) queueId now) w1 in
  if Task.push_notification x
  then onNotif (Notifications.scheduleTaskNotification render x None notificationId now now) w2
  else w2.

Fixpoint saveRecurringInstancesFrom (queueId notificationId : nat -> string) (k : nat)
    (instances : list Task.t) (w : World) : World :=
  match instances with
  | [] => w
  | x :: rest =>
      saveRecurringInstancesFrom queueId notificationId (S k) rest
        (saveRecurringInstance (queueId k) (notificationId k) x w)
  end.

Definition saveRecurringInstances (queueId notificationId : nat -> string)
    (instances : list Task.t) (w : World) : World :=
  saveRecurringInstancesFrom queueId notificationId 0 instances w.

(** The identifiers [createRecurringTask] draws. *)
Record CreateIds := mkCreateIds {
  parentUUID : string;
  parentQueueUUID : string;
  instanceUUID : nat -> string;
  instanceQueueUUID : nat -> string;
  instanceNotificationUUID : nat -> string;
  parentNotificationUUID : string
}.

(** [{ ...taskData, id, user_id, is_recurring_parent: true, ... }] *)
Definition parentOf (userId uuid : string) (taskData : Task.t) : Task.t :=
  {| Task.id := uuid;
     Task.title := Task.title taskData;
     Task.description := Task.description taskData;
     Task.due_date := Task.due_date taskData;
     Task.due_time := Task.due_time taskData;
     Task.priority := Task.priority taskData;
     Task.completed := Task.completed taskData;
     Task.user_id := userId;
     Task.list_id := Task.list_id taskData;
     Task.email_reminder := Task.email_reminder taskData;
     Task.push_notification := Task.push_notification taskData;
     Task.notification_time := Task.notification_time taskData;
     Task.recurrence := Task.recurrence taskData;
     Task.recurrence_id := Task.recurrence_id taskData;
     Task.is_recurring_parent := true;
     Task.sync_status := pending;
     Task.created_at := now;
     Task.updated_at := now;
     Task.offline_created := Some true |}.

(** The instances [createRecurringTask] generates for its parent task. *)
Definition createdInstances (ids : CreateIds) (parentTask : Task.t) : list Task.t :=
  generateRecurringInstances user (instanceUUID ids) now parentTask
    (Task.recurrence parentTask) (getInstanceCount (Task.recurrence parentTask)).

(** [createRecurringTask]: [None] is the early [return null]. *)
Definition createRecurringTask (ids : CreateIds) (taskData : Task.t) (w : World)
    : option Task.t * World :=
  match user with
  | None => (None, w)
  | Some userId =>
      if decide (Task.recurrence taskData = none) then (None, w)
      else
        let parentTask := parentOf userId (parentUUID ids) taskData in
        let w1 := onDb (IndexedDB.saveTask parentTask) w in
        let w2 := onDb (IndexedDB.addToSyncQueue task create (TaskData parentTask)
                          (parentQueueUUID ids) now) w1 in
        let instances := createdInstances ids parentTask in
        let w3 := saveRecurringInstances (instanceQueueUUID ids)
                    (instanceNotificationUUID ids) instances w2 in
        let w4 := if Task.push_notification parentTask
                  then onNotif (Notifications.scheduleTaskNotification render parentTask None
                                  (parentNotificationUUID ids) now now) w3
                  else w3 in
        (Some parentTask, w4)
  end.

(** [getParentRecurrenceType]: [parentTask?.recurrence || 'none'] *)
Definition getParentRecurrenceType (parentId : string) (d : IndexedDB.DB) : Recurrence :=
  match IndexedDB.getTask parentId d with
  | Some parentTask => Task.recurrence parentTask
  | None => none
  end.

(** The series a task belongs to: [task.recurrence_id || task.id]. *)
Definition seriesOf (x : Task.t) : string := Js.or_opt (Task.recurrence_id x) (Task.id x).

(** The due date of the successor of [completedTask]. *)
Definition nextDateStr (completedTask : Task.t) (recurrenceType : Recurrence) : Z :=
  toISODate (advance recurrenceType (parseISODate (Task.due_date completedTask)) 1).

(** The test of [existingTasks.find(...)] *)
Definition occupies (parentId : string) (due : Z) (x : Task.t) : bool :=
  bool_decide (Task.recurrence_id x = Some parentId)
  && bool_decide (Task.due_date x = due)
  && negb (Js.truthy_bool (Task.completed x)).

(** [generateNextInstance]; it is only called with [user] present. *)
Definition generateNextInstance (userId uuid : string) (completedTask : Task.t)
    (recurrenceType : Recurrence) (d : IndexedDB.DB) : option Task.t :=
  let nextDate := advance recurrenceType (parseISODate (Task.due_date completedTask)) 1 in
  if nextDate >? oneYearFromNow now then None
  else
    let existingTasks := IndexedDB.getTasks userId d in
    let parentId := seriesOf completedTask in
    match List.find (occupies parentId (toISODate nextDate)) existingTasks with
    | Some _ => None
    | None => Some (instance userId uuid now completedTask parentId (toISODate nextDate))
    end.

(** [{ ...task, completed: true }] *)
Definition markCompleted (x : Task.t) : Task.t :=
  {| Task.id := Task.id x;
     Task.title := Task.title x;
     Task.description := Task.description x;
     Task.due_date := Task.due_date x;
     Task.due_time := Task.due_time x;
     Task.priority := Task.priority x;
     Task.completed := Some true;
     Task.user_id := Task.user_id x;
     Task.list_id := Task.list_id x;
     Task.email_reminder := Task.email_reminder x;
     Task.push_notification := Task.push_notification x;
     Task.notification_time := Task.notification_time x;
     Task.recurrence := Task.recurrence x;
     Task.recurrence_id := Task.recurrence_id x;
     Task.is_recurring_parent := Task.is_recurring_parent x;
     Task.sync_status := Task.sync_status x;
     Task.created_at := Task.created_at x;
     Task.updated_at := Task.updated_at x;
     Task.offline_created := Task.offline_created x |}.

(** The recurrence rule [completeRecurringTask] works with. *)
Definition resolvedRecurrence (x : Task.t) (d : IndexedDB.DB) : Recurrence :=
  if decide (Task.recurrence x ≠ none) then Task.recurrence x
  else getParentRecurrenceType (seriesOf x) d.

(** The identifiers [completeRecurringTask] draws. *)
Record CompleteIds := mkCompleteIds {
  nextUUID : string;
  nextQueueUUID : string;
  nextNotificationUUID : string
}.

Definition completeRecurringTask (ids : CompleteIds) (x : Task.t) (w : World) : World :=
  match user with
  | None => w
  | Some userId =>
      let w1 := onDb (IndexedDB.saveTask (markCompleted x)) w in
      if bool_decide (Task.recurrence x ≠ none) || Js.truthy_opt (Task.recurrence_id x) then
        let recurrenceType := resolvedRecurrence x (db w1) in
        if decide (recurrenceType ≠ none) then
          match generateNextInstance userId (nextUUID ids) x recurrenceType (db w1) with
          | Some nextInstance =>
              saveRecurringInstance (nextQueueUUID ids) (nextNotificationUUID ids)
                nextInstance w1
          | None => w1
          end
        else w1
      else w1
  end.

(** [deleteRecurringSeries]: the parent id it works out ... *)
Definition seriesParent (taskId : string) (isParent : bool) (allTasks : list Task.t)
    : option string :=
  if isParent then Some taskId
  else match List.find (fun x => bool_decide (Task.id x = taskId)) allTasks with
       | Some x => Task.recurrence_id x
       | None => None
       end.

(** ... the members of the series it finds ... *)
Definition inSeries (parentId : string) (x : Task.t) : bool :=
  bool_decide (Task.id x = parentId) || bool_decide (Task.recurrence_id x = Some parentId).

(** ... and the loop that deletes them and queues the deletions. *)
Fixpoint deleteSeriesFrom (queueId : nat -> string) (k : nat) (series : list Task.t)
    (d : IndexedDB.DB) : IndexedDB.DB :=
  match series with
  | [] => d
  | x :: rest =>
      deleteSeriesFrom queueId (S k) rest
        (IndexedDB.addToSyncQueue task delete (TaskData x) (queueId k) now
           (IndexedDB.deleteTask (Task.id x) d))
  end.

Definition deleteRecurringSeries (queueId : nat -> string) (taskId : string) (isParent : bool)
    (d : IndexedDB.DB) : IndexedDB.DB :=
  match user with
  | None => d
  | Some userId =>
      let allTasks := IndexedDB.getTasks userId d in
      match seriesParent taskId isParent allTasks with
      | Some parentId =>
          if Js.truthy_opt (Some parentId)
          then deleteSeriesFrom queueId 0 (List.filter (inSeries parentId) allTasks) d
          else d
      | None => d
      end
  end.

End Hook.

End RecurringTasks.

(** ** [TaskContext]: how the provider calls the hooks *)

Module TaskContext.

(** [updateTask], the block "Handle recurring task completion".  [tasks] is
    the task list of the current render, [completed] the member of
    [updates], [updatedTask] what the API layer returned. *)
Definition handleRecurringCompletion {tz : JsDate.TimeZone} (user : option string)
    (render : Notifications.Render)
    (now : Z) (ids : RecurringTasks.CompleteIds) (tasks : list Task.t) (id : string)
    (completed : option bool) (updatedTask : Task.t) (w : RecurringTasks.World)
    : RecurringTasks.World :=
  let found := List.find (fun x => bool_decide (Task.id x = id)) tasks in
  if Js.truthy_bool completed
     && negb (Js.truthy_bool (found ≫= Task.completed)) then
    match found with
    | Some x =>
        if bool_decide (Task.recurrence x ≠ none) || Js.truthy_opt (Task.recurrence_id x)
        then RecurringTasks.completeRecurringTask user render now ids updatedTask w
        else w
    | None => w
    end
  else w.

(** [deleteTask], the branch "Handle recurring task deletion": [None] when
    the task is unknown (an error is thrown) or is not part of a series
    (the single task goes through the API layer). *)
Definition deleteSeries (user : option string) (now : Z) (queueId : nat -> string)
    (tasks : list Task.t) (id : string) (d : IndexedDB.DB) : option IndexedDB.DB :=
  match List.find (fun x => bool_decide (Task.id x = id)) tasks with
  | Some taskToDelete =>
      if Task.is_recurring_parent taskToDelete || Js.truthy_opt (Task.recurrence_id taskToDelete)
      then Some (RecurringTasks.deleteRecurringSeries user now queueId id
                   (Task.is_recurring_parent taskToDelete) d)
      else None
  | None => None
  end.

End TaskContext.

(** ** The client drain ([useOfflineSync]) *)

(** The Supabase client as the drain uses it.  Awaiting a write resolves
    to a result object: the model keeps its [error] member ([None] for
    [null]) and the remote store after the call.  A write the store refuses
    resolves as well, with [error] set and the store as it was.  [None] is
    an awaited call that throws.  A select is taken with the caller's
    [if (error) throw error]: [None] when the query reports an error. *)
Module Response.
Record t (R : Type) := mk {
  error : option string;
  after : R
}.
Arguments mk {R} _ _.
Arguments error {R} _.
Arguments after {R} _.
End Response.

Class Supabase (R : Type) := {
  sb_insert : EntityType -> Payload -> R -> option (Response.t R);
  sb_update : EntityType -> Payload -> string -> R -> option (Response.t R);
  sb_delete : EntityType -> string -> R -> option (Response.t R);
  sb_select_tasks : string -> R -> option (list Task.t);
  sb_select_task_lists : string -> R -> option (list TaskList.t)
}.

Module OfflineSync.

(** What the drain writes to the console. *)
Inductive LogEntry :=
| error_processing (item : SyncQueueItem.t)
| warn_removing (item : SyncQueueItem.t)
| error_sync_failed.

Section Drain.
Context {R : Type} `{Supabase R}.

(** The call [processSyncItem] awaits for an entry. *)
Definition request (item : SyncQueueItem.t) (r : R) : option (Response.t R) :=
  let data := SyncQueueItem.data item in
  match SyncQueueItem.action item with
  | create => sb_insert (SyncQueueItem.type item) data r
  | update => sb_update (SyncQueueItem.type item) data (payload_id data) r
  | delete => sb_delete (SyncQueueItem.type item) (payload_id data) r
  end.

(** [processSyncItem] awaits the call and does not look at its result:
    the remote store afterwards, or [None] when awaiting throws. *)
Definition processSyncItem (item : SyncQueueItem.t) (r : R) : option R :=
  Response.after <$> request item r.

(** [item.retries += 1] *)
Definition retried (item : SyncQueueItem.t) : SyncQueueItem.t :=
  SyncQueueItem.mk (SyncQueueItem.id item) (SyncQueueItem.type item)
    (SyncQueueItem.action item) (SyncQueueItem.data item)
    (SyncQueueItem.timestamp item) (SyncQueueItem.retries item + 1).

Record State := mkState {
  db : IndexedDB.DB;
  remote : R;
  console : list LogEntry
}.

(** The body of [for (const item of syncQueue)]. *)
Definition drainItem (st : State) (item : SyncQueueItem.t) : State :=
  match processSyncItem item (remote st) with
  | Some r' =>
      mkState (IndexedDB.removeSyncQueueItem (SyncQueueItem.id item) (db st)) r' (console st)
  | None =>
      let item' := retried item in
      if 3 <=? SyncQueueItem.retries item' then
        mkState (IndexedDB.removeSyncQueueItem (SyncQueueItem.id item') (db st)) (remote st)
          (console st ++ [error_processing item; warn_removing item'])
      else
        mkState (IndexedDB.updateSyncQueueItem item' (db st)) (remote st)
          (console st ++ [error_processing item])
  end.

Definition drainQueue (st : State) : State :=
  foldl drainItem st (IndexedDB.getSyncQueue (db st)).

(** What one pass of the loop leaves in the queue under the entry's id. *)
Definition leftInQueue (item : SyncQueueItem.t) (r : R) : option SyncQueueItem.t :=
  match processSyncItem item r with
  | Some _ => None
  | None => if 3 <=? SyncQueueItem.retries (retried item) then None else Some (retried item)
  end.

(** The remote store once the drain has gone through [items]. *)
Definition remoteAfter (r : R) (items : list SyncQueueItem.t) : R :=
  foldl (fun r' item => default r' (processSyncItem item r')) r items.

(** The entries of a snapshot that come before the entry with id [id]. *)
Fixpoint before (id : string) (items : list SyncQueueItem.t) : list SyncQueueItem.t :=
  match items with
  | [] => []
  | item :: rest =>
      if decide (SyncQueueItem.id item = id) then [] else item :: before id rest
  end.

(** The remote store when the loop of a drain started in [st] reaches
    [item]. *)
Definition remoteAt (st : State) (item : SyncQueueItem.t) : R :=
  remoteAfter (remote st)
    (before (SyncQueueItem.id item) (IndexedDB.getSyncQueue (db st))).

(** In a drain started in [st], awaiting the call for [item] throws. *)
Definition attemptThrows (st : State) (item : SyncQueueItem.t) : Prop :=
  processSyncItem item (remoteAt st item) = None.

(** In a drain started in [st], the remote store refuses the write for
    [item]: the call resolves with the error [e] and the store is as it
    was. *)
Definition attemptRefused (st : State) (item : SyncQueueItem.t) (e : string) : Prop :=
  request item (remoteAt st item) = Some (Response.mk (Some e) (remoteAt st item)).

(** [{ ...task, sync_status: 'synced' }] *)
Definition asSyncedTask (x : Task.t) : Task.t :=
  {| Task.id := Task.id x;
     Task.title := Task.title x;
     Task.description := Task.description x;
     Task.due_date := Task.due_date x;
     Task.due_time := Task.due_time x;
     Task.priority := Task.priority x;
     Task.completed := Task.completed x;
     Task.user_id := Task.user_id x;
     Task.list_id := Task.list_id x;
     Task.email_reminder := Task.email_reminder x;
     Task.push_notification := Task.push_notification x;
     Task.notification_time := Task.notification_time x;
     Task.recurrence := Task.recurrence x;
     Task.recurrence_id := Task.recurrence_id x;
     Task.is_recurring_parent := Task.is_recurring_parent x;
     Task.sync_status := synced;
     Task.created_at := Task.created_at x;
     Task.updated_at := Task.updated_at x;
     Task.offline_created := Task.offline_created x |}.

Definition asSyncedList (l : TaskList.t) : TaskList.t :=
  TaskList.mk (TaskList.id l) (TaskList.name l) (TaskList.user_id l) synced
    (TaskList.created_at l) (TaskList.updated_at l) (TaskList.offline_created l).

(** [fetchAndCacheServerData]: the state it leaves, and [false] when a
    query fails and it throws. *)
Definition fetchAndCacheServerData (userId : string) (st : State) : State * bool :=
  match sb_select_tasks userId (remote st) with
  | None => (st, false)
  | Some ts =>
      let st1 := mkState (IndexedDB.saveTasks (asSyncedTask <$> ts) (db st))
                   (remote st) (console st) in
      match sb_select_task_lists userId (remote st) with
      | None => (st1, false)
      | Some ls =>
          (mkState (IndexedDB.saveTaskLists (asSyncedList <$> ls) (db st1))
             (remote st) (console st), true)
      end
  end.

(** [syncOfflineData]: guarded by the user, the connectivity flag and the
    in-progress flag; a failing refetch is caught and logged, after the
    queue has been drained. *)
Definition syncOfflineData (user : option string) (isOnline isSyncing : bool) (st : State)
    : State :=
  match user with
  | None => st
  | Some userId =>
      if negb isOnline || isSyncing then st
      else
        let fetched := fetchAndCacheServerData userId (drainQueue st) in
        if fetched.2 then fetched.1
        else mkState (db fetched.1) (remote fetched.1) (console fetched.1 ++ [error_sync_failed])
  end.

End Drain.

End OfflineSync.

(** ** The Remote Task Service (the Express server) *)

Module Server.
Import JsDate.

Record Tables := mkTables {
  tasks : gmap string Task.t;
  task_lists : gmap string TaskList.t
}.

(** The statements the handlers send to the store. *)
Inductive Write :=
| InsertTask (row : Task.t)
| InsertTasks (rows : list Task.t)
| UpdateTask (id userId : string) (row : Task.t)
| DeleteTask (id userId : string)
| DeleteSeries (id userId : string)
| InsertList (row : TaskList.t)
| UpdateList (id userId : string) (row : TaskList.t)
| DeleteList (id userId : string).

Definition insertTask (row : Task.t) (m : gmap string Task.t) : gmap string Task.t :=
  <[Task.id row := row]> m.

(** What a statement does to the tables when the store carries it out.
    An update or delete only touches rows that match every [.eq] filter;
    deleting a list cascades to its tasks. *)
Definition apply (w : Write) (t : Tables) : Tables :=
  match w with
  | InsertTask row => mkTables (insertTask row (tasks t)) (task_lists t)
  | InsertTasks rows => mkTables (foldr insertTask (tasks t) rows) (task_lists t)
  | UpdateTask id userId row =>
      match tasks t !! id with
      | Some old =>
          if decide (Task.user_id old = userId)
          then mkTables (<[id := row]> (tasks t)) (task_lists t)
          else t
      | None => t
      end
  | DeleteTask id userId =>
      mkTables (filter (fun kv => ¬ (Task.id kv.2 = id ∧ Task.user_id kv.2 = userId)) (tasks t))
               (task_lists t)
  | DeleteSeries id userId =>
      mkTables
        (filter (fun kv => ¬ (Task.user_id kv.2 = userId
                              ∧ (Task.id kv.2 = id ∨ Task.recurrence_id kv.2 = Some id)))
                (tasks t))
        (task_lists t)
  | InsertList row => mkTables (tasks t) (<[TaskList.id row := row]> (task_lists t))
  | UpdateList id userId row =>
      match task_lists t !! id with
      | Some old =>
          if decide (TaskList.user_id old = userId)
          then mkTables (tasks t) (<[id := row]> (task_lists t))
          else t
      | None => t
      end
  | DeleteList id userId =>
      match task_lists t !! id with
      | Some old =>
          if decide (TaskList.user_id old = userId)
          then mkTables (filter (fun kv => Task.list_id kv.2 ≠ Some id) (tasks t))
                        (base.delete id (task_lists t))
          else t
      | None => t
      end
  end.

Record Conflict := mkConflict {
  conflict_id : string;
  conflict_type : EntityType;
  reason : string;
  serverTimestamp : Z;
  clientTimestamp : Z
}.

Record Change := mkChange {
  change_type : EntityType;
  change_action : Action;
  change_data : Payload;
  change_clientTimestamp : Z
}.

Record Results := mkResults {
  processed : Z;
  errors : list Change;
  conflicts : list Conflict
}.

Definition addConflict (c : Conflict) (r : Results) : Results :=
  mkResults (processed r) (errors r) (conflicts r ++ [c]).

(** [{ ...data, sync_status: 'synced', updated_at: new Date().toISOString() }] *)
Definition taskUpdates (data : Task.t) (now : Z) : Task.t :=
  {| Task.id := Task.id data;
     Task.title := Task.title data;
     Task.description := Task.description data;
     Task.due_date := Task.due_date data;
     Task.due_time := Task.due_time data;
     Task.priority := Task.priority data;
     Task.completed := Task.completed data;
     Task.user_id := Task.user_id data;
     Task.list_id := Task.list_id data;
     Task.email_reminder := Task.email_reminder data;
     Task.push_notification := Task.push_notification data;
     Task.notification_time := Task.notification_time data;
     Task.recurrence := Task.recurrence data;
     Task.recurrence_id := Task.recurrence_id data;
     Task.is_recurring_parent := Task.is_recurring_parent data;
     Task.sync_status := synced;
     Task.created_at := Task.created_at data;
     Task.updated_at := now;
     Task.offline_created := Task.offline_created data |}.

Definition listUpdates (data : TaskList.t) (now : Z) : TaskList.t :=
  TaskList.mk (TaskList.id data) (TaskList.name data) (TaskList.user_id data) synced
    (TaskList.created_at data) now (TaskList.offline_created data).

(** [{ ...data, user_id: userId, sync_status: 'synced' }] *)
Definition taskCreateData (data : Task.t) (userId : string) : Task.t :=
  {| Task.id := Task.id data;
     Task.title := Task.title data;
     Task.description := Task.description data;
     Task.due_date := Task.due_date data;
     Task.due_time := Task.due_time data;
     Task.priority := Task.priority data;
     Task.completed := Task.completed data;
     Task.user_id := userId;
     Task.list_id := Task.list_id data;
     Task.email_reminder := Task.email_reminder data;
     Task.push_notification := Task.push_notification data;
     Task.notification_time := Task.notification_time data;
     Task.recurrence := Task.recurrence data;
     Task.recurrence_id := Task.recurrence_id data;
     Task.is_recurring_parent := Task.is_recurring_parent data;
     Task.sync_status := synced;
     Task.created_at := Task.created_at data;
     Task.updated_at := Task.updated_at data;
     Task.offline_created := Task.offline_created data |}.

(** [{ ...taskData, id: undefined, due_date, recurrence_id: parentId,
       is_recurring_parent: false, recurrence: 'none' }]; the store assigns
    the id [uuid]. *)
Definition serverInstance (uuid parentId : string) (taskData : Task.t) (due : Z) : Task.t :=
  {| Task.id := uuid;
     Task.title := Task.title taskData;
     Task.description := Task.description taskData;
     Task.due_date := due;
     Task.due_time := Task.due_time taskData;
     Task.priority := Task.priority taskData;
     Task.completed := Task.completed taskData;
     Task.user_id := Task.user_id taskData;
     Task.list_id := Task.list_id taskData;
     Task.email_reminder := Task.email_reminder taskData;
     Task.push_notification := Task.push_notification taskData;
     Task.notification_time := Task.notification_time taskData;
     Task.recurrence := none;
     Task.recurrence_id := Some parentId;
     Task.is_recurring_parent := false;
     Task.sync_status := Task.sync_status taskData;
     Task.created_at := Task.created_at taskData;
     Task.updated_at := Task.updated_at taskData;
     Task.offline_created := Task.offline_created taskData |}.

(** The calendar date [calculateNotificationTime] and the timing table. *)
Definition calculateNotificationTime (dueDate dueTime : Z) (notificationTime : string) : Js.num :=
  let dueDateTime := parseDateTime dueDate dueTime in
  let delay := Js.or (Js.get Notifications.timingMap notificationTime)
                     (Js.get Notifications.timingMap "10min") in
  Js.minus dueDateTime delay.

Section Handlers.
(** The store may refuse a statement (a constraint, the network); the
    statement then has no effect and the call reports an error.
    [gen_random_uuid k] is the id the store assigns to the [k]-th row of a
    bulk insert.  [tz] is the time zone of the server process. *)
Context {tz : TimeZone}.
Variable refuses : Write -> bool.
Variable gen_random_uuid : nat -> string.

Definition exec (w : Write) (t : Tables) : option Tables :=
  if refuses w then None else Some (apply w t).

(** The server's own [generateRecurringInstances]: the rows it inserts. *)
Definition instanceRows (parentId : string) (recurrence : Recurrence) (taskData : Task.t)
    : list Task.t :=
  let baseDate := parseISODate (Task.due_date taskData) in
  let instanceCount :=
    if decide (recurrence = daily) then 30%nat
    else if decide (recurrence = weekly) then 52%nat else 12%nat in
  (fun i : nat =>
     serverInstance (gen_random_uuid i) parentId taskData
       (toISODate (RecurringTasks.advance recurrence baseDate (Z.of_nat i))))
  <$> seq 1 instanceCount.

Definition generateRecurringInstances (parentId : string) (recurrence : Recurrence)
    (taskData : Task.t) (t : Tables) : option Tables :=
  let instances := instanceRows parentId recurrence taskData in
  if bool_decide (instances = []) then Some t else exec (InsertTasks instances) t.

(** A handler returns normally with the new results and tables, or throws. *)
Definition handleTaskCreate (data : Task.t) (userId : string) (t : Tables) : option Tables :=
  let taskData := taskCreateData data userId in
  match exec (InsertTask taskData) t with
  | None => None
  | Some t1 =>
      if bool_decide (Task.recurrence data ≠ none) && Task.is_recurring_parent data then
        match generateRecurringInstances (Task.id data) (Task.recurrence data) taskData t1 with
        | Some t2 => Some t2
        | None => Some t1
        end
      else Some t1
  end.

(** [select('updated_at').eq('id', data.id).eq('user_id', userId).single()] *)
Definition existingTask (id userId : string) (t : Tables) : option Z :=
  match tasks t !! id with
  | Some row => if decide (Task.user_id row = userId) then Some (Task.updated_at row) else None
  | None => None
  end.

Definition handleTaskUpdate (data : Task.t) (userId : string) (clientTimestamp now : Z)
    (results : Results) (t : Tables) : option (Results * Tables) :=
  let conflict :=
    match existingTask (Task.id data) userId t with
    | Some serverTimestamp =>
        if serverTimestamp >? clientTimestamp
        then Some (mkConflict (Task.id data) task "Server version is newer"
                     serverTimestamp clientTimestamp)
        else None
    | None => None
    end in
  match conflict with
  | Some c => Some (addConflict c results, t)
  | None =>
      match exec (UpdateTask (Task.id data) userId (taskUpdates data now)) t with
      | Some t' => Some (results, t')
      | None => None
      end
  end.

Definition handleTaskDelete (taskId userId : string) (t : Tables) : option Tables :=
  exec (DeleteTask taskId userId) t.

Definition handleTaskListCreate (data : TaskList.t) (userId : string) (t : Tables)
    : option Tables :=
  exec (InsertList (TaskList.mk (TaskList.id data) (TaskList.name data) userId synced
                      (TaskList.created_at data) (TaskList.updated_at data)
                      (TaskList.offline_created data))) t.

Definition existingList (id userId : string) (t : Tables) : option Z :=
  match task_lists t !! id with
  | Some row =>
      if decide (TaskList.user_id row = userId) then Some (TaskList.updated_at row) else None
  | None => None
  end.

Definition handleTaskListUpdate (data : TaskList.t) (userId : string) (clientTimestamp now : Z)
    (results : Results) (t : Tables) : option (Results * Tables) :=
  let conflict :=
    match existingList (TaskList.id data) userId t with
    | Some serverTimestamp =>
        if serverTimestamp >? clientTimestamp
        then Some (mkConflict (TaskList.id data) task_list "Server version is newer"
                     serverTimestamp clientTimestamp)
        else None
    | None => None
    end in
  match conflict with
  | Some c => Some (addConflict c results, t)
  | None =>
      match exec (UpdateList (TaskList.id data) userId (listUpdates data now)) t with
      | Some t' => Some (results, t')
      | None => None
      end
  end.

Definition handleTaskListDelete (listId userId : string) (t : Tables) : option Tables :=
  exec (DeleteList listId userId) t.

(** [processSyncChange]: dispatch on the entity type and the action.  A
    payload of the other entity's shape is refused by the store. *)
Definition processSyncChange (change : Change) (userId : string) (now : Z)
    (results : Results) (t : Tables) : option (Results * Tables) :=
  match change_type change, change_data change with
  | task, TaskData data =>
      match change_action change with
      | create => (fun t' => (results, t')) <$> handleTaskCreate data userId t
      | update => handleTaskUpdate data userId (change_clientTimestamp change) now results t
      | delete => (fun t' => (results, t')) <$> handleTaskDelete (Task.id data) userId t
      end
  | task_list, ListData data =>
      match change_action change with
      | create => (fun t' => (results, t')) <$> handleTaskListCreate data userId t
      | update => handleTaskListUpdate data userId (change_clientTimestamp change) now results t
      | delete => (fun t' => (results, t')) <$> handleTaskListDelete (TaskList.id data) userId t
      end
  | _, _ => None
  end.

(** The loop of [POST /api/sync]: a change that throws is recorded in
    [errors], any other is counted in [processed]. *)
Definition syncStep (userId : string) (now : Z) (st : Results * Tables) (change : Change)
    : Results * Tables :=
  match processSyncChange change userId now st.1 st.2 with
  | Some (r, t) => (mkResults (processed r + 1) (errors r) (conflicts r), t)
  | None => (mkResults (processed st.1) (errors st.1 ++ [change]) (conflicts st.1), st.2)
  end.

Definition sync (userId : string) (now : Z) (changes : list Change) (t : Tables)
    : Results * Tables :=
  foldl (syncStep userId now) (mkResults 0 [] [], t) changes.

(** [DELETE /api/tasks/:id]: the status code and the tables afterwards. *)
Definition deleteTaskEndpoint (id userId : string) (t : Tables) : Z * Tables :=
  let taskToDelete :=
    match tasks t !! id with
    | Some row => if decide (Task.user_id row = userId) then Some row else None
    | None => None
    end in
  match taskToDelete with
  | None => (404, t)
  | Some row =>
      if Task.is_recurring_parent row then
        match exec (DeleteSeries id userId) t with
        | Some t' => (204, t')
        | None => (500, t)
        end
      else
        match exec (DeleteTask id userId) t with
        | Some t' => (204, t')
        | None => (500, t)
        end
  end.

End Handlers.

End Server.

(** ** The database functions (PL/pgSQL migrations) *)

Module Pg.
Import JsDate.

(** [date + interval 'n months']: the day of the month is kept, or clamped
    to the last day of the target month.  Dates are day numbers. *)
Definition add_months (d n : Z) : Z :=
  let y := YearFromDay d in
  let m := MonthFromDay d in
  MakeDay y (m + n) (Z.min (DateFromDay d) (DaysInMonth y (m + n))).

(** [CURRENT_DATE + interval '1 year'] *)
Definition one_year_after (current_date : Z) : Z := add_months current_date 12.

(** [instances_count integer DEFAULT 52] *)
Definition instances_count_default : nat := 52.

(** The [CASE notification_time ... ELSE interval '10 minutes'] of
    [calculate_notification_time], in milliseconds. *)
Definition notification_interval (notification_time : string) : Z :=
  if bool_decide (notification_time = "3min"%string) then 3 * 60 * 1000
  else if bool_decide (notification_time = "5min"%string) then 5 * 60 * 1000
  else if bool_decide (notification_time = "10min"%string) then 10 * 60 * 1000
  else if bool_decide (notification_time = "15min"%string) then 15 * 60 * 1000
  else if bool_decide (notification_time = "20min"%string) then 20 * 60 * 1000
  else if bool_decide (notification_time = "25min"%string) then 25 * 60 * 1000
  else if bool_decide (notification_time = "30min"%string) then 30 * 60 * 1000
  else if bool_decide (notification_time = "45min"%string) then 45 * 60 * 1000
  else if bool_decide (notification_time = "50min"%string) then 50 * 60 * 1000
  else if bool_decide (notification_time = "1hour"%string) then 60 * 60 * 1000
  else if bool_decide (notification_time = "2hours"%string) then 2 * 60 * 60 * 1000
  else if bool_decide (notification_time = "1day"%string) then 24 * 60 * 60 * 1000
  else 10 * 60 * 1000.

Definition calculate_notification_time (due_date due_time : Z) (notification_time : string) : Z :=
  parseDateTime due_date due_time - notification_interval notification_time.

Section Functions.
(** The [CREATE TABLE tasks] statement is not part of the migrations at
    hand, so the values its column defaults give to the columns an [INSERT]
    does not list ([id], [completed], [sync_status], [created_at],
    [updated_at]) are a parameter: [column_defaults k] is the row of
    defaults of the insert numbered [k]. *)
Variable column_defaults : nat -> Task.t.
Variable current_date : Z.

(** The [CASE recurrence_pattern] of [generate_recurring_tasks]; [None] is
    the [ELSE EXIT]. *)
Definition new_due_date (parent_due : Z) (recurrence_pattern : Recurrence) (i : Z) : option Z :=
  match recurrence_pattern with
  | daily => Some (parent_due + i)
  | weekly => Some (parent_due + 7 * i)
  | monthly => Some (add_months parent_due i)
  | none => None
  end.

(** The row of [INSERT INTO tasks (title, ..., is_recurring_parent)
    VALUES (src.title, ..., 'none', parent_id, false)]. *)
Definition inserted_row (k : nat) (src : Task.t) (parent_id : string) (due : Z) : Task.t :=
  {| Task.id := Task.id (column_defaults k);
     Task.title := Task.title src;
     Task.description := Task.description src;
     Task.due_date := due;
     Task.due_time := Task.due_time src;
     Task.priority := Task.priority src;
     Task.completed := Task.completed (column_defaults k);
     Task.user_id := Task.user_id src;
     Task.list_id := Task.list_id src;
     Task.email_reminder := Task.email_reminder src;
     Task.push_notification := Task.push_notification src;
     Task.notification_time := Task.notification_time src;
     Task.recurrence := none;
     Task.recurrence_id := Some parent_id;
     Task.is_recurring_parent := false;
     Task.sync_status := Task.sync_status (column_defaults k);
     Task.created_at := Task.created_at (column_defaults k);
     Task.updated_at := Task.updated_at (column_defaults k);
     Task.offline_created := Task.offline_created (column_defaults k) |}.

(** [FOR i IN 1..instances_count LOOP], from iteration [i] on. *)
Fixpoint rows_from (parent_task : Task.t) (parent_task_id : string)
    (recurrence_pattern : Recurrence) (i remaining : nat) : list Task.t :=
  match remaining with
  | O => []
  | S k =>
      match new_due_date (Task.due_date parent_task) recurrence_pattern (Z.of_nat i) with
      | None => []
      | Some due =>
          if due >? one_year_after current_date then []
          else inserted_row i parent_task parent_task_id due
               :: rows_from parent_task parent_task_id recurrence_pattern (S i) k
      end
  end.

(** [generate_recurring_tasks]: the rows it inserts, or [None] when it
    raises ['Parent task not found']. *)
Definition generate_recurring_tasks (parent_task_id : string) (recurrence_pattern : Recurrence)
    (instances_count : nat) (tasks : gmap string Task.t) : option (list Task.t) :=
  match tasks !! parent_task_id with
  | None => None
  | Some parent_task =>
      Some (rows_from parent_task parent_task_id recurrence_pattern 1 instances_count)
  end.

(** The [CASE NEW.recurrence] of the completion trigger. *)
Definition next_due_date (due : Z) (recurrence : Recurrence) : option Z :=
  match recurrence with
  | daily => Some (due + 1)
  | weekly => Some (due + 7)
  | monthly => Some (add_months due 1)
  | none => None
  end.

(** [COALESCE(NEW.recurrence_id, NEW.id)] *)
Definition series_of (x : Task.t) : string :=
  match Task.recurrence_id x with Some p => p | None => Task.id x end.

(** The [WHERE] clause of the existence check. *)
Definition occupies (parent_id : string) (due : Z) (x : Task.t) : bool :=
  bool_decide (Task.recurrence_id x = Some parent_id)
  && bool_decide (Task.due_date x = due)
  && bool_decide (Task.completed x = Some false).

(** [handle_recurring_task_completion], the [AFTER UPDATE] trigger: the
    row it inserts, if any. *)
Definition handle_recurring_task_completion (k : nat) (OLD NEW : Task.t)
    (tasks : gmap string Task.t) : option Task.t :=
  if bool_decide (Task.completed NEW = Some true)
     && bool_decide (Task.completed OLD = Some false)
     && bool_decide (Task.recurrence NEW ≠ none) then
    match next_due_date (Task.due_date NEW) (Task.recurrence NEW) with
    | None => None
    | Some due =>
        let existing_next_task_count :=
          length (List.filter (occupies (series_of NEW) due) (IndexedDB.getAll tasks)) in
        if bool_decide (existing_next_task_count = 0%nat)
           && (due <=? one_year_after current_date)
        then Some (inserted_row k NEW (series_of NEW) due)
        else None
    end
  else None.

End Functions.

End Pg.

(** ** The periodic scan for due reminders (PL/pgSQL) *)

Module PgScan.

(** [t BETWEEN NOW() - interval '1 minute' AND NOW() + interval '1 minute'] *)
Definition in_window (t now : Z) : bool :=
  (now - 60 * 1000 <=? t) && (t <=? now + 60 * 1000).

(** The [WHERE] clause shared by the two scans, [flag] being the channel's
    column ([push_notification] or [email_reminder]).  A row whose
    [completed] is [NULL] does not satisfy [completed = false]. *)
Definition due (flag : Task.t -> bool) (now : Z) (x : Task.t) : bool :=
  bool_decide (Task.completed x = Some false)
  && flag x
  && in_window (Pg.calculate_notification_time (Task.due_date x) (Task.due_time x)
                  (Task.notification_time x)) now.

(** [FROM tasks t JOIN auth.users u ON t.user_id = u.id]: the row and
    [u.email]; [users] maps a user id to the e-mail address. *)
Definition joined (users : gmap string string) (x : Task.t) : option (Task.t * string) :=
  (fun email => (x, email)) <$> users !! Task.user_id x.

Definition scan (flag : Task.t -> bool) (users : gmap string string) (now : Z)
    (tasks : gmap string Task.t) : list (Task.t * string) :=
  omap (joined users) (List.filter (due flag now) (IndexedDB.getAll tasks)).

Definition get_tasks_due_for_notifications := scan Task.push_notification.
Definition get_tasks_due_for_email_notifications := scan Task.email_reminder.

End PgScan.

(** ** The API layer of the client ([useTaskAPI]) *)

Module TaskAPI.

(** [s || null] for an optional string member. *)
Definition or_null (o : option string) : option string :=
  match o with
  | Some s => if bool_decide (s = EmptyString) then None else Some s
  | None => None
  end.

(** The record [saveTaskOffline] builds.  [taskData] is a task as the
    store holds it, which is what [deleteTask] and [updateTask] pass: the
    members [due_date], [due_time], [priority], [recurrence] and
    [created_at] are present (and, being non-empty, kept by their [||]), and
    an empty [id] counts as absent.  [uuid] is the identifier drawn for a
    task without id, [now] the reading of the clock. *)
Definition offlineTask (userId uuid : string) (now : Z) (taskData : Task.t) (action : Action)
    : Task.t :=
  {| Task.id := Js.or_str (Task.id taskData) uuid;
     Task.title := Task.title taskData;
     Task.description := or_null (Task.description taskData);
     Task.due_date := Task.due_date taskData;
     Task.due_time := Task.due_time taskData;
     Task.priority := Task.priority taskData;
     Task.completed := Some (Js.truthy_bool (Task.completed taskData));
     Task.user_id := userId;
     Task.list_id := or_null (Task.list_id taskData);
     Task.email_reminder := Task.email_reminder taskData;
     Task.push_notification := Task.push_notification taskData;
     Task.notification_time := Js.or_str (Task.notification_time taskData) "10min";
     Task.recurrence := Task.recurrence taskData;
     Task.recurrence_id := or_null (Task.recurrence_id taskData);
     Task.is_recurring_parent := Task.is_recurring_parent taskData;
     Task.sync_status := if decide (action = delete) then deleted else pending;
     Task.created_at := Task.created_at taskData;
     Task.updated_at := now;
     Task.offline_created := Some (bool_decide (Task.id taskData = EmptyString)) |}.

(** [saveTaskOffline]: the record it returns and the store afterwards, or
    [None] when it throws ['User not authenticated'].  [now'] is the clock
    reading of [addToSyncQueue]. *)
Definition saveTaskOffline (user : option string) (uuid queueId : string) (now now' : Z)
    (taskData : Task.t) (action : Action) (d : IndexedDB.DB) : option (Task.t * IndexedDB.DB) :=
  match user with
  | None => None
  | Some userId =>
      let x := offlineTask userId uuid now taskData action in
      Some (x, IndexedDB.addToSyncQueue task action (TaskData x) queueId now'
                 (IndexedDB.saveTask x d))
  end.

(** The loop of [deleteTask] over the instances of a recurring parent. *)
Definition removeInstances (userId id : string) (d : IndexedDB.DB) : IndexedDB.DB :=
  foldl (fun d' y => IndexedDB.deleteTask (Task.id y) d') d
    (List.filter (fun y => bool_decide (Task.recurrence_id y = Some id))
       (IndexedDB.getTasks userId d)).

(** [deleteTask]: the store afterwards, or [None] when it throws.
    [online] is [navigator.onLine]; [response] tells whether the
    [DELETE /api/tasks/:id] request went through with an ok status (it did
    not when there is no session, the request fails or the status is not
    ok). *)
Definition deleteTask (user : option string) (online response : bool) (uuid queueId : string)
    (now now' : Z) (id : string) (d : IndexedDB.DB) : option IndexedDB.DB :=
  match IndexedDB.getTask id d with
  | None => None
  | Some taskToDelete =>
      let offline := snd <$> saveTaskOffline user uuid queueId now now' taskToDelete delete d in
      if negb online then offline
      else
        match user with
        | Some userId =>
            if response then
              let d1 := IndexedDB.deleteTask id d in
              Some (if Task.is_recurring_parent taskToDelete
                    then removeInstances userId id d1 else d1)
            else offline
        | None => offline
        end
  end.

(** The change [syncOfflineChanges] posts for a queue entry. *)
Definition changeOf (item : SyncQueueItem.t) : Server.Change :=
  Server.mkChange (SyncQueueItem.type item) (SyncQueueItem.action item)
    (SyncQueueItem.data item) (SyncQueueItem.timestamp item).

(** [for (let i = 0; i < result.processed; i++)
       if (syncQueue[i]) removeSyncQueueItem(syncQueue[i].id)] *)
Definition removeProcessed (processed : Z) (syncQueue : list SyncQueueItem.t)
    (d : IndexedDB.DB) : IndexedDB.DB :=
  foldl (fun d' item => IndexedDB.removeSyncQueueItem (SyncQueueItem.id item) d') d
    (take (Z.to_nat processed) syncQueue).

(** [{ ...task, sync_status: 'synced', offline_created: false }] *)
Definition asFetched (x : Task.t) : Task.t :=
  {| Task.id := Task.id x;
     Task.title := Task.title x;
     Task.description := Task.description x;
     Task.due_date := Task.due_date x;
     Task.due_time := Task.due_time x;
     Task.priority := Task.priority x;
     Task.completed := Task.completed x;
     Task.user_id := Task.user_id x;
     Task.list_id := Task.list_id x;
     Task.email_reminder := Task.email_reminder x;
     Task.push_notification := Task.push_notification x;
     Task.notification_time := Task.notification_time x;
     Task.recurrence := Task.recurrence x;
     Task.recurrence_id := Task.recurrence_id x;
     Task.is_recurring_parent := Task.is_recurring_parent x;
     Task.sync_status := synced;
     Task.created_at := Task.created_at x;
     Task.updated_at := Task.updated_at x;
     Task.offline_created := Some false |}.

(** [fetchTasks] while online, as far as the store goes: the rows
    [GET /api/tasks] returned are cached; a failed request is caught and
    changes nothing. *)
Definition cacheFetched (fetched : option (list Task.t)) (d : IndexedDB.DB) : IndexedDB.DB :=
  match fetched with
  | Some ts => IndexedDB.saveTasks (asFetched <$> ts) d
  | None => d
  end.

(** [syncOfflineChanges]: the result it returns and the store afterwards,
    or [None] when it throws.  [post changes] is the answer of
    [POST /api/sync] ([None] when there is no session, the request fails or
    the status is not ok), [fetched] that of the [GET /api/tasks] that
    follows a conflict. *)
Definition syncOfflineChanges (user : option string) (online : bool)
    (post : list Server.Change -> option Server.Results) (fetched : option (list Task.t))
    (d : IndexedDB.DB) : option (Server.Results * IndexedDB.DB) :=
  if negb online || negb (bool_decide (is_Some user)) then Some (Server.mkResults 0 [] [], d)
  else
    let syncQueue := IndexedDB.getSyncQueue d in
    if bool_decide (syncQueue = []) then Some (Server.mkResults 0 [] [], d)
    else
      match post (changeOf <$> syncQueue) with
      | None => None
      | Some result =>
          let d1 := removeProcessed (Server.processed result) syncQueue d in
          Some (result,
                if bool_decide (Server.conflicts result = []) then d1
                else cacheFetched fetched d1)
      end.

End TaskAPI.

(** ** Notification actions ([useNotifications], the message handlers) *)

Module NotificationActions.
Import Notifications.

(** [handleTaskSnooze]: what the hook acts on afterwards, and the titles of
    the confirmations it shows.  [fetched] is the answer of the query for
    the task: [None] when awaiting it throws, [Some None] when there is no
    such row.  [now] is the clock reading of the handler itself, [now'] and
    [now''] those of [scheduleTaskNotification] and of
    [scheduleLocalNotification]. *)
Definition handleTaskSnooze (r : Render) (taskId : string) (minutes : Z)
    (fetched : option (option Task.t)) (uuid : string) (now now' now'' : Z) (e : Effects)
    : Effects * list string :=
  let e0 := log "Snoozing task" e in
  let e1 := cancelTaskNotifications r taskId e0 in
  let snoozeTime := now + minutes * 60 * 1000 in
  match fetched with
  | None => (log "Error snoozing task" e1, [])
  | Some found =>
      let e2 := match found with
                | Some x => scheduleTaskNotification r x (Some snoozeTime) uuid now' now'' e1
                | None => e1
                end in
      (e2, if decide (permission r = perm_granted) then ["⏰ Task Snoozed"%string] else [])
  end.

(** The loop of [syncNotifications]: [uuid k], [clock k] and [clock' k] are
    the id drawn and the clock readings of the call for the [k]-th task. *)
Fixpoint scheduleEach (r : Render) (uuid : nat -> string) (clock clock' : nat -> Z) (k : nat)
    (tasks : list Task.t) (e : Effects) : Effects :=
  match tasks with
  | [] => e
  | x :: rest =>
      scheduleEach r uuid clock clock' (S k) rest
        (scheduleTaskNotification r x None (uuid k) (clock k) (clock' k) e)
  end.

(** [syncNotifications].  [fetched] is the answer of the query for the
    user's uncompleted tasks with push notifications: [None] when it reports
    an error; an answer without rows and a null answer are both [Some []]. *)
Definition syncNotifications (user : option string) (online : bool) (r : Render)
    (fetched : option (list Task.t)) (uuid : nat -> string) (clock clock' : nat -> Z)
    (e : Effects) : Effects :=
  if negb online then e
  else match user with
       | None => e
       | Some _ =>
           match fetched with
           | None => log "Error syncing notifications" e
           | Some tasks =>
               log "Notifications synced with server"
                 (scheduleEach r uuid clock clock' 0 tasks (saveScheduledNotifications [] e))
           end
       end.

End NotificationActions.

(** ** The e-mail endpoint of the server ([POST /api/sync-emails]) *)

Module SyncEmails.

Record Results := mkResults {
  processed : Z;
  errors : list (EmailNotifications.EmailNotification * string);
  sent : Z
}.

(** What [sendEmailNotification] writes: the recipient and the task. *)
Record Mail := mkMail {
  to : string;
  mailTask : Task.t
}.

(** [select('*').eq('id', emailNotification.taskId).eq('user_id', req.user.id).single()] *)
Definition selectTask (taskId userId : string) (t : Server.Tables) : option Task.t :=
  match Server.tasks t !! taskId with
  | Some row => if decide (Task.user_id row = userId) then Some row else None
  | None => None
  end.

(** [Math.abs(notificationTime.getTime() - now.getTime()) <= 5 * 60 * 1000] *)
Definition withinFiveMinutes (notificationTime : Js.num) (now : Z) : bool :=
  match notificationTime with
  | Js.Num s => Z.abs (s - now) <=? 5 * 60 * 1000
  | Js.NaN => false
  end.

(** One turn of the loop; [now] is its reading of the clock. *)
Definition step (userId userEmail : string) (t : Server.Tables) (now : Z)
    (emailNotification : EmailNotifications.EmailNotification) (st : Results * list Mail)
    : Results * list Mail :=
  let '(results, outbox) := st in
  match selectTask (EmailNotifications.taskId emailNotification) userId t with
  | None =>
      (mkResults (processed results)
         (errors results ++ [(emailNotification, "Task not found or access denied"%string)])
         (sent results), outbox)
  | Some row =>
      if negb (Js.truthy_bool (Task.completed row)) && Task.email_reminder row
      then
        let notificationTime :=
          Server.calculateNotificationTime (Task.due_date row) (Task.due_time row)
            (Task.notification_time row) in
        if withinFiveMinutes notificationTime now
        then (mkResults (processed results + 1) (errors results) (sent results + 1),
              outbox ++ [mkMail userEmail row])
        else (mkResults (processed results + 1) (errors results) (sent results), outbox)
      else (mkResults (processed results + 1) (errors results) (sent results), outbox)
  end.

Fixpoint loop (userId userEmail : string) (t : Server.Tables) (clock : nat -> Z) (k : nat)
    (emailQueue : list EmailNotifications.EmailNotification) (st : Results * list Mail)
    : Results * list Mail :=
  match emailQueue with
  | [] => st
  | emailNotification :: rest =>
      loop userId userEmail t clock (S k) rest
        (step userId userEmail t (clock k) emailNotification st)
  end.

(** The handler: the results it answers with and the mails it wrote.
    [clock k] is the clock reading of the [k]-th turn. *)
Definition syncEmails (userId userEmail : string) (t : Server.Tables) (clock : nat -> Z)
    (emailQueue : list EmailNotifications.EmailNotification) : Results * list Mail :=
  loop userId userEmail t clock 0 emailQueue (mkResults 0 [] 0, []).

End SyncEmails.

(** ** The notification timers of the service worker *)

Module ServiceWorker.

(** The payload of a notification message; [queuedAt] is set when the
    notification is put on the queue. *)
Record NotificationData := mkData {
  id : string;
  taskId : string;
  scheduledTime : Js.num;
  title : string;
  body : string;
  data : string;
  queuedAt : option Z
}.

Global Instance num_eq_dec : EqDecision Js.num.
Proof. solve_decision. Defined.
Global Instance NotificationData_eq_dec : EqDecision NotificationData.
Proof. solve_decision. Defined.

(** The worker's globals and what it acts on: the map from task ids to
    timeout handles, the queue, the pending [setTimeout] callbacks by handle
    (the instant each runs at and its notification), the last handle issued,
    the notifications passed to [showNotification], and the queue last
    posted by [storeData].  Handles are positive and never reused.  Each
    function below runs without another message or callback in between. *)
Record State := mkState {
  scheduledNotifications : gmap string nat;
  notificationQueue : list NotificationData;
  timeouts : gmap nat (Z * NotificationData);
  lastTimeout : nat;
  shown : list NotificationData;
  storedQueue : option (list NotificationData)
}.

Definition showScheduledNotification (n : NotificationData) (s : State) : State :=
  mkState (scheduledNotifications s) (notificationQueue s) (timeouts s) (lastTimeout s)
    (shown s ++ [n]) (storedQueue s).

(** [setTimeout(callback, delay)] and [scheduledNotifications.set(taskId, timeoutId)] *)
Definition arm (fireAt : Z) (n : NotificationData) (s : State) : State :=
  let timeoutId := S (lastTimeout s) in
  mkState (<[taskId n := timeoutId]> (scheduledNotifications s)) (notificationQueue s)
    (<[timeoutId := (fireAt, n)]> (timeouts s)) timeoutId (shown s) (storedQueue s).

(** [scheduleNotification]; [now] is its reading of [Date.now()].  A [NaN]
    delay is not [<= 0], and [setTimeout] treats it as zero. *)
Definition scheduleNotification (now : Z) (n : NotificationData) (s : State) : State :=
  match scheduledTime n with
  | Js.Num t => if t - now <=? 0 then showScheduledNotification n s else arm t n s
  | Js.NaN => arm now n s
  end.

(** The callback of a timeout, when it runs. *)
Definition runTimeout (timeoutId : nat) (s : State) : State :=
  match timeouts s !! timeoutId with
  | Some (_, n) =>
      let s1 := mkState (scheduledNotifications s) (notificationQueue s)
                  (base.delete timeoutId (timeouts s)) (lastTimeout s) (shown s)
                  (storedQueue s) in
      let s2 := showScheduledNotification n s1 in
      mkState (base.delete (taskId n) (scheduledNotifications s2)) (notificationQueue s2)
        (timeouts s2) (lastTimeout s2) (shown s2) (storedQueue s2)
  | None => s
  end.

Definition storeQueue (q : list NotificationData) (s : State) : State :=
  mkState (scheduledNotifications s) q (timeouts s) (lastTimeout s) (shown s) (Some q).

Definition queueNotification (now : Z) (n : NotificationData) (s : State) : State :=
  storeQueue
    (notificationQueue s
     ++ [mkData (id n) (taskId n) (scheduledTime n) (title n) (body n) (data n) (Some now)]) s.

(** The loop of [processNotificationQueue]: [clock k] is the reading of the
    clock by [scheduleNotification] for the [k]-th entry. *)
Fixpoint processEach (now : Z) (clock : nat -> Z) (k : nat) (queue : list NotificationData)
    (st : State * list NotificationData) : State * list NotificationData :=
  match queue with
  | [] => st
  | n :: rest =>
      processEach now clock (S k) rest
        (if Js.le (scheduledTime n) (Js.Num now)
         then showScheduledNotification n st.1
         else scheduleNotification (clock k) n st.1,
         st.2 ++ [n])
  end.

Definition processNotificationQueue (now : Z) (clock : nat -> Z) (s : State) : State :=
  match notificationQueue s with
  | [] => s
  | _ =>
      let '(s1, processedNotifications) :=
        processEach now clock 0 (notificationQueue s) (s, []) in
      storeQueue
        (List.filter (fun n => negb (bool_decide (n ∈ processedNotifications)))
           (notificationQueue s1)) s1
  end.

(** [cancelNotification]: a handle is cleared only when the map has one
    for the task. *)
Definition cancelNotification (task : string) (s : State) : State :=
  let s1 :=
    match scheduledNotifications s !! task with
    | Some (S _ as timeoutId) =>
        mkState (base.delete task (scheduledNotifications s)) (notificationQueue s)
          (base.delete timeoutId (timeouts s)) (lastTimeout s) (shown s) (storedQueue s)
    | _ => s
    end in
  storeQueue
    (List.filter (fun n => negb (bool_decide (taskId n = task))) (notificationQueue s1)) s1.

End ServiceWorker.

(** ** Notions the properties are stated with *)

Import JsDate.

(** The notification [scheduleTaskNotification] builds for a fire time. *)
Definition reminderFor (x : Task.t) (uuid : string) (fire : Z) : ScheduledNotification.t :=
  ScheduledNotification.mk uuid (Task.id x) "🔔 Task Due Soon!"
    (Task.title x,
     Notifications.getTimingLabel (Js.or_str (Task.notification_time x) "10min"))
    (Js.Num fire) (Js.or_str (Task.notification_time x) "10min") x NotifStatus.pending.

(** What "the series of parent [P] is gone" means for a set of rows. *)
Definition seriesGone (P : string) (rows : gmap string Task.t) : Prop :=
  map_Forall (fun _ x => Task.id x ≠ P ∧ Task.recurrence_id x ≠ Some P) rows.

(** A relation holds between every two neighbours of a list. *)
Definition consecutive {A} (rel : A -> A -> Prop) (l : list A) : Prop :=
  ∀ k a b, l !! k = Some a -> l !! S k = Some b -> rel a b.

(** A host whose local time is [c] milliseconds ahead of UTC at every
    instant: a zone without daylight saving. *)
Definition fixedOffset (tz : TimeZone) (c : Z) : Prop :=
  ∀ t isUTC, @LocalTZA tz t isUTC = c.

(** The date [b] is the same day of the month as the date [a], one month
    later. *)
Definition sameDayNextMonth (a b : Z) : Prop :=
  YearFromDay b = YearFromDay a + (MonthFromDay a + 1) / 12
  ∧ MonthFromDay b = (MonthFromDay a + 1) mod 12
  ∧ DateFromDay b = DateFromDay a.

(** The date [b] is one rule-step after the date [a]: 1 day, 7 days, or 1
    calendar month. *)
Definition ruleStep (r : Recurrence) (a b : Z) : Prop :=
  match r with
  | daily => b = a + 1
  | weekly => b = a + 7
  | monthly => sameDayNextMonth a b
  | none => b = a
  end.

(** The date [i] rule-steps after the date [D], counted from [D]: [i]
    days, [7 i] days, or the same day of the month [i] months on, which
    runs over into the month after when that month is shorter. *)
Definition dueAfter (r : Recurrence) (D i : Z) : Z :=
  match r with
  | daily => D + i
  | weekly => D + i * 7
  | monthly => MakeDay (YearFromDay D) (MonthFromDay D + i) (DateFromDay D)
  | none => D
  end.

(** The same for the database function. *)
Definition pgDueAfter (r : Recurrence) (D i : Z) : Z :=
  match r with
  | daily => D + i
  | weekly => D + 7 * i
  | monthly => Pg.add_months D i
  | none => D
  end.

(** The reminder, list and priority members are the parent's, and the
    series members are forced. *)
Definition inheritsFrom (parentId : string) (parentTask x : Task.t) : Prop :=
  Task.title x = Task.title parentTask
  ∧ Task.description x = Task.description parentTask
  ∧ Task.due_time x = Task.due_time parentTask
  ∧ Task.priority x = Task.priority parentTask
  ∧ Task.list_id x = Task.list_id parentTask
  ∧ Task.email_reminder x = Task.email_reminder parentTask
  ∧ Task.push_notification x = Task.push_notification parentTask
  ∧ Task.notification_time x = Task.notification_time parentTask
  ∧ Task.recurrence x = none
  ∧ Task.recurrence_id x = Some parentId
  ∧ Task.is_recurring_parent x = false.

(** The members C4 does not list are those of the parent. *)
Definition otherMembersKept (parentTask x : Task.t) : Prop :=
  Task.completed x = Task.completed parentTask
  ∧ Task.user_id x = Task.user_id parentTask
  ∧ Task.sync_status x = Task.sync_status parentTask
  ∧ Task.created_at x = Task.created_at parentTask
  ∧ Task.updated_at x = Task.updated_at parentTask
  ∧ Task.offline_created x = Task.offline_created parentTask.

(** A task the store did not hold is in it afterwards. *)
Definition createsInstance (before after : gmap string Task.t) : Prop :=
  ∃ y, before !! Task.id y = None ∧ after !! Task.id y = Some y.

(** The results of two stretches of a batch, added up. *)
Definition mergeResults (a b : Server.Results) : Server.Results :=
  Server.mkResults (Server.processed a + Server.processed b)
    (Server.errors a ++ Server.errors b) (Server.conflicts a ++ Server.conflicts b).

(** [{ processed: 0, errors: [], conflicts: [] }] *)
Definition noResults : Server.Results := Server.mkResults 0 [] [].

(** The fire time of the reminder of a task that has one. *)
Definition fireTime (x : Task.t) : Z :=
  match Notifications.reminderTime x None with
  | Js.Num fire => fire
  | Js.NaN => 0
  end.

(** What makes [POST /api/sync-emails] send the mail of a row at [now]. *)
Definition mailDue (row : Task.t) (now : Z) : Prop :=
  Js.truthy_bool (Task.completed row) = false
  ∧ Task.email_reminder row = true
  ∧ ∃ fire, Server.calculateNotificationTime (Task.due_date row) (Task.due_time row)
              (Task.notification_time row) = Js.Num fire
            ∧ now - 5 * 60 * 1000 <= fire <= now + 5 * 60 * 1000.

(** Every pending timeout of the worker carries a handle issued before. *)
Definition handlesIssued (s : ServiceWorker.State) : Prop :=
  map_Forall (fun timeoutId _ => (timeoutId <= ServiceWorker.lastTimeout s)%nat)
    (ServiceWorker.timeouts s).

(** A notification that was shown or has a pending timeout. *)
Definition shownOrArmed (n : ServiceWorker.NotificationData) (s : ServiceWorker.State) : Prop :=
  n ∈ ServiceWorker.shown s
  ∨ ∃ timeoutId fireAt, ServiceWorker.timeouts s !! timeoutId = Some (fireAt, n).

(** ** Scenarios

    Concrete tasks, stores and runs, most of them taken from the
    scenarios of the specification.  Clock times [at_ h m] are on
    2024-06-03. *)

Definition at_ (h m : Z) : Z := parseDateTime (isoDate 2024 6 3) (h * 60 + m).

Definition task_constructor_lead : Task.t :=
  Task.mk "T" "Standup" None (isoDate 2024 6 3) 540 medium (Some false) "u" None false true
    "constructor" none None false synced 0 0 None.

(** The scenario of the specification: due 2024-06-03T09:00 with lead
    ["1hour"] gives the fire time 2024-06-03T08:00, and loading the task at
    08:30 schedules nothing. *)
Definition task_standup : Task.t :=
  Task.mk "T" "Standup" None (isoDate 2024 6 3) (9 * 60) medium (Some false) "u" None false true
    "1hour" none None false synced 0 0 None.

Definition render0 : Notifications.Render := Notifications.mkRender [] perm_granted.
Definition effects0 : Notifications.Effects := Notifications.mkEffects [] [] [] [].

(** A run of the notification hook.  At 08:00 a reminder is
    scheduled for a task due 09:00 with lead ["10min"]; at 08:10 the task
    is marked completed and its notification is updated. *)
Definition task_due9 : Task.t :=
  Task.mk "T" "Standup" None (isoDate 2024 6 3) (9 * 60) medium (Some false) "u" None false true
    "10min" none None false synced 0 0 None.

Definition scheduled_effects : Notifications.Effects :=
  Notifications.scheduleTaskNotification render0 task_due9 None "n1" (at_ 8 0) (at_ 8 0) effects0.

Definition updated_effects : Notifications.Effects :=
  Notifications.updateTaskNotification (Notifications.rerender render0 scheduled_effects)
    (RecurringTasks.markCompleted task_due9) "n2" (at_ 8 10) (at_ 8 10) scheduled_effects.

(** The conflict scenario of the specification: the server row was
    updated at 10:05, the client's update carries 10:00. *)
Definition client_copy : Task.t :=
  Task.mk "T" "Standup (edited)" None (isoDate 2024 6 3) (9 * 60) high (Some false) "u" None
    false true "10min" none None false pending 0 (at_ 10 0) None.

Definition server_row : Task.t :=
  Task.mk "T" "Standup" None (isoDate 2024 6 3) (9 * 60) medium (Some false) "u" None
    false true "10min" none None false synced 0 (at_ 10 5) None.

Definition server_tables : Server.Tables := Server.mkTables {[ "T"%string := server_row ]} ∅.

Definition accepts_all (w : Server.Write) : bool := false.
Definition no_uuid (k : nat) : string := EmptyString.

(** A series on the server and on the client: the parent [P], two
    instances, and a task that is not part of it. *)
Definition series_parent : Task.t :=
  Task.mk "P" "Standup" None (isoDate 2024 6 3) (9 * 60) medium (Some false) "u" None false true
    "10min" weekly None true synced 0 0 None.
Definition series_instance (id : string) (due : Z) : Task.t :=
  Task.mk id "Standup" None due (9 * 60) medium (Some false) "u" None false true
    "10min" none (Some "P"%string) false synced 0 0 None.
Definition other_task : Task.t :=
  Task.mk "O" "Dentist" None (isoDate 2024 6 4) (9 * 60) medium (Some false) "u" None false true
    "10min" none None false synced 0 0 None.

Definition series_rows : gmap string Task.t :=
  <["P"%string := series_parent]>
    (<["I1"%string := series_instance "I1" (isoDate 2024 6 10)]>
       (<["I2"%string := series_instance "I2" (isoDate 2024 6 17)]>
          {[ "O"%string := other_task ]})).

Definition series_tables : Server.Tables := Server.mkTables series_rows ∅.
Definition series_db : IndexedDB.DB := IndexedDB.mk series_rows ∅ ∅.
Definition queue_ids (k : nat) : string := String.append "q" (pretty k).

(** A remote store that keeps the ids it was sent, and throws on the
    payload ["poison"]. *)
Definition journal_call (p : string) (r : list string) : option (list string) :=
  if bool_decide (p = "poison"%string) then None else Some (r ++ [p]).

Global Instance journal_supabase : Supabase (list string) := {|
  sb_insert _ p r := Response.mk None <$> journal_call (payload_id p) r;
  sb_update _ p _ r := Response.mk None <$> journal_call (payload_id p) r;
  sb_delete _ id r := Response.mk None <$> journal_call id r;
  sb_select_tasks _ _ := Some [];
  sb_select_task_lists _ _ := Some []
|}.

Definition poison_task : Task.t :=
  Task.mk "poison" "Broken" None (isoDate 2024 6 3) (9 * 60) medium (Some false) "u" None
    false true "10min" none None false pending 0 0 (Some true).

Definition poison_state : @OfflineSync.State (list string) :=
  OfflineSync.mkState
    (IndexedDB.addToSyncQueue task create (TaskData poison_task) "q1" 0
       (IndexedDB.addToSyncQueue task create (TaskData other_task) "q0" 0 IndexedDB.empty))
    [] [].

Definition poison_item : SyncQueueItem.t :=
  SyncQueueItem.mk "q1" task create (TaskData poison_task) 0 0.

(** The scenario of the specification: a weekly parent due 2024-06-03,
    created on that day. *)
Definition weekly_parent : Task.t :=
  Task.mk "P" "Standup" None (isoDate 2024 6 3) (9 * 60) medium None "u" None false true
    "10min" weekly None true pending (at_ 8 0) (at_ 8 0) (Some true).

Definition instance_ids (k : nat) : string := String.append "i" (pretty k).
Definition notification_ids (k : nat) : string := String.append "n" (pretty k).

Definition create_ids : RecurringTasks.CreateIds :=
  RecurringTasks.mkCreateIds "P" "qP" instance_ids queue_ids notification_ids "nP".

(** A monthly parent due on 2023-01-31, expanded on 2023-01-01 by a
    browser at UTC and by the database. *)
Definition month_end_parent : Task.t :=
  Task.mk "P" "Rent" None (isoDate 2023 1 31) (9 * 60) medium None "u" None false true
    "10min" monthly None true pending 0 0 (Some true).

Definition month_end_instances : list Z :=
  Task.due_date
    <$> RecurringTasks.generateRecurringInstances (tz := utc) (Some "u"%string) instance_ids
          (parseDateTime (isoDate 2023 1 1) 0) month_end_parent monthly 12.

Definition month_end_rows : list Z :=
  Task.due_date
    <$> Pg.rows_from (fun _ => month_end_parent) (isoDate 2023 1 1) month_end_parent "P"
          monthly 1 12.

(** America/New_York with its rules of 2024: five hours behind UTC, four
    from 10 March to 3 November.  The clocks change at 07:00 and at 06:00
    UTC; a local time is in daylight time from 03:00 on 10 March until
    02:00 on 3 November, a local time that is skipped or occurs twice being
    read with the offset in force before the change. *)
Definition new_york_2024 : TimeZone := {|
  LocalTZA t isUTC :=
    let hour := 60 * msPerMinute in
    let start := MakeDate (isoDate 2024 3 10) ((if isUTC then 7 else 3) * hour) in
    let stop := MakeDate (isoDate 2024 11 3) ((if isUTC then 6 else 2) * hour) in
    if (start <=? t) && (t <? stop) then - 4 * hour else - 5 * hour
|}.

(** A daily task due on 2024-03-08, made recurring at noon of 2024-03-01
    in New York, and the due dates of its instances; the same on a host at
    UTC. *)
Definition dst_parent : Task.t :=
  Task.mk "P" "Water plants" None (isoDate 2024 3 8) (9 * 60) medium None "u" None false true
    "10min" daily None true pending 0 0 (Some true).

Definition dst_instances : list Z :=
  Task.due_date
    <$> RecurringTasks.createdInstances (tz := new_york_2024) (Some "u"%string)
          (parseDateTime (isoDate 2024 3 1) (17 * 60)) create_ids dst_parent.

Definition utc_instances : list Z :=
  Task.due_date
    <$> RecurringTasks.createdInstances (tz := utc) (Some "u"%string)
          (parseDateTime (isoDate 2024 3 1) (17 * 60)) create_ids dst_parent.

(** A daily series on the client, in a browser at UTC: the parent and its
    instance due 2024-06-03, completed at 08:00 of that day. *)
Definition daily_parent : Task.t :=
  Task.mk "P" "Water plants" None (isoDate 2024 6 2) (9 * 60) medium (Some true) "u" None
    false true "10min" daily None true synced 0 0 None.

Definition daily_instance (id : string) (due : Z) : Task.t :=
  Task.mk id "Water plants" None due (9 * 60) medium None "u" None false true
    "10min" none (Some "P"%string) false synced 0 0 None.

Definition daily_world (x : Task.t) : RecurringTasks.World :=
  RecurringTasks.mkWorld
    (IndexedDB.saveTask x (IndexedDB.saveTask daily_parent IndexedDB.empty)) effects0.

Definition complete_ids : RecurringTasks.CompleteIds :=
  RecurringTasks.mkCompleteIds "I2" "q2" "n2".

Definition completed_today : RecurringTasks.World :=
  RecurringTasks.completeRecurringTask (tz := utc) (Some "u"%string) render0 (at_ 8 0)
    complete_ids
    (daily_instance "I1" (isoDate 2024 6 3)) (daily_world (daily_instance "I1" (isoDate 2024 6 3))).

Definition last_instance : Task.t := daily_instance "I9" (isoDate 2025 6 3).

Definition completed_at_horizon : RecurringTasks.World :=
  RecurringTasks.completeRecurringTask (tz := utc) (Some "u"%string) render0 (at_ 0 0)
    complete_ids
    last_instance (daily_world last_instance).

Definition marked_at_horizon : RecurringTasks.World :=
  RecurringTasks.onDb (IndexedDB.saveTask (RecurringTasks.markCompleted last_instance))
    (daily_world last_instance).

(** A local store with one queued creation that the remote store accepts. *)
Definition clean_state : @OfflineSync.State (list string) :=
  OfflineSync.mkState
    (IndexedDB.addToSyncQueue task create (TaskData other_task) "q0" 0 IndexedDB.empty) [] [].

(** A remote store that is a list of task rows: inserts append, and a
    select returns the rows of the user. *)
Global Instance rows_supabase : Supabase (list Task.t) := {|
  sb_insert _ p r :=
    Some (Response.mk None match p with TaskData x => r ++ [x] | ListData _ => r end);
  sb_update _ _ _ r := Some (Response.mk None r);
  sb_delete _ _ r := Some (Response.mk None r);
  sb_select_tasks userId r := Some (List.filter (fun x => bool_decide (Task.user_id x = userId)) r);
  sb_select_task_lists _ _ := Some []
|}.

Definition stale_state : @OfflineSync.State (list Task.t) :=
  OfflineSync.mkState (IndexedDB.saveTask client_copy IndexedDB.empty) [server_row] [].

(** A store that refuses every single-row insert into [tasks]. *)
Definition rejects_inserts (w : Server.Write) : bool :=
  match w with Server.InsertTask _ => true | _ => false end.

Definition inbox_row : TaskList.t := TaskList.mk "L" "Inbox" "u" synced 0 (at_ 10 5) None.
Definition inbox_copy : TaskList.t := TaskList.mk "L" "Errands" "u" pending 0 (at_ 10 0) None.
Definition list_tables : Server.Tables := Server.mkTables ∅ {[ "L"%string := inbox_row ]}.
Definition no_tables : Server.Tables := Server.mkTables ∅ ∅.

(** The server's tables as the scan sees them: the task [T] of user [u],
    due 09:00 with lead ["10min"], and the user's address. *)
Definition scan_users : gmap string string := {[ "u"%string := "u@example.org"%string ]}.

(** The client holds an edit of [T] made at 10:00, still queued. *)
Definition conflict_db : IndexedDB.DB :=
  IndexedDB.addToSyncQueue task update (TaskData client_copy) "q0" (at_ 10 0)
    (IndexedDB.saveTask client_copy IndexedDB.empty).

(** The task of the run above with its lead changed to 5 minutes, and a
    task with an e-mail reminder and no lead setting. *)
Definition task_due9_5min : Task.t :=
  Task.mk "T" "Standup" None (isoDate 2024 6 3) (9 * 60) medium (Some false) "u" None false true
    "5min" none None false synced 0 0 None.

Definition task_mail : Task.t :=
  Task.mk "M" "Report" None (isoDate 2024 6 3) (9 * 60) medium (Some false) "u" None true false
    EmptyString none None false synced 0 0 None.

(** A remote [tasks] table with its primary key: inserting a row whose id
    is taken is refused with the error of the database, the other writes
    are carried out. *)
Global Instance table_supabase : Supabase (gmap string Task.t) := {|
  sb_insert _ p r :=
    match p with
    | TaskData x =>
        if bool_decide (is_Some (r !! Task.id x))
        then Some (Response.mk (Some "duplicate key value violates unique constraint"%string) r)
        else Some (Response.mk None (<[Task.id x := x]> r))
    | ListData _ => Some (Response.mk None r)
    end;
  sb_update _ p id r :=
    Some (Response.mk None
            match p, r !! id with
            | TaskData x, Some _ => <[id := x]> r
            | _, _ => r
            end);
  sb_delete _ id r := Some (Response.mk None (base.delete id r));
  sb_select_tasks userId r :=
    Some (List.filter (fun x => bool_decide (Task.user_id x = userId)) (IndexedDB.getAll r));
  sb_select_task_lists _ _ := Some []
|}.

(** The client queued the creation of [T] at 10:00; the table already has
    a row with that id. *)
Definition refused_item : SyncQueueItem.t :=
  SyncQueueItem.mk "q0" task create (TaskData client_copy) (at_ 10 0) 0.

Definition refused_state : @OfflineSync.State (gmap string Task.t) :=
  OfflineSync.mkState
    (IndexedDB.addToSyncQueue task create (TaskData client_copy) "q0" (at_ 10 0)
       (IndexedDB.saveTask client_copy IndexedDB.empty))
    {[ "T"%string := server_row ]} [].

(** ** Proof automation *)

(** A decidable closed proposition, settled by evaluation. *)
Ltac by_compute := apply (bool_decide_unpack _); vm_compute; exact I.

(* ================================================================== *)
(** * Part II: properties                                              *)
(* ================================================================== *)


(** ** Calendar facts *)

Lemma DayFromYear_succ y : DayFromYear (y + 1) = DayFromYear y + DaysInYear y.
Proof.
  unfold DayFromYear, DaysInYear.
  repeat match goal with |- context [?a =? ?b] => destruct (Z.eqb_spec a b) end;
    simpl; Z.div_mod_to_equations; lia.
Qed.

Lemma DayFromYear_lt y1 y2 : y1 < y2 -> DayFromYear y1 < DayFromYear y2.
Proof. unfold DayFromYear. intros. Z.div_mod_to_equations. lia. Qed.

(** [YearFromDay d] is the year the day [d] falls in. *)
Lemma YearFromDay_spec d :
  DayFromYear (YearFromDay d) <= d < DayFromYear (YearFromDay d + 1).
Proof.
  unfold YearFromDay.
  set (y := 1970 + 400 * d / 146097).
  assert (Hlo : DayFromYear (y - 1) <= d).
  { unfold DayFromYear, y. Z.div_mod_to_equations. lia. }
  assert (Hhi : d < DayFromYear (y + 2)).
  { unfold DayFromYear, y. Z.div_mod_to_equations. lia. }
  destruct (Z.leb_spec (DayFromYear (y + 1)) d).
  - replace (y + 1 + 1) with (y + 2) by lia. lia.
  - destruct (Z.leb_spec (DayFromYear y) d).
    + lia.
    + replace (y - 1 + 1) with y by lia. lia.
Qed.

Lemma YearFromDay_unique d y :
  DayFromYear y <= d < DayFromYear (y + 1) -> YearFromDay d = y.
Proof.
  intros Hy. pose proof (YearFromDay_spec d) as Hs.
  destruct (Z.lt_trichotomy (YearFromDay d) y) as [L|[E|G]]; [|done|].
  - assert (DayFromYear (YearFromDay d + 1) <= DayFromYear y).
    { destruct (Z.eq_dec (YearFromDay d + 1) y) as [->|]; [lia|].
      apply Z.lt_le_incl, DayFromYear_lt. lia. }
    lia.
  - assert (DayFromYear (y + 1) <= DayFromYear (YearFromDay d)).
    { destruct (Z.eq_dec (y + 1) (YearFromDay d)) as [->|]; [lia|].
      apply Z.lt_le_incl, DayFromYear_lt. lia. }
    lia.
Qed.

Lemma DaysInYear_cases y :
  DaysInYear y = 365 /\ InLeapYear y = 0 \/ DaysInYear y = 366 /\ InLeapYear y = 1.
Proof.
  unfold InLeapYear, DaysInYear.
  destruct (y mod 4 =? 0), (y mod 100 =? 0), (y mod 400 =? 0); simpl; auto.
Qed.

Lemma DayWithinYear_range d : 0 <= DayWithinYear d < DaysInYear (YearFromDay d).
Proof.
  unfold DayWithinYear. pose proof (YearFromDay_spec d) as Hs.
  rewrite DayFromYear_succ in Hs. lia.
Qed.

Lemma MonthFromDay_range d : 0 <= MonthFromDay d <= 11.
Proof.
  unfold MonthFromDay.
  repeat match goal with |- context [?a <? ?b] => destruct (Z.ltb_spec a b) end; lia.
Qed.

(** Year, month and date of a day put together give the day back. *)
Lemma MakeDay_decompose d :
  MakeDay (YearFromDay d) (MonthFromDay d) (DateFromDay d) = d.
Proof.
  pose proof (MonthFromDay_range d) as Hr.
  unfold MakeDay.
  replace (MonthFromDay d / 12) with 0 by (symmetry; apply Z.div_small; lia).
  rewrite Z.mod_small by lia. rewrite Z.add_0_r.
  unfold DateFromDay, DayWithinYear. lia.
Qed.

Lemma DateFromDay_range d : 1 <= DateFromDay d <= 31.
Proof.
  pose proof (DayWithinYear_range d) as Hw.
  destruct (DaysInYear_cases (YearFromDay d)) as [[E L]|[E L]];
  unfold DateFromDay, MonthFromDay; rewrite L; rewrite E in Hw;
  repeat match goal with |- context [?a <? ?b] => destruct (Z.ltb_spec a b) end; simpl; lia.
Qed.

Lemma MakeDay_date y m d : MakeDay y m d = MakeDay y m 1 + d - 1.
Proof. unfold MakeDay. lia. Qed.

Lemma month_cases r : 0 <= r < 12 ->
  r = 0 \/ r = 1 \/ r = 2 \/ r = 3 \/ r = 4 \/ r = 5 \/ r = 6 \/ r = 7 \/ r = 8
  \/ r = 9 \/ r = 10 \/ r = 11.
Proof. lia. Qed.

(** Every month has 28 to 31 days. *)
Lemma DaysInMonth_range y m : 28 <= DaysInMonth y m <= 31.
Proof.
  unfold DaysInMonth, MakeDay.
  assert (Hr : 0 <= m mod 12 < 12) by (apply Z.mod_pos_bound; lia).
  destruct (Z.eq_dec (m mod 12) 11) as [E|NE].
  - replace ((m + 1) / 12) with (m / 12 + 1) by (Z.div_mod_to_equations; lia).
    replace ((m + 1) mod 12) with 0 by (Z.div_mod_to_equations; lia).
    rewrite E. replace (y + (m / 12 + 1)) with (y + m / 12 + 1) by lia.
    rewrite DayFromYear_succ.
    destruct (DaysInYear_cases (y + m / 12)) as [[-> ->]|[-> ->]];
    destruct (DaysInYear_cases (y + m / 12 + 1)) as [[_ ->]|[_ ->]]; simpl; lia.
  - replace ((m + 1) / 12) with (m / 12) by (Z.div_mod_to_equations; lia).
    replace ((m + 1) mod 12) with (m mod 12 + 1) by (Z.div_mod_to_equations; lia).
    destruct (DaysInYear_cases (y + m / 12)) as [[_ ->]|[_ ->]];
    destruct (month_cases (m mod 12) Hr) as [E|[E|[E|[E|[E|[E|[E|[E|[E|[E|[E|E]]]]]]]]]]];
    rewrite E; simpl; lia.
Qed.

Lemma MakeDay_month_succ y m d : MakeDay y (m + 1) d = MakeDay y m d + DaysInMonth y m.
Proof. unfold DaysInMonth. rewrite (MakeDay_date y (m + 1) d), (MakeDay_date y m d). lia. Qed.

(** Later months start later. *)
Lemma MakeDay_month_lt y m1 m2 d : m1 < m2 -> MakeDay y m1 d < MakeDay y m2 d.
Proof.
  intros Hlt. replace m2 with (m1 + 1 + (m2 - m1 - 1)) by lia.
  assert (Hn : 0 <= m2 - m1 - 1) by lia. revert Hn.
  generalize (m2 - m1 - 1). apply natlike_ind.
  - rewrite Z.add_0_r, MakeDay_month_succ. pose proof (DaysInMonth_range y m1). lia.
  - intros n Hn IH. replace (m1 + 1 + Z.succ n) with (m1 + 1 + n + 1) by lia.
    rewrite MakeDay_month_succ. pose proof (DaysInMonth_range y (m1 + 1 + n)). lia.
Qed.

(** Carrying the months of [m] into the year first changes nothing. *)
Lemma MakeDay_normalize y m k d :
  MakeDay (y + m / 12) (m mod 12 + k) d = MakeDay y (m + k) d.
Proof.
  unfold MakeDay.
  replace (y + m / 12 + (m mod 12 + k) / 12) with (y + (m + k) / 12)
    by (Z.div_mod_to_equations; lia).
  replace ((m mod 12 + k) mod 12) with ((m + k) mod 12) by (Z.div_mod_to_equations; lia).
  reflexivity.
Qed.

(** A date that exists in every month is read back as it was made. *)
Lemma MakeDay_inverse y m d : 1 <= d <= 28 ->
  YearFromDay (MakeDay y m d) = y + m / 12
  /\ MonthFromDay (MakeDay y m d) = m mod 12
  /\ DateFromDay (MakeDay y m d) = d.
Proof.
  intros Hd.
  assert (Hr : 0 <= m mod 12 < 12) by (apply Z.mod_pos_bound; lia).
  assert (HY : YearFromDay (MakeDay y m d) = y + m / 12).
  { apply YearFromDay_unique. rewrite DayFromYear_succ. unfold MakeDay.
    destruct (DaysInYear_cases (y + m / 12)) as [[-> ->]|[-> ->]];
    destruct (month_cases (m mod 12) Hr) as [E|[E|[E|[E|[E|[E|[E|[E|[E|[E|[E|E]]]]]]]]]]];
    rewrite E; simpl; lia. }
  assert (HM : MonthFromDay (MakeDay y m d) = m mod 12).
  { unfold MonthFromDay, DayWithinYear. rewrite HY. unfold MakeDay.
    destruct (DaysInYear_cases (y + m / 12)) as [[_ ->]|[_ ->]];
    destruct (month_cases (m mod 12) Hr) as [E|[E|[E|[E|[E|[E|[E|[E|[E|[E|[E|E]]]]]]]]]]];
    rewrite E; simpl;
    repeat match goal with |- context [?a <? ?b] => destruct (Z.ltb_spec a b) end; lia. }
  split; [exact HY|]. split; [exact HM|].
  unfold DateFromDay, DayWithinYear. rewrite HM, HY. unfold MakeDay. lia.
Qed.

Lemma msPerDay_pos : 0 < msPerDay.
Proof. reflexivity. Qed.

Lemma Day_MakeDate d r : 0 <= r < msPerDay -> Day (MakeDate d r) = d.
Proof.
  intros Hr. unfold Day, MakeDate. pose proof msPerDay_pos.
  rewrite Z.add_comm, Z.div_add by lia. rewrite Z.div_small by lia. lia.
Qed.

Lemma TimeWithinDay_MakeDate d r : 0 <= r < msPerDay -> TimeWithinDay (MakeDate d r) = r.
Proof.
  intros Hr. unfold TimeWithinDay, MakeDate.
  rewrite Z.add_comm, Z.mod_add by (pose proof msPerDay_pos; lia). apply Z.mod_small; lia.
Qed.

Lemma TimeWithinDay_range t : 0 <= TimeWithinDay t < msPerDay.
Proof. apply Z.mod_pos_bound, msPerDay_pos. Qed.

Lemma MakeDate_Day t : MakeDate (Day t) (TimeWithinDay t) = t.
Proof.
  unfold MakeDate, Day, TimeWithinDay. pose proof (Z.div_mod t msPerDay). 
  pose proof msPerDay_pos. lia.
Qed.

(** [d.setUTCDate(d.getUTCDate() + i)] moves [d] by [i] days. *)
Lemma setUTCDate_getUTCDate t i : setUTCDate t (getUTCDate t + i) = t + i * msPerDay.
Proof.
  unfold setUTCDate, getUTCFullYear, getUTCMonth, getUTCDate.
  rewrite MakeDay_date.
  pose proof (MakeDay_decompose (Day t)) as Hd. rewrite MakeDay_date in Hd.
  replace (MakeDay (YearFromDay (Day t)) (MonthFromDay (Day t)) 1
           + (DateFromDay (Day t) + i) - 1) with (Day t + i) by lia.
  pose proof (MakeDate_Day t) as Ht. unfold MakeDate in *. lia.
Qed.

Lemma LocalTime_fixed {tz : TimeZone} c t : fixedOffset tz c -> LocalTime t = t + c.
Proof. intros Hc. unfold LocalTime. by rewrite (Hc t true). Qed.

Lemma UTC_fixed {tz : TimeZone} c t : fixedOffset tz c -> UTC t = t - c.
Proof. intros Hc. unfold UTC. by rewrite (Hc t false). Qed.

(** On a host with a fixed offset, [d.setDate(d.getDate() + i)] moves [d]
    by [i] days. *)
Lemma setDate_getDate {tz : TimeZone} c t i :
  fixedOffset tz c -> setDate t (getDate t + i) = t + i * msPerDay.
Proof.
  intros Hc. unfold setDate, getDate.
  rewrite (LocalTime_fixed c), (UTC_fixed c), setUTCDate_getUTCDate by done. lia.
Qed.

(** ** The Local Durable Store: soft-deleted rows are hidden *)

Lemma getTasks_spec userId (d : IndexedDB.DB) x :
  x ∈ IndexedDB.getTasks userId d ↔
  (∃ k, IndexedDB.tasks d !! k = Some x) ∧ Task.user_id x = userId
  ∧ Task.sync_status x ≠ deleted.
Proof.
  unfold IndexedDB.getTasks, IndexedDB.getAll.
  rewrite !list_elem_of_filter, list_elem_of_fmap. split.
  - intros (Hs & Hu & [k y] & -> & Hin). apply elem_of_map_to_list in Hin. eauto.
  - intros ((k & Hk) & Hu & Hs). split; [done|]. split; [done|].
    exists (k, x). split; [done|]. by apply elem_of_map_to_list.
Qed.

Lemma getTaskLists_spec userId (d : IndexedDB.DB) x :
  x ∈ IndexedDB.getTaskLists userId d ↔
  (∃ k, IndexedDB.task_lists d !! k = Some x) ∧ TaskList.user_id x = userId
  ∧ TaskList.sync_status x ≠ deleted.
Proof.
  unfold IndexedDB.getTaskLists, IndexedDB.getAll.
  rewrite !list_elem_of_filter, list_elem_of_fmap. split.
  - intros (Hs & Hu & [k y] & -> & Hin). apply elem_of_map_to_list in Hin. eauto.
  - intros ((k & Hk) & Hu & Hs). split; [done|]. split; [done|].
    exists (k, x). split; [done|]. by apply elem_of_map_to_list.
Qed.

Lemma getTask_spec taskId (d : IndexedDB.DB) x :
  IndexedDB.getTask taskId d = Some x ↔
  IndexedDB.tasks d !! taskId = Some x ∧ Task.sync_status x ≠ deleted.
Proof.
  unfold IndexedDB.getTask. destruct (IndexedDB.tasks d !! taskId) as [y|].
  - case_decide as Hs.
    + split; [intros [= ->]; done|intros [[= ->] _]; done].
    + split; [discriminate|]. intros [[= ->] Hx]. done.
  - split; [discriminate|intros [? _]; discriminate].
Qed.

(** C9.  For every user id, [getTasks(userId)] and [getTaskLists(userId)]
    return no record whose [sync_status] is ['deleted'] (and neither does the
    single-record read [getTask]). *)
Theorem reads_hide_soft_deleted (userId taskId : string) (d : IndexedDB.DB) :
  Forall (fun x => Task.sync_status x ≠ deleted) (IndexedDB.getTasks userId d)
  ∧ Forall (fun l => TaskList.sync_status l ≠ deleted) (IndexedDB.getTaskLists userId d)
  ∧ from_option (fun x => Task.sync_status x ≠ deleted) True (IndexedDB.getTask taskId d).
Proof.
  split; [|split].
  - apply Forall_forall. intros x Hx. by apply getTasks_spec in Hx as (_ & _ & ?).
  - apply Forall_forall. intros x Hx. by apply getTaskLists_spec in Hx as (_ & _ & ?).
  - destruct (IndexedDB.getTask taskId d) as [x|] eqn:E; [|done].
    simpl. by apply getTask_spec in E as [_ ?].
Qed.

(** ** Lead times *)

Lemma timingMap_lookup_None timing :
  timing ∉ Notifications.leadOptions -> Notifications.timingMap !! timing = None.
Proof. intros Hn. unfold Notifications.timingMap. by apply not_elem_of_list_to_map_1. Qed.

Lemma timingMap_lookup_Some timing lead :
  Notifications.timingMap !! timing = Some lead ->
  timing ∈ Notifications.leadOptions ∧ 0 < lead.
Proof.
  unfold Notifications.timingMap. intros Hl.
  apply elem_of_list_to_map_2 in Hl.
  repeat (apply elem_of_cons in Hl as [Hl|Hl];
          [injection Hl as -> ->; split; [by_compute|reflexivity]|]).
  by apply elem_of_nil in Hl.
Qed.

(** An enumerated lead time is looked up as its interval by every copy of
    the table. *)
Lemma getNotificationDelay_enumerated timing lead :
  Notifications.timingMap !! timing = Some lead ->
  Notifications.getNotificationDelay timing = Js.Number lead
  ∧ EmailNotifications.getNotificationDelay timing = Js.Number lead.
Proof.
  intros Hl. pose proof (timingMap_lookup_Some _ _ Hl) as [_ Hpos].
  unfold Notifications.getNotificationDelay, EmailNotifications.getNotificationDelay,
    Js.or, Js.get.
  rewrite Hl. simpl. destruct (Z.eqb_spec lead 0); [lia|done].
Qed.

(** A lead time that is neither enumerated nor the name of an inherited
    member falls back to the default of the path. *)
Lemma getNotificationDelay_fallback timing dueDate dueTime :
  timing ∉ Notifications.leadOptions -> timing ∉ Js.Object_prototype ->
  Notifications.getNotificationDelay timing = Js.Number (10 * 60 * 1000)
  ∧ EmailNotifications.getNotificationDelay timing = Js.Number (60 * 60 * 1000)
  ∧ Server.calculateNotificationTime dueDate dueTime timing
    = Js.Num (parseDateTime dueDate dueTime - 10 * 60 * 1000).
Proof.
  intros Hn Hp. pose proof (timingMap_lookup_None _ Hn) as Hl.
  unfold Notifications.getNotificationDelay, EmailNotifications.getNotificationDelay,
    Server.calculateNotificationTime, Js.or, Js.get.
  rewrite Hl. rewrite bool_decide_eq_false_2 by done. done.
Qed.

(** C10.  The lead-time lookup at the lead value ["constructor"], which is
    none of the twelve options: the table lookup finds the member every
    object literal inherits, so neither push path falls back to 10 minutes
    and the email path does not fall back to 1 hour; the fire time computed
    from it is [NaN].  The SQL helper does fall back to 10 minutes. *)
Theorem lead_lookup_at_inherited_member (x : Task.t) (dueDate dueTime : Z) :
  Task.notification_time x = "constructor"%string ->
  ("constructor"%string ∉ Notifications.leadOptions)
  ∧ Notifications.getNotificationDelay "constructor" = Js.Inherited "constructor"
  ∧ EmailNotifications.getNotificationDelay "constructor" = Js.Inherited "constructor"
  ∧ Notifications.reminderTime x None = Js.NaN
  ∧ EmailNotifications.reminderTime x = Js.NaN
  ∧ Server.calculateNotificationTime dueDate dueTime "constructor" = Js.NaN
  ∧ Pg.notification_interval "constructor" = 10 * 60 * 1000.
Proof.
  intros Hx. unfold Notifications.reminderTime, EmailNotifications.reminderTime.
  rewrite Hx. split; [by_compute|]. repeat split; reflexivity.
Qed.

Lemma lead_lookup_at_inherited_member_witness :
  Notifications.getNotificationDelay "constructor" = Js.Inherited "constructor"
  ∧ Notifications.reminderTime task_constructor_lead None = Js.NaN.
Proof.
  pose proof (lead_lookup_at_inherited_member task_constructor_lead 0 0 eq_refl) as H.
  split; [apply H|apply H].
Defined.

(** ** The reminder scheduler, client half *)

Lemma prototype_not_enumerated timing lead :
  Notifications.timingMap !! timing = Some lead -> timing ∉ Js.Object_prototype.
Proof.
  intros Hl Hin. apply timingMap_lookup_Some in Hl as [Hl _].
  unfold Notifications.leadOptions in Hl.
  repeat (apply elem_of_cons in Hl as [->|Hl];
          [revert Hin; apply (bool_decide_unpack _); vm_compute; exact I|]).
  by apply elem_of_nil in Hl.
Qed.



(** No operation of the hook ever removes a pending timer: updating a
    task's notification keeps every callback that was registered before. *)
Lemma showTaskNotification_timers r n e :
  Notifications.timers (Notifications.showTaskNotification r n e) = Notifications.timers e.
Proof. unfold Notifications.showTaskNotification. by case_decide. Qed.

Lemma scheduleTaskNotification_keeps_timers r x c uuid now now' e tm :
  tm ∈ Notifications.timers e ->
  tm ∈ Notifications.timers (Notifications.scheduleTaskNotification r x c uuid now now' e).
Proof.
  intros Hin. unfold Notifications.scheduleTaskNotification.
  destruct (negb (Task.push_notification x) || Js.truthy_bool (Task.completed x)); [done|].
  destruct (Js.le _ _); [done|]. simpl.
  unfold Notifications.scheduleLocalNotification. simpl.
  destruct (Notifications.reminderTime x c) as [s|]; simpl.
  - destruct (s - now' <=? 0).
    + by rewrite showTaskNotification_timers.
    + simpl. apply elem_of_app. by left.
  - apply elem_of_app. by left.
Qed.

Lemma updateTaskNotification_keeps_timers r x uuid now now' e tm :
  tm ∈ Notifications.timers e ->
  tm ∈ Notifications.timers (Notifications.updateTaskNotification r x uuid now now' e).
Proof.
  intros Hin. unfold Notifications.updateTaskNotification.
  destruct (Task.push_notification x && negb (Js.truthy_bool (Task.completed x))); [|done].
  by apply scheduleTaskNotification_keeps_timers.
Qed.

(** C8.  After the task was completed and [updateTaskNotification] ran,
    the stored reminder is gone but the callback registered for 08:50 is
    still pending, and when the clock reaches 08:50 it shows the reminder
    of the task as it was before the change. *)
Theorem stale_reminder_still_fires :
  Notifications.stored updated_effects = []
  ∧ Notifications.timers updated_effects
    = [Notifications.mkTimer (at_ 8 50) (reminderFor task_due9 "n1" (at_ 8 50)) render0]
  ∧ Notifications.displayed (Notifications.runTimers (at_ 8 50) updated_effects)
    = [reminderFor task_due9 "n1" (at_ 8 50)].
Proof. repeat split; vm_compute; reflexivity. Qed.

(** ** Conflict detection in the sync endpoint *)



(** ** Deleting a recurring series *)

Lemma deleteSeriesFrom_tasks now queueId k series (d : IndexedDB.DB) j :
  (j ∈ Task.id <$> series ->
     IndexedDB.tasks (RecurringTasks.deleteSeriesFrom now queueId k series d) !! j = None)
  ∧ (j ∉ Task.id <$> series ->
     IndexedDB.tasks (RecurringTasks.deleteSeriesFrom now queueId k series d) !! j
     = IndexedDB.tasks d !! j).
Proof.
  revert k d. induction series as [|x rest IH]; intros k d.
  - split; [intros Hin; by apply elem_of_nil in Hin|done].
  - cbn [RecurringTasks.deleteSeriesFrom]. rewrite fmap_cons.
    destruct (IH (S k) (IndexedDB.addToSyncQueue task delete (TaskData x) (queueId k) now
                          (IndexedDB.deleteTask (Task.id x) d))) as [IHin IHout].
    split.
    + intros Hin. destruct (decide (j ∈ Task.id <$> rest)) as [Hr|Hr]; [by apply IHin|].
      rewrite IHout by done. apply elem_of_cons in Hin as [->|Hin]; [|done].
      apply lookup_delete_eq.
    + intros Hnin. apply not_elem_of_cons in Hnin as [Hne Hr].
      rewrite IHout by done. by apply lookup_delete_ne.
Qed.

Lemma getTasks_same_id userId (d : IndexedDB.DB) x y :
  IndexedDB.keyed d -> x ∈ IndexedDB.getTasks userId d -> y ∈ IndexedDB.getTasks userId d ->
  Task.id x = Task.id y -> x = y.
Proof.
  intros [Hk _] Hx Hy Hid.
  apply getTasks_spec in Hx as ((kx & Hx) & _). apply getTasks_spec in Hy as ((ky & Hy) & _).
  pose proof (Hk _ _ Hx) as Ex. pose proof (Hk _ _ Hy) as Ey. simpl in Ex, Ey.
  assert (kx = ky) by congruence. subst. congruence.
Qed.

Lemma find_id_elem (l : list Task.t) taskId x :
  x ∈ l -> Task.id x = taskId ->
  ∃ y, List.find (fun z => bool_decide (Task.id z = taskId)) l = Some y
       ∧ y ∈ l ∧ Task.id y = taskId.
Proof.
  induction l as [|a l IH]; intros Hin Hid; [by apply elem_of_nil in Hin|].
  simpl. destruct (bool_decide (Task.id a = taskId)) eqn:E.
  - apply bool_decide_eq_true in E. exists a. split; [done|]. split; [by left|done].
  - apply bool_decide_eq_false in E. apply elem_of_cons in Hin as [->|Hin]; [done|].
    destruct (IH Hin Hid) as (y & Hf & Hy & Hyid). exists y. split; [done|].
    split; [by right|done].
Qed.

(** The client cascade: whichever member of the series is deleted, no task
    the user can read belongs to the series afterwards, and the tasks outside
    the series are still there. *)
Lemma deleteRecurringSeries_cascade now queueId userId taskId isParent P (d : IndexedDB.DB) :
  IndexedDB.keyed d ->
  P ≠ EmptyString ->
  (isParent = true ∧ taskId = P)
  ∨ (isParent = false ∧ ∃ x, x ∈ IndexedDB.getTasks userId d ∧ Task.id x = taskId
                              ∧ Task.recurrence_id x = Some P) ->
  let d' := RecurringTasks.deleteRecurringSeries (Some userId) now queueId taskId isParent d in
  (∀ x, x ∈ IndexedDB.getTasks userId d' -> RecurringTasks.inSeries P x = false)
  ∧ (∀ x, x ∈ IndexedDB.getTasks userId d -> RecurringTasks.inSeries P x = true ->
          IndexedDB.tasks d' !! Task.id x = None)
  ∧ (∀ x, x ∈ IndexedDB.getTasks userId d -> RecurringTasks.inSeries P x = false ->
          x ∈ IndexedDB.getTasks userId d').
Proof.
  intros Hkeyed HP Hwhich d'.
  assert (Hparent : RecurringTasks.seriesParent taskId isParent (IndexedDB.getTasks userId d)
                    = Some P).
  { unfold RecurringTasks.seriesParent.
    destruct Hwhich as [[-> ->]|[-> (x & Hx & Hid & Hrec)]]; [done|].
    destruct (find_id_elem _ _ _ Hx Hid) as (y & -> & Hy & Hyid).
    assert (y = x) by (eapply getTasks_same_id; eauto; congruence). by subst. }
  set (series := List.filter (RecurringTasks.inSeries P) (IndexedDB.getTasks userId d)).
  assert (Hd' : d' = RecurringTasks.deleteSeriesFrom now queueId 0 series d).
  { subst d'. unfold RecurringTasks.deleteRecurringSeries. rewrite Hparent.
    unfold Js.truthy_opt. by rewrite bool_decide_eq_false_2 by done. }
  assert (Hgone : ∀ j, j ∈ Task.id <$> series -> IndexedDB.tasks d' !! j = None).
  { intros j. rewrite Hd'. apply deleteSeriesFrom_tasks. }
  assert (Hkept : ∀ j, j ∉ Task.id <$> series
                       -> IndexedDB.tasks d' !! j = IndexedDB.tasks d !! j).
  { intros j. rewrite Hd'. apply deleteSeriesFrom_tasks. }
  assert (Hser : ∀ x, x ∈ IndexedDB.getTasks userId d -> RecurringTasks.inSeries P x = true ->
                 Task.id x ∈ Task.id <$> series).
  { intros x Hx Hin. apply list_elem_of_fmap. exists x. split; [done|].
    apply list_elem_of_In, filter_In. split; [by apply list_elem_of_In|done]. }
  split; [|split].
  - intros x Hx. apply getTasks_spec in Hx as ((k & Hk) & Hu & Hs).
    destruct (decide (k ∈ Task.id <$> series)) as [Hin|Hin].
    { rewrite Hgone in Hk by done. discriminate. }
    rewrite Hkept in Hk by done.
    destruct (RecurringTasks.inSeries P x) eqn:E; [|done]. exfalso. apply Hin.
    destruct Hkeyed as [Hkt _]. rewrite <- (Hkt _ _ Hk). apply Hser; [|done].
    apply getTasks_spec. eauto.
  - intros x Hx Hin. apply Hgone. by apply Hser.
  - intros x Hx Hout. apply getTasks_spec in Hx as ((k & Hk) & Hu & Hs).
    apply getTasks_spec. split; [|done]. exists k. rewrite Hkept; [done|].
    intros Hin.
    apply list_elem_of_fmap in Hin as (y & -> & Hy).
    apply list_elem_of_In, filter_In in Hy as [Hy Hyin]. apply list_elem_of_In in Hy.
    assert (y = x); [|congruence].
    eapply getTasks_same_id; eauto.
    + apply getTasks_spec. eauto.
    + destruct Hkeyed as [Hkt _]. symmetry. apply (Hkt _ _ Hk).
Qed.

(** The server endpoint: the rows that are left. *)
Lemma deleteTaskEndpoint_rows refuses id userId (t : Server.Tables) row :
  Server.tasks t !! id = Some row -> Task.user_id row = userId ->
  refuses (Server.DeleteSeries id userId) = false ->
  refuses (Server.DeleteTask id userId) = false ->
  let t' := (Server.deleteTaskEndpoint refuses id userId t).2 in
  ∀ k x, Server.tasks t' !! k = Some x ↔
         Server.tasks t !! k = Some x
         ∧ if Task.is_recurring_parent row
           then ¬ (Task.user_id x = userId ∧ (Task.id x = id ∨ Task.recurrence_id x = Some id))
           else ¬ (Task.id x = id ∧ Task.user_id x = userId).
Proof.
  intros Hrow Hu Hs Hd t' k x. subst t'. unfold Server.deleteTaskEndpoint, Server.exec.
  rewrite Hrow. rewrite decide_True by done.
  destruct (Task.is_recurring_parent row); [rewrite Hs|rewrite Hd]; simpl;
    by rewrite map_lookup_filter_Some.
Qed.

(** C6, as stated, fails on the server: [DELETE /api/tasks/I1] for the
    instance [I1] of the series of [P] answers 204 and leaves the parent
    and the other instance in place. *)
Lemma server_instance_delete_keeps_series :
  let r := Server.deleteTaskEndpoint accepts_all "I1" "u" series_tables in
  r.1 = 204
  ∧ Server.tasks r.2 !! "P"%string = Some series_parent
  ∧ Server.tasks r.2 !! "I2"%string = Some (series_instance "I2" (isoDate 2024 6 17))
  ∧ ¬ seriesGone "P" (Server.tasks r.2).
Proof.
  assert (HP : Server.tasks (Server.deleteTaskEndpoint accepts_all "I1" "u" series_tables).2
               !! "P"%string = Some series_parent) by (vm_compute; reflexivity).
  split; [vm_compute; reflexivity|]. split; [exact HP|].
  split; [vm_compute; reflexivity|].
  intros Hgone. destruct (Hgone _ _ HP) as [Hid _]. by apply Hid.
Qed.

(** C6, amended.  On the client, deleting the parent [P] of a series or any
    instance of it ([deleteRecurringSeries]) removes from the local store
    every task the user can read whose id is [P] or whose [recurrence_id] is
    [P]; none of them is readable afterwards, and the other tasks stay.  On
    the server, [DELETE /api/tasks/:id] removes every row of the user with
    that id or that [recurrence_id] when the addressed row is a recurring
    parent, and only the addressed row otherwise. *)
Theorem series_deletion_cascade (now : Z) (queueId : nat -> string)
    (userId taskId P : string) (isParent : bool) (d : IndexedDB.DB)
    (refuses : Server.Write -> bool) (t : Server.Tables) (row : Task.t) :
  IndexedDB.keyed d ->
  P ≠ EmptyString ->
  (isParent = true ∧ taskId = P)
  ∨ (isParent = false ∧ ∃ x, x ∈ IndexedDB.getTasks userId d ∧ Task.id x = taskId
                              ∧ Task.recurrence_id x = Some P) ->
  Server.tasks t !! taskId = Some row -> Task.user_id row = userId ->
  refuses (Server.DeleteSeries taskId userId) = false ->
  refuses (Server.DeleteTask taskId userId) = false ->
  let d' := RecurringTasks.deleteRecurringSeries (Some userId) now queueId taskId isParent d in
  let t' := (Server.deleteTaskEndpoint refuses taskId userId t).2 in
  ((∀ x, x ∈ IndexedDB.getTasks userId d' -> RecurringTasks.inSeries P x = false)
   ∧ (∀ x, x ∈ IndexedDB.getTasks userId d -> RecurringTasks.inSeries P x = true ->
           IndexedDB.tasks d' !! Task.id x = None)
   ∧ (∀ x, x ∈ IndexedDB.getTasks userId d -> RecurringTasks.inSeries P x = false ->
           x ∈ IndexedDB.getTasks userId d'))
  ∧ (∀ k x, Server.tasks t' !! k = Some x ↔
            Server.tasks t !! k = Some x
            ∧ if Task.is_recurring_parent row
              then ¬ (Task.user_id x = userId
                      ∧ (Task.id x = taskId ∨ Task.recurrence_id x = Some taskId))
              else ¬ (Task.id x = taskId ∧ Task.user_id x = userId)).
Proof.
  intros Hkeyed HP Hwhich Hrow Hu Hs Hd d' t'. split.
  - by apply deleteRecurringSeries_cascade.
  - by apply deleteTaskEndpoint_rows.
Qed.

Lemma series_deletion_cascade_witness :
  IndexedDB.getTasks "u"
    (RecurringTasks.deleteRecurringSeries (Some "u"%string) 0 queue_ids "I1" false series_db)
  = [other_task]
  ∧ (∀ x, x ∈ IndexedDB.getTasks "u"
                (RecurringTasks.deleteRecurringSeries (Some "u"%string) 0 queue_ids "I1" false
                   series_db)
          -> RecurringTasks.inSeries "P" x = false).
Proof.
  split; [vm_compute; reflexivity|].
  assert (Hk : IndexedDB.keyed series_db) by by_compute.
  assert (HP : "P"%string ≠ EmptyString) by discriminate.
  assert (Hin : series_instance "I1" (isoDate 2024 6 10) ∈ IndexedDB.getTasks "u" series_db)
    by by_compute.
  apply (series_deletion_cascade 0 queue_ids "u" "I1" "P" false series_db accepts_all
           series_tables (series_instance "I1" (isoDate 2024 6 10)) Hk HP
           (or_intror (conj eq_refl
              (ex_intro _ (series_instance "I1" (isoDate 2024 6 10))
                 (conj Hin (conj eq_refl eq_refl)))))
           eq_refl eq_refl eq_refl eq_refl).
Defined.

(** ** The retry ceiling of the client drain *)

Section DrainFacts.
Context {R : Type} `{Supabase R}.
Import OfflineSync.

Lemma drainItem_remote (st : State) item :
  remote (drainItem st item) = default (remote st) (processSyncItem item (remote st)).
Proof.
  unfold drainItem. destruct (processSyncItem item (remote st)); [done|].
  by destruct (3 <=? _).
Qed.

Lemma drainItem_stores (st : State) item :
  IndexedDB.tasks (db (drainItem st item)) = IndexedDB.tasks (db st)
  ∧ IndexedDB.task_lists (db (drainItem st item)) = IndexedDB.task_lists (db st).
Proof.
  unfold drainItem. destruct (processSyncItem item (remote st)); [done|].
  by destruct (3 <=? _).
Qed.

Lemma drainItem_queue_self (st : State) item :
  IndexedDB.sync_queue (db (drainItem st item)) !! SyncQueueItem.id item
  = leftInQueue item (remote st).
Proof.
  unfold drainItem, leftInQueue. destruct (processSyncItem item (remote st)); simpl.
  - apply lookup_delete_eq.
  - destruct (3 <=? _); simpl; [apply lookup_delete_eq|apply lookup_insert_eq].
Qed.

Lemma drainItem_queue_other (st : State) item k :
  SyncQueueItem.id item ≠ k ->
  IndexedDB.sync_queue (db (drainItem st item)) !! k = IndexedDB.sync_queue (db st) !! k.
Proof.
  intros Hne. unfold drainItem. destruct (processSyncItem item (remote st)); simpl.
  - by apply lookup_delete_ne.
  - destruct (3 <=? _); simpl; [by apply lookup_delete_ne|by apply lookup_insert_ne].
Qed.

Lemma drainItem_console (st : State) item :
  ∃ more, console (drainItem st item) = console st ++ more
          ∧ (processSyncItem item (remote st) = None ->
             3 <= SyncQueueItem.retries (retried item) ->
             warn_removing (retried item) ∈ more).
Proof.
  unfold drainItem. destruct (processSyncItem item (remote st)); simpl.
  - exists []. by rewrite app_nil_r.
  - destruct (Z.leb_spec 3 (SyncQueueItem.retries item + 1)); simpl.
    + eexists. split; [done|]. intros _ _. set_solver.
    + eexists. split; [done|]. intros _ ?. lia.
Qed.

Lemma foldl_drainItem_remote items (st : State) :
  remote (foldl drainItem st items) = remoteAfter (remote st) items.
Proof.
  revert st. induction items as [|a l IH]; intros st; [done|].
  simpl. rewrite IH. unfold remoteAfter. simpl. by rewrite drainItem_remote.
Qed.

Lemma foldl_drainItem_stores items (st : State) :
  IndexedDB.tasks (db (foldl drainItem st items)) = IndexedDB.tasks (db st)
  ∧ IndexedDB.task_lists (db (foldl drainItem st items)) = IndexedDB.task_lists (db st).
Proof.
  revert st. induction items as [|a l IH]; intros st; [done|].
  simpl. destruct (IH (drainItem st a)) as [-> ->]. apply drainItem_stores.
Qed.

Lemma foldl_drainItem_console items (st : State) :
  ∃ more, console (foldl drainItem st items) = console st ++ more.
Proof.
  revert st. induction items as [|a l IH]; intros st.
  - exists []. by rewrite app_nil_r.
  - simpl. destruct (IH (drainItem st a)) as [m1 ->].
    destruct (drainItem_console st a) as (m0 & -> & _).
    exists (m0 ++ m1). by rewrite app_assoc.
Qed.

(** The loop over a snapshot with pairwise distinct ids: an id that is not
    in the snapshot keeps its entry, and the id of an entry of the snapshot
    ends with what the pass over that entry left. *)
Lemma foldl_drainItem_queue items (st : State) :
  NoDup (SyncQueueItem.id <$> items) ->
  (∀ k, k ∉ SyncQueueItem.id <$> items ->
        IndexedDB.sync_queue (db (foldl drainItem st items)) !! k
        = IndexedDB.sync_queue (db st) !! k)
  ∧ (∀ item, item ∈ items ->
        IndexedDB.sync_queue (db (foldl drainItem st items)) !! SyncQueueItem.id item
        = leftInQueue item (remoteAfter (remote st) (before (SyncQueueItem.id item) items))
        ∧ (processSyncItem item
             (remoteAfter (remote st) (before (SyncQueueItem.id item) items)) = None ->
           3 <= SyncQueueItem.retries (retried item) ->
           warn_removing (retried item) ∈ console (foldl drainItem st items))).
Proof.
  revert st. induction items as [|a l IH]; intros st Hnd.
  - split; [done|]. intros item Hin. by apply elem_of_nil in Hin.
  - rewrite fmap_cons in Hnd. apply NoDup_cons in Hnd as [Ha Hnd].
    destruct (IH (drainItem st a) Hnd) as [IHout IHin]. cbn [foldl before]. split.
    + intros k Hk. rewrite fmap_cons in Hk. apply not_elem_of_cons in Hk as [Hne Hk].
      rewrite IHout by done. by apply drainItem_queue_other.
    + intros item Hin. apply elem_of_cons in Hin as [->|Hin].
      * rewrite decide_True by done. rewrite IHout by done. split.
        -- apply drainItem_queue_self.
        -- intros Hf Hge. cbn [remoteAfter foldl] in Hf.
           destruct (drainItem_console st a) as (m0 & E0 & Hw).
           destruct (foldl_drainItem_console l (drainItem st a)) as [m1 ->].
           rewrite E0. apply elem_of_app. left. apply elem_of_app. right. by apply Hw.
      * assert (SyncQueueItem.id a ≠ SyncQueueItem.id item) as Hne.
        { intros E. apply Ha. rewrite E. apply list_elem_of_fmap. eauto. }
        rewrite decide_False by done.
        replace (remoteAfter (remote st) (a :: before (SyncQueueItem.id item) l))
          with (remoteAfter (remote (drainItem st a)) (before (SyncQueueItem.id item) l))
          by (unfold remoteAfter; simpl; by rewrite drainItem_remote).
        by apply IHin.
Qed.

Lemma keyed_queue_ids (q : gmap string SyncQueueItem.t) :
  map_Forall (fun k x => SyncQueueItem.id x = k) q ->
  SyncQueueItem.id <$> IndexedDB.getAll q = (map_to_list q).*1.
Proof.
  intros Hk. unfold IndexedDB.getAll. rewrite <- list_fmap_compose.
  apply list_fmap_ext. intros i [k x] Hi. simpl.
  apply (Hk k x). apply elem_of_map_to_list. eapply list_elem_of_lookup_2. exact Hi.
Qed.

Lemma getSyncQueue_NoDup (d : IndexedDB.DB) :
  IndexedDB.keyed d -> NoDup (SyncQueueItem.id <$> IndexedDB.getSyncQueue d).
Proof.
  intros (_ & _ & Hq). unfold IndexedDB.getSyncQueue. rewrite keyed_queue_ids by done.
  apply NoDup_fst_map_to_list.
Qed.

Lemma getSyncQueue_elem (d : IndexedDB.DB) item :
  IndexedDB.keyed d ->
  item ∈ IndexedDB.getSyncQueue d ↔ IndexedDB.sync_queue d !! SyncQueueItem.id item = Some item.
Proof.
  intros (_ & _ & Hq). unfold IndexedDB.getSyncQueue, IndexedDB.getAll.
  rewrite list_elem_of_fmap. split.
  - intros ([k x] & -> & Hin). apply elem_of_map_to_list in Hin. simpl.
    by rewrite (Hq _ _ Hin).
  - intros Hl. exists (SyncQueueItem.id item, item). split; [done|].
    by apply elem_of_map_to_list.
Qed.

(** One drain, seen from one entry of the queue. *)
Lemma drainQueue_entry (st : State) item :
  IndexedDB.keyed (db st) ->
  IndexedDB.sync_queue (db st) !! SyncQueueItem.id item = Some item ->
  IndexedDB.sync_queue (db (drainQueue st)) !! SyncQueueItem.id item
  = leftInQueue item
      (remoteAfter (remote st) (before (SyncQueueItem.id item) (IndexedDB.getSyncQueue (db st))))
  ∧ (attemptThrows st item -> 3 <= SyncQueueItem.retries (retried item) ->
     warn_removing (retried item) ∈ console (drainQueue st)).
Proof.
  intros Hk Hin. unfold drainQueue, attemptThrows, remoteAt.
  apply foldl_drainItem_queue; [by apply getSyncQueue_NoDup|by apply getSyncQueue_elem].
Qed.

(** A drain never puts an id into the queue that was not there. *)
Lemma drainQueue_absent (st : State) k :
  IndexedDB.keyed (db st) ->
  IndexedDB.sync_queue (db st) !! k = None ->
  IndexedDB.sync_queue (db (drainQueue st)) !! k = None.
Proof.
  intros Hk Hnone. unfold drainQueue.
  destruct (foldl_drainItem_queue (IndexedDB.getSyncQueue (db st)) st
              (getSyncQueue_NoDup _ Hk)) as [Hout _].
  rewrite Hout; [done|]. intros Hin.
  apply list_elem_of_fmap in Hin as (item & -> & Hitem).
  apply getSyncQueue_elem in Hitem; [|done]. congruence.
Qed.

Lemma drainQueue_keyed (st : State) :
  IndexedDB.keyed (db st) -> IndexedDB.keyed (db (drainQueue st)).
Proof.
  intros Hk. pose proof Hk as (Ht & Hl & Hq).
  destruct (foldl_drainItem_stores (IndexedDB.getSyncQueue (db st)) st) as [Et El].
  unfold IndexedDB.keyed. fold (drainQueue st) in Et, El. rewrite Et, El.
  split; [done|]. split; [done|].
  intros k x Hx. simpl.
  destruct (IndexedDB.sync_queue (db st) !! k) as [item|] eqn:E.
  - pose proof (Hq _ _ E) as Hid. simpl in Hid. subst k.
    destruct (drainQueue_entry st item Hk E) as [Hleft _]. rewrite Hleft in Hx.
    unfold leftInQueue in Hx. destruct (processSyncItem _ _); [done|].
    destruct (3 <=? _); [done|]. by injection Hx as <-.
  - rewrite drainQueue_absent in Hx by done. done.
Qed.

Lemma keyed_saveTask x (d : IndexedDB.DB) :
  IndexedDB.keyed d -> IndexedDB.keyed (IndexedDB.saveTask x d).
Proof.
  intros (Ht & Hl & Hq). split; [|done]. simpl. by apply map_Forall_insert_2.
Qed.

Lemma keyed_saveTasks xs (d : IndexedDB.DB) :
  IndexedDB.keyed d -> IndexedDB.keyed (IndexedDB.saveTasks xs d).
Proof.
  revert d. induction xs as [|x xs IH]; intros d Hk; [done|].
  apply IH. by apply keyed_saveTask.
Qed.

Lemma keyed_saveTaskLists xs (d : IndexedDB.DB) :
  IndexedDB.keyed d -> IndexedDB.keyed (IndexedDB.saveTaskLists xs d).
Proof.
  revert d. induction xs as [|x xs IH]; intros d Hk; [done|].
  apply IH. destruct Hk as (Ht & Hl & Hq). split; [done|]. split; [|done].
  simpl. by apply map_Forall_insert_2.
Qed.

Lemma saveTasks_queue xs (d : IndexedDB.DB) :
  IndexedDB.sync_queue (IndexedDB.saveTasks xs d) = IndexedDB.sync_queue d.
Proof. revert d. induction xs as [|x xs IH]; intros d; [done|]. simpl. by rewrite IH. Qed.

Lemma saveTaskLists_queue xs (d : IndexedDB.DB) :
  IndexedDB.sync_queue (IndexedDB.saveTaskLists xs d) = IndexedDB.sync_queue d.
Proof. revert d. induction xs as [|x xs IH]; intros d; [done|]. simpl. by rewrite IH. Qed.

(** A whole run of [syncOfflineData] that gets past its guard leaves the
    queue and the remote store as the loop left them; the refetch only
    touches the cached tasks and lists, and only appends to the console. *)
Lemma syncOfflineData_drain userId (st : State) :
  let st' := syncOfflineData (Some userId) true false st in
  IndexedDB.sync_queue (db st') = IndexedDB.sync_queue (db (drainQueue st))
  ∧ remote st' = remote (drainQueue st)
  ∧ (IndexedDB.keyed (db st) -> IndexedDB.keyed (db st'))
  ∧ (∀ entry, entry ∈ console (drainQueue st) -> entry ∈ console st').
Proof.
  unfold syncOfflineData, fetchAndCacheServerData. simpl.
  destruct (sb_select_tasks userId (remote (drainQueue st))) as [ts|]; simpl.
  - destruct (sb_select_task_lists userId (remote (drainQueue st))) as [ls|]; simpl.
    + rewrite saveTaskLists_queue, saveTasks_queue.
      split; [done|]. split; [done|]. split; [|done].
      intros Hk. by apply keyed_saveTaskLists, keyed_saveTasks, drainQueue_keyed.
    + rewrite saveTasks_queue.
      split; [done|]. split; [done|]. split.
      * intros Hk. by apply keyed_saveTasks, drainQueue_keyed.
      * intros entry Hin. apply elem_of_app. by left.
  - split; [done|]. split; [done|]. split; [apply drainQueue_keyed|].
    intros entry Hin. apply elem_of_app. by left.
Qed.

End DrainFacts.

Section RetryCeiling.
Context {R : Type} `{Supabase R}.
Import OfflineSync.

Lemma leftInQueue_failed (st : State) item :
  attemptThrows st item ->
  leftInQueue item
    (remoteAfter (remote st) (before (SyncQueueItem.id item) (IndexedDB.getSyncQueue (db st))))
  = if 3 <=? SyncQueueItem.retries item + 1 then None else Some (retried item).
Proof. unfold attemptThrows, remoteAt, leftInQueue. by intros ->. Qed.

(** One run of [syncOfflineData] in which the call for an entry throws:
    the entry stays with its retry counter incremented, unless the counter
    reaches three, in which case the entry is removed and a warning logged. *)
Lemma sync_failed_attempt userId (st : State) item :
  IndexedDB.keyed (db st) ->
  IndexedDB.sync_queue (db st) !! SyncQueueItem.id item = Some item ->
  attemptThrows st item ->
  let st' := syncOfflineData (Some userId) true false st in
  IndexedDB.keyed (db st')
  ∧ (SyncQueueItem.retries item + 1 < 3 ->
       IndexedDB.sync_queue (db st') !! SyncQueueItem.id item = Some (retried item))
  ∧ (3 <= SyncQueueItem.retries item + 1 ->
       IndexedDB.sync_queue (db st') !! SyncQueueItem.id item = None
       ∧ warn_removing (retried item) ∈ console st').
Proof.
  intros Hk Hin Hfail st'.
  destruct (syncOfflineData_drain userId st) as (Hq & _ & Hkeyed & Hcon).
  fold st' in Hq, Hkeyed, Hcon.
  destruct (drainQueue_entry st item Hk Hin) as [Hleft Hwarn].
  rewrite leftInQueue_failed in Hleft by done.
  split; [by apply Hkeyed|]. rewrite Hq, Hleft. split.
  - intros Hlt. destruct (Z.leb_spec 3 (SyncQueueItem.retries item + 1)); [lia|done].
  - intros Hge. destruct (Z.leb_spec 3 (SyncQueueItem.retries item + 1)); [|lia].
    split; [done|]. apply Hcon, Hwarn; done.
Qed.

Lemma sync_absent userId (st : State) k n :
  IndexedDB.keyed (db st) ->
  IndexedDB.sync_queue (db st) !! k = None ->
  let st' := Nat.iter n (syncOfflineData (Some userId) true false) st in
  IndexedDB.keyed (db st') ∧ IndexedDB.sync_queue (db st') !! k = None.
Proof.
  intros Hk Hnone. induction n as [|n [IHk IHn]]; [done|]. rewrite Nat.iter_succ.
  destruct (syncOfflineData_drain userId
              (Nat.iter n (syncOfflineData (Some userId) true false) st))
    as (Hq & _ & Hkeyed & _).
  split; [by apply Hkeyed|]. rewrite Hq. by apply drainQueue_absent.
Qed.

(** The [catch] branch of the loop.  An entry enqueued with a zero retry
    counter: after one run of the drain in which awaiting its call throws
    it is still queued, with counter 1; after a second such run, with
    counter 2; after a third such run it is removed from the queue and the
    warning is on the console, and no later run of the drain finds it in
    the queue it reads. *)
Lemma retry_ceiling (userId : string) (st0 : State) (item : SyncQueueItem.t) :
  IndexedDB.keyed (db st0) ->
  IndexedDB.sync_queue (db st0) !! SyncQueueItem.id item = Some item ->
  SyncQueueItem.retries item = 0 ->
  let sync := syncOfflineData (Some userId) true false in
  let st1 := sync st0 in
  let st2 := sync st1 in
  let st3 := sync st2 in
  attemptThrows st0 item ->
  IndexedDB.sync_queue (db st1) !! SyncQueueItem.id item = Some (retried item)
  ∧ SyncQueueItem.retries (retried item) = 1
  ∧ (attemptThrows st1 (retried item) ->
     IndexedDB.sync_queue (db st2) !! SyncQueueItem.id item = Some (retried (retried item))
     ∧ SyncQueueItem.retries (retried (retried item)) = 2
     ∧ (attemptThrows st2 (retried (retried item)) ->
        IndexedDB.sync_queue (db st3) !! SyncQueueItem.id item = None
        ∧ warn_removing (retried (retried (retried item))) ∈ console st3
        ∧ ∀ n, Forall (fun queued => SyncQueueItem.id queued ≠ SyncQueueItem.id item)
                 (IndexedDB.getSyncQueue (db (Nat.iter n sync st3))))).
Proof.
  intros Hk0 Hin0 Hr sync st1 st2 st3 Hf0.
  destruct (sync_failed_attempt userId st0 item Hk0 Hin0 Hf0) as (Hk1 & Hin1 & _).
  fold sync in Hk1, Hin1. fold st1 in Hk1, Hin1.
  specialize (Hin1 ltac:(lia)).
  split; [exact Hin1|]. split; [simpl; lia|]. intros Hf1.
  destruct (sync_failed_attempt userId st1 (retried item) Hk1 Hin1 Hf1) as (Hk2 & Hin2 & _).
  fold sync in Hk2, Hin2. fold st2 in Hk2, Hin2.
  specialize (Hin2 ltac:(simpl; lia)).
  split; [exact Hin2|]. split; [simpl; lia|]. intros Hf2.
  destruct (sync_failed_attempt userId st2 (retried (retried item)) Hk2 Hin2 Hf2)
    as (Hk3 & _ & Hout3).
  fold sync in Hk3, Hout3. fold st3 in Hk3, Hout3.
  destruct (Hout3 ltac:(simpl; lia)) as [Hnone Hwarn].
  split; [exact Hnone|]. split; [exact Hwarn|]. intros n.
  destruct (sync_absent userId st3 (SyncQueueItem.id item) n Hk3 Hnone) as [Hkn Hn].
  fold sync in Hkn, Hn.
  apply Forall_forall. intros queued Hq Heq.
  apply getSyncQueue_elem in Hq; [|done]. rewrite Heq, Hn in Hq. discriminate.
Qed.

End RetryCeiling.

(** A client that throws on the payload of one entry: three runs. *)
Lemma retry_ceiling_witness :
  let sync := OfflineSync.syncOfflineData (Some "u"%string) true false in
  IndexedDB.sync_queue (OfflineSync.db (sync poison_state)) !! "q1"%string
    = Some (OfflineSync.retried poison_item)
  ∧ IndexedDB.sync_queue (OfflineSync.db (sync (sync poison_state))) !! "q1"%string
    = Some (OfflineSync.retried (OfflineSync.retried poison_item))
  ∧ IndexedDB.sync_queue (OfflineSync.db (sync (sync (sync poison_state)))) !! "q1"%string
    = None.
Proof.
  intros sync.
  assert (Hk : IndexedDB.keyed (OfflineSync.db poison_state)) by by_compute.
  assert (Hin : IndexedDB.sync_queue (OfflineSync.db poison_state)
                !! SyncQueueItem.id poison_item = Some poison_item)
    by (vm_compute; reflexivity).
  assert (Hf0 : OfflineSync.attemptThrows poison_state poison_item)
    by (vm_compute; reflexivity).
  assert (Hf1 : OfflineSync.attemptThrows (sync poison_state) (OfflineSync.retried poison_item))
    by (vm_compute; reflexivity).
  assert (Hf2 : OfflineSync.attemptThrows (sync (sync poison_state))
                  (OfflineSync.retried (OfflineSync.retried poison_item)))
    by (vm_compute; reflexivity).
  destruct (retry_ceiling "u" poison_state poison_item Hk Hin eq_refl Hf0)
    as (H1 & _ & Hnext).
  destruct (Hnext Hf1) as (H2 & _ & Hlast).
  destruct (Hlast Hf2) as (H3 & _ & _).
  split; [exact H1|]. split; [exact H2|exact H3].
Defined.

(** *** A write the remote store refuses *)

Section RefusedWrite.
Context {R : Type} `{Supabase R}.
Import OfflineSync.

(** What one pass of the loop can add to the console. *)
Lemma drainItem_console_elem (st : State) item entry :
  entry ∈ console (drainItem st item) ->
  entry ∈ console st
  ∨ (processSyncItem item (remote st) = None
     ∧ (entry = error_processing item ∨ entry = warn_removing (retried item))).
Proof.
  unfold drainItem. destruct (processSyncItem item (remote st)); cbn [console]; [by left|].
  destruct (3 <=? _); cbn [console]; rewrite elem_of_app.
  - intros [?|Hin]; [by left|]. right. split; [done|].
    apply elem_of_cons in Hin as [->|Hin]; [by left|].
    apply list_elem_of_singleton in Hin. by right.
  - intros [?|Hin]; [by left|]. right. split; [done|].
    apply list_elem_of_singleton in Hin. by left.
Qed.

Lemma foldl_drainItem_console_elem items (st : State) entry :
  entry ∈ console (foldl drainItem st items) ->
  entry ∈ console st
  ∨ ∃ it, it ∈ items ∧ (entry = error_processing it ∨ entry = warn_removing (retried it)).
Proof.
  revert st. induction items as [|a l IH]; intros st Hin; [by left|].
  cbn [foldl] in Hin. destruct (IH _ Hin) as [Ha|(it & Hit & Hentry)].
  - destruct (drainItem_console_elem st a entry Ha) as [?|[_ Hentry]]; [by left|].
    right. exists a. split; [by left|done].
  - right. exists it. split; [by right|done].
Qed.

(** The loop logs nothing about an entry whose call resolves. *)
Lemma foldl_drainItem_quiet items (st : State) item entry :
  NoDup (SyncQueueItem.id <$> items) ->
  item ∈ items ->
  is_Some (processSyncItem item
             (remoteAfter (remote st) (before (SyncQueueItem.id item) items))) ->
  entry ∈ console (foldl drainItem st items) ->
  entry ∈ console st
  ∨ ∃ it, SyncQueueItem.id it ≠ SyncQueueItem.id item
          ∧ (entry = error_processing it ∨ entry = warn_removing (retried it)).
Proof.
  revert st. induction items as [|a l IH]; intros st Hnd Hitem Hok Hin.
  { by apply elem_of_nil in Hitem. }
  rewrite fmap_cons in Hnd. apply NoDup_cons in Hnd as [Ha Hnd].
  cbn [foldl] in Hin. apply elem_of_cons in Hitem as [->|Hitem].
  - cbn [before] in Hok. rewrite decide_True in Hok by done.
    cbn [remoteAfter foldl] in Hok.
    destruct (foldl_drainItem_console_elem l _ entry Hin) as [Hc|(it & Hit & Hentry)].
    + destruct (drainItem_console_elem st a entry Hc) as [?|[Hnone _]]; [by left|].
      rewrite Hnone in Hok. by destruct Hok.
    + right. exists it. split; [|done]. intros E. apply Ha. rewrite <- E.
      apply list_elem_of_fmap. eauto.
  - assert (Hne : SyncQueueItem.id a ≠ SyncQueueItem.id item).
    { intros E. apply Ha. rewrite E. apply list_elem_of_fmap. eauto. }
    cbn [before] in Hok. rewrite decide_False in Hok by done.
    replace (remoteAfter (remote st) (a :: before (SyncQueueItem.id item) l))
      with (remoteAfter (remote (drainItem st a)) (before (SyncQueueItem.id item) l)) in Hok
      by (unfold remoteAfter; simpl; by rewrite drainItem_remote).
    destruct (IH (drainItem st a) Hnd Hitem Hok Hin) as [Hc|?]; [|by right].
    destruct (drainItem_console_elem st a entry Hc) as [?|[_ Hentry]]; [by left|].
    right. by exists a.
Qed.

Lemma syncOfflineData_console userId (st : State) entry :
  entry ∈ console (syncOfflineData (Some userId) true false st) ->
  entry ∈ console (drainQueue st) ∨ entry = error_sync_failed.
Proof.
  unfold syncOfflineData, fetchAndCacheServerData. cbn [negb orb].
  destruct (sb_select_tasks userId (remote (drainQueue st))) as [ts|]; cbn [fst snd].
  - destruct (sb_select_task_lists userId (remote (drainQueue st))) as [ls|];
      cbn [fst snd console]; [by left|].
    rewrite elem_of_app, list_elem_of_singleton. tauto.
  - cbn [console]. rewrite elem_of_app, list_elem_of_singleton. tauto.
Qed.

(** C3, on the code.  The claim does not hold for an entry whose write
    the remote store refuses.  The call then resolves with the error in its
    result, [processSyncItem] does not look at the result, and the loop
    goes on as after a write that was carried out: the entry is removed
    from the queue in this first run, its retry counter is never
    incremented, nothing is logged about it (no error, no warning), and no
    later run of the drain reads it.  The claim has it stay queued with
    counter 1, and dropped only after three failures, with a warning. *)
Theorem refused_write_is_dropped (userId : string) (st : State) (item : SyncQueueItem.t)
    (e : string) :
  IndexedDB.keyed (db st) ->
  IndexedDB.sync_queue (db st) !! SyncQueueItem.id item = Some item ->
  attemptRefused st item e ->
  let sync := syncOfflineData (Some userId) true false in
  let st' := sync st in
  IndexedDB.sync_queue (db st') !! SyncQueueItem.id item = None
  ∧ (∀ entry, entry ∈ console st' ->
       entry ∈ console st
       ∨ (entry ≠ error_processing item
          ∧ ∀ queued, SyncQueueItem.id queued = SyncQueueItem.id item ->
                      entry ≠ warn_removing queued))
  ∧ (∀ n, Forall (fun queued => SyncQueueItem.id queued ≠ SyncQueueItem.id item)
            (IndexedDB.getSyncQueue (db (Nat.iter n sync st')))).
Proof.
  intros Hk Hin Href sync st'.
  assert (Hok : processSyncItem item (remoteAt st item) = Some (remoteAt st item)).
  { unfold processSyncItem. by rewrite Href. }
  destruct (syncOfflineData_drain userId st) as (Hq & _ & Hkeyed & _).
  fold sync in Hq, Hkeyed. fold st' in Hq, Hkeyed.
  assert (Hnone : IndexedDB.sync_queue (db st') !! SyncQueueItem.id item = None).
  { rewrite Hq. destruct (drainQueue_entry st item Hk Hin) as [-> _].
    unfold leftInQueue. fold (remoteAt st item). by rewrite Hok. }
  split; [exact Hnone|]. split.
  - intros entry Hentry.
    apply syncOfflineData_console in Hentry as [Hentry| ->].
    2:{ right. split; [done|]. by intros queued _. }
    unfold drainQueue in Hentry.
    destruct (foldl_drainItem_quiet (IndexedDB.getSyncQueue (db st)) st item entry)
      as [?|(it & Hne & Hentry')];
      [by apply getSyncQueue_NoDup|by apply getSyncQueue_elem| |done|by left|].
    { fold (remoteAt st item). by rewrite Hok. }
    right. destruct Hentry' as [->| ->].
    + split; [congruence|]. by intros queued _.
    + split; [done|]. intros queued Hid [= E]. apply Hne. rewrite <- Hid, <- E. done.
  - intros n.
    destruct (sync_absent userId st' (SyncQueueItem.id item) n (Hkeyed Hk) Hnone) as [Hkn Hn].
    fold sync in Hkn, Hn.
    apply Forall_forall. intros queued Hq' Heq.
    apply getSyncQueue_elem in Hq'; [|done]. rewrite Heq, Hn in Hq'. discriminate Hq'.
Qed.

End RefusedWrite.

(** The creation of [T] queued at 10:00 against a table that has a row
    [T]: after one run the queue is empty, the console is empty, the table
    is unchanged, and the refetch has replaced the client's copy by the
    server row. *)
Lemma refused_write_is_dropped_witness :
  let st' := OfflineSync.syncOfflineData (Some "u"%string) true false refused_state in
  OfflineSync.attemptRefused refused_state refused_item
    "duplicate key value violates unique constraint"
  ∧ IndexedDB.sync_queue (OfflineSync.db refused_state) !! "q0"%string = Some refused_item
  ∧ IndexedDB.sync_queue (OfflineSync.db st') !! "q0"%string = None
  ∧ OfflineSync.console st' = []
  ∧ OfflineSync.remote st' = {[ "T"%string := server_row ]}
  ∧ IndexedDB.tasks (OfflineSync.db st') !! "T"%string
    = Some (OfflineSync.asSyncedTask server_row).
Proof.
  cbv zeta.
  assert (Hk : IndexedDB.keyed (OfflineSync.db refused_state)) by by_compute.
  assert (Hin : IndexedDB.sync_queue (OfflineSync.db refused_state)
                !! SyncQueueItem.id refused_item = Some refused_item)
    by (vm_compute; reflexivity).
  assert (Href : OfflineSync.attemptRefused refused_state refused_item
                   "duplicate key value violates unique constraint")
    by (vm_compute; reflexivity).
  destruct (refused_write_is_dropped "u" refused_state refused_item _ Hk Hin Href)
    as (Hnone & _ & _).
  split; [exact Href|]. split; [exact Hin|]. split; [exact Hnone|].
  split; [vm_compute; reflexivity|]. split; vm_compute; reflexivity.
Defined.

(** ** The recurrence expander *)

Lemma parseISODate_parts D :
  Day (parseISODate D) = D ∧ TimeWithinDay (parseISODate D) = 0.
Proof.
  unfold parseISODate. split; [apply Day_MakeDate|apply TimeWithinDay_MakeDate];
    pose proof msPerDay_pos; lia.
Qed.

(** On a host with a fixed offset the switch on the recurrence pattern
    moves a date by [i] days, [7 i] days or [i] months; for the months the
    local date has to be the date of the string, which it is from UTC
    eastwards. *)
Lemma advance_parseISODate {tz : TimeZone} c r D i :
  fixedOffset tz c ->
  (r = monthly -> 0 <= c < msPerDay) ->
  RecurringTasks.advance r (parseISODate D) i = parseISODate (dueAfter r D i).
Proof.
  intros Hc Hm. destruct r; cbn [RecurringTasks.advance dueAfter].
  - reflexivity.
  - rewrite (setDate_getDate c) by done. unfold parseISODate, MakeDate. lia.
  - rewrite (setDate_getDate c) by done. unfold parseISODate, MakeDate. lia.
  - specialize (Hm eq_refl).
    unfold setMonth, getMonth.
    rewrite (LocalTime_fixed c), (UTC_fixed c) by done.
    unfold setUTCMonth, getUTCFullYear, getUTCMonth, getUTCDate.
    assert (HD : Day (parseISODate D + c) = D).
    { unfold parseISODate. fold (MakeDate D c). replace (MakeDate D 0 + c) with (MakeDate D c)
        by (unfold MakeDate; lia). by apply Day_MakeDate. }
    assert (HT : TimeWithinDay (parseISODate D + c) = c).
    { unfold parseISODate. replace (MakeDate D 0 + c) with (MakeDate D c)
        by (unfold MakeDate; lia). by apply TimeWithinDay_MakeDate. }
    rewrite HD, HT. unfold parseISODate, MakeDate. lia.
Qed.

Lemma advance_toISODate {tz : TimeZone} c r D i :
  fixedOffset tz c ->
  (r = monthly -> 0 <= c < msPerDay) ->
  toISODate (RecurringTasks.advance r (parseISODate D) i) = dueAfter r D i.
Proof. intros Hc Hm. rewrite (advance_parseISODate c) by done. apply parseISODate_parts. Qed.

Lemma dueAfter_succ_lt r D i : r ≠ none -> dueAfter r D i < dueAfter r D (i + 1).
Proof.
  intros Hr. destruct r; cbn [dueAfter]; [done|lia|lia|].
  replace (MonthFromDay D + (i + 1)) with (MonthFromDay D + i + 1) by lia.
  rewrite MakeDay_month_succ. pose proof (DaysInMonth_range (YearFromDay D) (MonthFromDay D + i)).
  lia.
Qed.

(** One step on is one rule-step: a day, seven days, or the same day of the
    next month when every month has that day. *)
Lemma dueAfter_ruleStep r D :
  (r = monthly -> DateFromDay D <= 28) ->
  ruleStep r D (dueAfter r D 1).
Proof.
  intros Hd. destruct r; cbn [ruleStep dueAfter]; [done|lia|lia|].
  pose proof (DateFromDay_range D) as Hrange. specialize (Hd eq_refl).
  unfold sameDayNextMonth.
  destruct (MakeDay_inverse (YearFromDay D) (MonthFromDay D + 1) (DateFromDay D))
    as (-> & -> & ->); [lia|done].
Qed.

Lemma instancesFrom_length {tz : TimeZone} userId randomUUID now parentTask r i n :
  (length (RecurringTasks.instancesFrom userId randomUUID now parentTask r i n) <= n)%nat.
Proof.
  revert i. induction n as [|n IH]; intros i; simpl; [lia|].
  destruct (_ >? _); simpl; [lia|]. specialize (IH (S i)). lia.
Qed.

(** The loop, entry by entry. *)
Lemma instancesFrom_lookup {tz : TimeZone} userId randomUUID now parentTask r i n k x :
  RecurringTasks.instancesFrom userId randomUUID now parentTask r i n !! k = Some x ->
  let instanceDate :=
    RecurringTasks.advance r (parseISODate (Task.due_date parentTask)) (Z.of_nat (i + k)) in
  x = RecurringTasks.instance userId (randomUUID (i + k)%nat) now parentTask
        (Task.id parentTask) (toISODate instanceDate)
  ∧ instanceDate <= RecurringTasks.oneYearFromToday now.
Proof.
  revert i k. induction n as [|n IH]; intros i k; simpl; [done|].
  destruct (Z.gtb_spec
              (RecurringTasks.advance r (parseISODate (Task.due_date parentTask)) (Z.of_nat i))
              (RecurringTasks.oneYearFromToday now)) as [Hgt|Hle]; [done|].
  destruct k as [|k]; simpl.
  - intros [= <-]. rewrite Nat.add_0_r. done.
  - intros Hx. apply IH in Hx. by replace (i + S k)%nat with (S i + k)%nat by lia.
Qed.

Lemma generateRecurringInstances_lookup {tz : TimeZone} user randomUUID now parentTask r n k x :
  RecurringTasks.generateRecurringInstances user randomUUID now parentTask r n !! k = Some x ->
  let instanceDate :=
    RecurringTasks.advance r (parseISODate (Task.due_date parentTask)) (Z.of_nat (S k)) in
  ∃ userId, user = Some userId ∧ r ≠ none
  ∧ x = RecurringTasks.instance userId (randomUUID (S k)) now parentTask
          (Task.id parentTask) (toISODate instanceDate)
  ∧ instanceDate <= RecurringTasks.oneYearFromToday now.
Proof.
  unfold RecurringTasks.generateRecurringInstances.
  destruct user as [userId|]; [|done]. case_decide as Hr; [done|].
  intros Hx. apply instancesFrom_lookup in Hx. destruct Hx as [Hx Hle].
  exists userId. split; [reflexivity|]. split; [exact Hr|]. split; [exact Hx|exact Hle].
Qed.

Lemma rows_from_lookup column_defaults current_date parent pid r i n k x :
  Pg.rows_from column_defaults current_date parent pid r i n !! k = Some x ->
  r ≠ none
  ∧ x = Pg.inserted_row column_defaults (i + k)%nat parent pid
          (pgDueAfter r (Task.due_date parent) (Z.of_nat (i + k)))
  ∧ Task.due_date x <= Pg.one_year_after current_date.
Proof.
  revert i k. induction n as [|n IH]; intros i k; simpl; [done|].
  destruct (Pg.new_due_date (Task.due_date parent) r (Z.of_nat i)) as [due|] eqn:E; [|done].
  assert (r ≠ none ∧ due = pgDueAfter r (Task.due_date parent) (Z.of_nat i)) as [Hr ->].
  { destruct r; simpl in *; [done| | |]; by injection E as <-. }
  destruct (Z.gtb_spec (pgDueAfter r (Task.due_date parent) (Z.of_nat i))
              (Pg.one_year_after current_date)) as [Hgt|Hle]; [done|].
  destruct k as [|k]; simpl.
  - intros [= <-]. rewrite Nat.add_0_r. done.
  - intros Hx. apply IH in Hx. by replace (i + S k)%nat with (S i + k)%nat by lia.
Qed.

Lemma consecutive_fmap_lookup {A B} (f : A -> B) (rel : B -> B -> Prop) (l : list A) :
  (∀ k x y, l !! k = Some x -> l !! S k = Some y -> rel (f x) (f y)) ->
  consecutive rel (f <$> l).
Proof.
  intros Hl k a b Ha Hb. rewrite list_lookup_fmap in Ha, Hb.
  destruct (l !! k) as [x|] eqn:Ex; [|done]. destruct (l !! S k) as [y|] eqn:Ey; [|done].
  injection Ha as <-. injection Hb as <-. eauto.
Qed.

(** C2, on the code.  The claim does not hold for the client expander
    ([generateRecurringInstances] as [createRecurringTask] calls it).  It
    reads the due date as midnight UTC, steps it with [setDate] and
    [setMonth], which work on local time, and prints the date at UTC.

    In New York a daily task due 2024-03-08 gets the instances 03-09,
    03-10, 03-10, 03-11: the date 03-10 twice, because the night of 10
    March has 23 hours, and every later instance one day early; the due
    dates are not strictly ordered and the third and fourth are not one
    day after their predecessors.  On a host at UTC the same task gets
    03-09, 03-10, 03-11, 03-12.

    At UTC a monthly task due 2023-01-31 gets 2023-03-03 and 2023-03-31 as
    its first instances: the 31st of February runs over into March, so
    none falls in February and two fall in March.  The database function
    ([generate_recurring_tasks]) gives the same parent 2023-02-28 and
    2023-03-31. *)
Theorem expansion_breaks_rule_step :
  (take 4 dst_instances
   = [isoDate 2024 3 9; isoDate 2024 3 10; isoDate 2024 3 10; isoDate 2024 3 11]
   ∧ ¬ consecutive Z.lt dst_instances
   ∧ ¬ consecutive (ruleStep daily) dst_instances
   ∧ take 4 utc_instances
     = [isoDate 2024 3 9; isoDate 2024 3 10; isoDate 2024 3 11; isoDate 2024 3 12])
  ∧ (take 2 month_end_instances = [isoDate 2023 3 3; isoDate 2023 3 31]
     ∧ ¬ ruleStep monthly (Task.due_date month_end_parent) (isoDate 2023 3 3)
     ∧ ¬ consecutive (ruleStep monthly) month_end_instances
     ∧ take 2 month_end_rows = [isoDate 2023 2 28; isoDate 2023 3 31]).
Proof.
  split.
  - split; [vm_compute; reflexivity|]. split; [|split; [|vm_compute; reflexivity]].
    + intros Hc. specialize (Hc 1%nat (isoDate 2024 3 10) (isoDate 2024 3 10)).
      assert (E : isoDate 2024 3 10 < isoDate 2024 3 10)
        by (apply Hc; vm_compute; reflexivity).
      lia.
    + intros Hc. specialize (Hc 1%nat (isoDate 2024 3 10) (isoDate 2024 3 10)).
      assert (E : ruleStep daily (isoDate 2024 3 10) (isoDate 2024 3 10))
        by (apply Hc; vm_compute; reflexivity).
      cbn [ruleStep] in E. lia.
  - split; [vm_compute; reflexivity|]. split; [|split; [|vm_compute; reflexivity]].
    + intros (_ & Hmonth & _). vm_compute in Hmonth. discriminate Hmonth.
    + intros Hc. specialize (Hc 0%nat (isoDate 2023 3 3) (isoDate 2023 3 31)).
      assert (E : ruleStep monthly (isoDate 2023 3 3) (isoDate 2023 3 31))
        by (apply Hc; vm_compute; reflexivity).
      destruct E as (_ & Hmonth & _). vm_compute in Hmonth. discriminate Hmonth.
Qed.

(** ** What an instance takes from its parent *)

(** C4, amended.  Every instance of the client expander carries the
    parent's title, description, due time, priority, list id, email and push
    flags and lead time, has recurrence [none], the parent's id as
    [recurrence_id] and [is_recurring_parent = false]; besides [due_date]
    and [id] it is also stamped as a new local row: it belongs to the
    current user, has no [completed] member, is [pending] and
    [offline_created], and is created and updated at generation time.
    Every row of the database function carries the same inherited and
    forced columns and the parent's owner, and takes the remaining columns
    from the column defaults. *)
Theorem instance_inherits_parent {tz : TimeZone}
    (userId : string) (randomUUID : nat -> string) (now : Z)
    (parentTask : Task.t) (r : Recurrence) (n : nat)
    (column_defaults : nat -> Task.t) (current_date : Z) (parent_task_id : string) :
  Forall (fun x =>
            inheritsFrom (Task.id parentTask) parentTask x
            ∧ Task.user_id x = userId
            ∧ Task.completed x = None
            ∧ Task.sync_status x = pending
            ∧ Task.offline_created x = Some true
            ∧ Task.created_at x = now
            ∧ Task.updated_at x = now)
    (RecurringTasks.generateRecurringInstances (Some userId) randomUUID now parentTask r n)
  ∧ Forall (fun x =>
              inheritsFrom parent_task_id parentTask x
              ∧ Task.user_id x = Task.user_id parentTask
              ∧ ∃ k, Task.id x = Task.id (column_defaults k)
                     ∧ Task.completed x = Task.completed (column_defaults k)
                     ∧ Task.sync_status x = Task.sync_status (column_defaults k)
                     ∧ Task.created_at x = Task.created_at (column_defaults k)
                     ∧ Task.updated_at x = Task.updated_at (column_defaults k))
      (Pg.rows_from column_defaults current_date parentTask parent_task_id r 1 n).
Proof.
  split.
  - apply Forall_lookup. intros k x Hx.
    apply generateRecurringInstances_lookup in Hx as (u & [= <-] & _ & -> & _).
    unfold inheritsFrom. simpl. repeat split.
  - apply Forall_lookup. intros k x Hx.
    apply rows_from_lookup in Hx as (_ & -> & _).
    unfold inheritsFrom. simpl. repeat split. exists (1 + k)%nat. repeat split.
Qed.

(** C4, as stated, fails: the instances generated at 08:00 by user ["u"]
    for a parent that was fetched from the server (synced, created earlier,
    with a [completed] member) differ from it in [completed], [sync_status],
    [created_at], [updated_at] and [offline_created] as well. *)
Lemma instance_differs_in_bookkeeping :
  let l := RecurringTasks.generateRecurringInstances (tz := utc) (Some "u"%string) instance_ids
      (at_ 8 0)
             series_parent weekly 52 in
  l ≠ []
  ∧ Forall (fun x => inheritsFrom "P" series_parent x ∧ ¬ otherMembersKept series_parent x) l.
Proof.
  split; [vm_compute; discriminate|].
  apply Forall_lookup. intros k x Hx.
  apply generateRecurringInstances_lookup in Hx as (u & _ & _ & -> & _).
  split; [unfold inheritsFrom; simpl; repeat split|].
  intros (Hkept & _). simpl in Hkept. discriminate.
Qed.

(** ** Completion-driven regeneration *)

Lemma find_None_Forall {A} (p : A -> bool) (l : list A) :
  List.find p l = None ↔ Forall (fun y => p y = false) l.
Proof.
  induction l as [|a l IH]; simpl; [by split; [constructor|]|].
  destruct (p a) eqn:E.
  - split; [done|]. intros Hall. apply Forall_cons in Hall as [Ha _]. congruence.
  - rewrite IH. split; [by constructor|]. intros Hall. by apply Forall_cons in Hall as [_ ?].
Qed.

Lemma saveRecurringInstance_db render now queueId notificationId x (w : RecurringTasks.World) :
  RecurringTasks.db (RecurringTasks.saveRecurringInstance render now queueId notificationId x w)
  = IndexedDB.addToSyncQueue task create (TaskData x) queueId now
      (IndexedDB.saveTask x (RecurringTasks.db w)).
Proof. unfold RecurringTasks.saveRecurringInstance. by destruct (Task.push_notification x). Qed.

(** The client's completion handler, case by case. *)
Lemma completeRecurringTask_db {tz : TimeZone} userId render now ids x (w : RecurringTasks.World) :
  let w1 := RecurringTasks.onDb (IndexedDB.saveTask (RecurringTasks.markCompleted x)) w in
  let r := RecurringTasks.resolvedRecurrence x (RecurringTasks.db w1) in
  let due := RecurringTasks.nextDateStr x r in
  let next := RecurringTasks.instance userId (RecurringTasks.nextUUID ids) now x
                (RecurringTasks.seriesOf x) due in
  let w' := RecurringTasks.completeRecurringTask (Some userId) render now ids x w in
  let member := Task.recurrence x ≠ none ∨ Js.truthy_opt (Task.recurrence_id x) = true in
  let inHorizon := RecurringTasks.advance r (parseISODate (Task.due_date x)) 1
                   <= RecurringTasks.oneYearFromNow now in
  let free := Forall (fun y => RecurringTasks.occupies (RecurringTasks.seriesOf x) due y = false)
                (IndexedDB.getTasks userId (RecurringTasks.db w1)) in
  (member ∧ r ≠ none ∧ inHorizon ∧ free ->
     RecurringTasks.db w'
     = IndexedDB.addToSyncQueue task create (TaskData next) (RecurringTasks.nextQueueUUID ids) now
         (IndexedDB.saveTask next (RecurringTasks.db w1)))
  ∧ (¬ (member ∧ r ≠ none ∧ inHorizon ∧ free) -> RecurringTasks.db w' = RecurringTasks.db w1).
Proof.
  intros w1 r due next w' member inHorizon free.
  subst w'. unfold RecurringTasks.completeRecurringTask. fold w1.
  destruct (bool_decide (Task.recurrence x ≠ none) || Js.truthy_opt (Task.recurrence_id x))
    eqn:Em.
  - assert (Hmember : member).
    { apply orb_true_iff in Em as [Em|Em]; [left; by apply bool_decide_eq_true in Em|by right]. }
    fold r. destruct (decide (r ≠ none)) as [Hr|Hr].
    + unfold RecurringTasks.generateNextInstance. fold due.
      destruct (Z.gtb_spec (RecurringTasks.advance r (parseISODate (Task.due_date x)) 1)
                  (RecurringTasks.oneYearFromNow now)) as [Hgt|Hle].
      * split; [|done]. intros (_ & _ & Hh & _). unfold inHorizon in Hh. lia.
      * unfold RecurringTasks.nextDateStr in due. fold due.
        destruct (List.find _ _) as [y|] eqn:Ef.
        -- split; [|done]. intros (_ & _ & _ & Hfree).
           apply find_None_Forall in Hfree. congruence.
        -- split; [intros _; apply saveRecurringInstance_db|].
           intros Hn. exfalso. apply Hn. repeat split; try done.
           by apply find_None_Forall.
    + split; [|done]. intros (_ & Hr' & _). done.
  - split; [|done]. intros (Hm & _). apply orb_false_iff in Em as [E1 E2].
    apply bool_decide_eq_false in E1. destruct Hm as [Hm|Hm]; [done|congruence].
Qed.

(** The provider does not call the handler for a task that is already
    completed in its task list. *)
Lemma handleRecurringCompletion_completed {tz : TimeZone}
    user render now ids tasks id flag updatedTask found
    (w : RecurringTasks.World) :
  List.find (fun y => bool_decide (Task.id y = id)) tasks = Some found ->
  Js.truthy_bool (Task.completed found) = true ->
  TaskContext.handleRecurringCompletion user render now ids tasks id flag updatedTask w = w.
Proof.
  intros Hf Hc. unfold TaskContext.handleRecurringCompletion. rewrite Hf. simpl.
  rewrite Hc. simpl. by rewrite andb_false_r.
Qed.

(** The trigger of the database, case by case. *)
Lemma trigger_cases column_defaults current_date k OLD NEW (tasks : gmap string Task.t) :
  let result := Pg.handle_recurring_task_completion column_defaults current_date k OLD NEW tasks in
  (Task.completed OLD ≠ Some false -> result = None)
  ∧ (Task.recurrence NEW = none -> result = None)
  ∧ (∀ due, Pg.next_due_date (Task.due_date NEW) (Task.recurrence NEW) = Some due ->
       (Exists (fun y => Pg.occupies (Pg.series_of NEW) due y = true) (IndexedDB.getAll tasks)
        -> result = None)
       ∧ (Pg.one_year_after current_date < due -> result = None)
       ∧ (Task.completed NEW = Some true -> Task.completed OLD = Some false ->
          Forall (fun y => Pg.occupies (Pg.series_of NEW) due y = false) (IndexedDB.getAll tasks) ->
          due <= Pg.one_year_after current_date ->
          result = Some (Pg.inserted_row column_defaults k NEW (Pg.series_of NEW) due))).
Proof.
  intros result. subst result. unfold Pg.handle_recurring_task_completion.
  split; [|split].
  - intros Ho. rewrite (bool_decide_eq_false_2 (Task.completed OLD = Some false)) by done.
    by rewrite andb_false_r.
  - intros Hn. rewrite (bool_decide_eq_false_2 (Task.recurrence NEW ≠ none)) by (by intros ?).
    by rewrite andb_false_r.
  - intros due Hdue. rewrite Hdue.
    assert (Hcount : ∀ l : list Task.t,
              length (List.filter (Pg.occupies (Pg.series_of NEW) due) l) = 0%nat
              ↔ Forall (fun y => Pg.occupies (Pg.series_of NEW) due y = false) l).
    { induction l as [|a l IH]; simpl; [by split; [constructor|]|].
      destruct (Pg.occupies (Pg.series_of NEW) due a) eqn:E; simpl.
      - split; [done|]. intros Hall. apply Forall_cons in Hall as [? _]. congruence.
      - rewrite IH. split; [by constructor|]. intros Hall.
        by apply Forall_cons in Hall as [_ ?]. }
    split; [|split].
    + intros Hex. destruct (_ && _ && _); [|done].
      rewrite (bool_decide_eq_false_2 (length _ = 0%nat)); [done|].
      rewrite Hcount. intros Hall. apply Exists_exists in Hex as (y & Hy & Hocc).
      rewrite Forall_forall in Hall. specialize (Hall y Hy). congruence.
    + intros Hlate. destruct (_ && _ && _); [|done].
      destruct (Z.leb_spec due (Pg.one_year_after current_date)); [lia|].
      by rewrite andb_false_r.
    + intros Hn Ho Hfree Hle.
      rewrite (bool_decide_eq_true_2 (Task.completed NEW = Some true)) by done.
      rewrite (bool_decide_eq_true_2 (Task.completed OLD = Some false)) by done.
      assert (Hr : Task.recurrence NEW ≠ none).
      { intros E. rewrite E in Hdue. discriminate. }
      rewrite (bool_decide_eq_true_2 (Task.recurrence NEW ≠ none)) by done. simpl.
      rewrite (bool_decide_eq_true_2 (length _ = 0%nat)) by (by apply Hcount).
      destruct (Z.leb_spec due (Pg.one_year_after current_date)); [done|lia].
Qed.

(** [date + interval 'n months'] from a day every month has. *)
Lemma add_months_small D i :
  DateFromDay D <= 28 ->
  Pg.add_months D i = MakeDay (YearFromDay D) (MonthFromDay D + i) (DateFromDay D).
Proof.
  intros Hd. unfold Pg.add_months.
  pose proof (DaysInMonth_range (YearFromDay D) (MonthFromDay D + i)).
  by rewrite Z.min_l by lia.
Qed.

(** The next date of the trigger is one rule-step on: a day, seven days,
    or the same day of the next month when every month has that day. *)
Lemma next_due_date_ruleStep r D next_due :
  Pg.next_due_date D r = Some next_due ->
  (r = monthly -> DateFromDay D <= 28) ->
  ruleStep r D next_due.
Proof.
  intros Hnext Hd. destruct r; cbn [Pg.next_due_date] in Hnext; [done| | |];
    injection Hnext as <-; cbn [ruleStep]; [done|done|].
  specialize (Hd eq_refl). rewrite add_months_small by done.
  pose proof (DateFromDay_range D) as Hrange. unfold sameDayNextMonth.
  destruct (MakeDay_inverse (YearFromDay D) (MonthFromDay D + 1) (DateFromDay D))
    as (-> & -> & ->); [lia|done].
Qed.




(** ** More on the Local Durable Store, the drain and the sync endpoint *)

(** X1.  [saveTask] is an upsert keyed by [id]: reading the id back yields the
    saved record (nothing when the record is soft-deleted), other ids read
    as before, saving the same record twice is saving it once, a
    [deleteTask] of the id removes it, and the other stores are not touched. *)
Theorem local_store_upsert (x : Task.t) (taskId : string) (d : IndexedDB.DB) :
  IndexedDB.getTask (Task.id x) (IndexedDB.saveTask x d)
    = (if decide (Task.sync_status x ≠ deleted) then Some x else None)
  ∧ (taskId ≠ Task.id x ->
       IndexedDB.getTask taskId (IndexedDB.saveTask x d) = IndexedDB.getTask taskId d)
  ∧ IndexedDB.saveTask x (IndexedDB.saveTask x d) = IndexedDB.saveTask x d
  ∧ IndexedDB.getTask (Task.id x) (IndexedDB.deleteTask (Task.id x) (IndexedDB.saveTask x d))
    = None
  ∧ IndexedDB.task_lists (IndexedDB.saveTask x d) = IndexedDB.task_lists d
  ∧ IndexedDB.sync_queue (IndexedDB.saveTask x d) = IndexedDB.sync_queue d.
Proof.
  unfold IndexedDB.getTask, IndexedDB.saveTask, IndexedDB.deleteTask, IndexedDB.with_tasks.
  cbn [IndexedDB.tasks IndexedDB.task_lists IndexedDB.sync_queue].
  split; [by rewrite lookup_insert_eq|].
  split; [intros Hne; by rewrite lookup_insert_ne|].
  split; [by rewrite insert_insert_eq|].
  split; [by rewrite lookup_delete_eq|done].
Qed.

(** X2.  What [getTasks(userId)] returns after a [saveTask(x)]: the record
    [x] itself when it belongs to the user and is not soft-deleted, and the
    records returned before whose id is not that of [x].  So saving a
    soft-deleted copy hides the task from the list while the record stays in
    the store. *)
Theorem getTasks_after_saveTask (userId : string) (x y : Task.t) (d : IndexedDB.DB) :
  IndexedDB.keyed d ->
  y ∈ IndexedDB.getTasks userId (IndexedDB.saveTask x d) ↔
  (y = x ∧ Task.user_id x = userId ∧ Task.sync_status x ≠ deleted)
  ∨ (y ∈ IndexedDB.getTasks userId d ∧ Task.id y ≠ Task.id x).
Proof.
  intros (Hk & _). rewrite !getTasks_spec.
  unfold IndexedDB.saveTask, IndexedDB.with_tasks. cbn [IndexedDB.tasks]. split.
  - intros ((k & Hl) & Hu & Hs). destruct (decide (k = Task.id x)) as [->|Hne].
    + rewrite lookup_insert_eq in Hl. injection Hl as <-. by left.
    + rewrite lookup_insert_ne in Hl by done. right. split; [eauto|].
      rewrite (Hk _ _ Hl). done.
  - intros [(-> & Hu & Hs)|(((k & Hl) & Hu & Hs) & Hne)].
    + split; [|done]. exists (Task.id x). by rewrite lookup_insert_eq.
    + split; [|done]. exists k. rewrite lookup_insert_ne; [done|].
      rewrite <- (Hk _ _ Hl). done.
Qed.

(** X3.  [addToSyncQueue] with an id that is not in the queue adds one entry,
    with retry counter 0 and the enqueue time, and leaves the entries that
    were there as they are; [removeSyncQueueItem] of that id restores the
    store; [clearSyncQueue] empties the queue; the tasks and lists are not
    touched. *)
Theorem sync_queue_add_remove (ty : EntityType) (act : Action) (p : Payload)
    (uuid : string) (now : Z) (d : IndexedDB.DB) :
  IndexedDB.sync_queue d !! uuid = None ->
  let d' := IndexedDB.addToSyncQueue ty act p uuid now d in
  IndexedDB.getSyncQueue d' ≡ₚ SyncQueueItem.mk uuid ty act p now 0 :: IndexedDB.getSyncQueue d
  ∧ IndexedDB.removeSyncQueueItem uuid d' = d
  ∧ IndexedDB.getSyncQueue (IndexedDB.clearSyncQueue d') = []
  ∧ IndexedDB.tasks d' = IndexedDB.tasks d
  ∧ IndexedDB.task_lists d' = IndexedDB.task_lists d.
Proof.
  intros Hfresh d'. subst d'.
  unfold IndexedDB.getSyncQueue, IndexedDB.getAll, IndexedDB.addToSyncQueue,
    IndexedDB.removeSyncQueueItem, IndexedDB.clearSyncQueue, IndexedDB.with_sync_queue.
  cbn [IndexedDB.tasks IndexedDB.task_lists IndexedDB.sync_queue].
  split.
  { rewrite map_to_list_insert by done. done. }
  split.
  { rewrite delete_insert_id by done. by destruct d. }
  split; [by rewrite map_to_list_empty|done].
Qed.

(** The series store after an upsert of the unrelated task. *)
Lemma getTasks_after_saveTask_witness :
  IndexedDB.keyed series_db
  ∧ (series_parent ∈ IndexedDB.getTasks "u" (IndexedDB.saveTask other_task series_db) ↔
     (series_parent = other_task ∧ Task.user_id other_task = "u"%string
      ∧ Task.sync_status other_task ≠ deleted)
     ∨ (series_parent ∈ IndexedDB.getTasks "u" series_db
        ∧ Task.id series_parent ≠ Task.id other_task)).
Proof.
  assert (Hk : IndexedDB.keyed series_db) by by_compute.
  split; [exact Hk|]. exact (getTasks_after_saveTask "u" other_task series_parent series_db Hk).
Defined.

(** Enqueueing into the empty store and removing the entry again. *)
Lemma sync_queue_add_remove_witness :
  IndexedDB.sync_queue IndexedDB.empty !! "q0"%string = None
  ∧ IndexedDB.removeSyncQueueItem "q0"
      (IndexedDB.addToSyncQueue task create (TaskData other_task) "q0" 0 IndexedDB.empty)
    = IndexedDB.empty.
Proof.
  assert (Hf : IndexedDB.sync_queue IndexedDB.empty !! "q0"%string = None) by reflexivity.
  split; [exact Hf|].
  exact (proj1 (proj2 (sync_queue_add_remove task create (TaskData other_task) "q0" 0
                         IndexedDB.empty Hf))).
Defined.

(** [saveTasks] of rows with distinct ids. *)
Lemma saveTasks_lookup (xs : list Task.t) (d : IndexedDB.DB) :
  NoDup (Task.id <$> xs) ->
  (∀ x, x ∈ xs -> IndexedDB.tasks (IndexedDB.saveTasks xs d) !! Task.id x = Some x)
  ∧ (∀ k, k ∉ Task.id <$> xs ->
          IndexedDB.tasks (IndexedDB.saveTasks xs d) !! k = IndexedDB.tasks d !! k)
  ∧ IndexedDB.task_lists (IndexedDB.saveTasks xs d) = IndexedDB.task_lists d.
Proof.
  revert d. induction xs as [|a xs IH]; intros d Hnd.
  { split; [intros x Hx; by apply elem_of_nil in Hx|done]. }
  rewrite fmap_cons in Hnd. apply NoDup_cons in Hnd as [Ha Hnd].
  unfold IndexedDB.saveTasks. cbn [foldl]. fold (IndexedDB.saveTasks xs (IndexedDB.saveTask a d)).
  destruct (IH (IndexedDB.saveTask a d) Hnd) as (IHin & IHout & IHl).
  split; [|split].
  - intros x Hx. apply elem_of_cons in Hx as [->|Hx]; [|by apply IHin].
    rewrite IHout by done.
    unfold IndexedDB.saveTask, IndexedDB.with_tasks. cbn [IndexedDB.tasks].
    by rewrite lookup_insert_eq.
  - intros k Hk. rewrite fmap_cons in Hk. apply not_elem_of_cons in Hk as [Hne Hk].
    rewrite IHout by done.
    unfold IndexedDB.saveTask, IndexedDB.with_tasks. cbn [IndexedDB.tasks].
    by rewrite lookup_insert_ne.
  - by rewrite IHl.
Qed.

(** [saveTaskLists] does not touch the tasks. *)
Lemma saveTaskLists_tasks (l : list TaskList.t) (d : IndexedDB.DB) :
  IndexedDB.tasks (IndexedDB.saveTaskLists l d) = IndexedDB.tasks d.
Proof.
  revert d. induction l as [|a l IHl]; intros d; [done|].
  unfold IndexedDB.saveTaskLists. cbn [foldl].
  fold (IndexedDB.saveTaskLists l (IndexedDB.saveTaskList a d)). by rewrite IHl.
Qed.

Section DrainMore.
Context {R : Type} `{Supabase R}.
Import OfflineSync.

(** X4.  One run of [syncOfflineData]: an entry whose call does not throw
    is removed from the queue whatever happened to the entries processed
    before it; the run adds no entry; and when no call throws the queue is
    empty afterwards. *)
Theorem drain_removes_synced_entries (userId : string) (st : State) :
  IndexedDB.keyed (db st) ->
  let st' := syncOfflineData (Some userId) true false st in
  (∀ item, IndexedDB.sync_queue (db st) !! SyncQueueItem.id item = Some item ->
           ¬ attemptThrows st item ->
           IndexedDB.sync_queue (db st') !! SyncQueueItem.id item = None)
  ∧ (∀ k, IndexedDB.sync_queue (db st) !! k = None ->
          IndexedDB.sync_queue (db st') !! k = None)
  ∧ ((∀ item, item ∈ IndexedDB.getSyncQueue (db st) -> ¬ attemptThrows st item) ->
     IndexedDB.getSyncQueue (db st') = []).
Proof.
  intros Hk st'.
  destruct (syncOfflineData_drain userId st) as (Hq & _). fold st' in Hq.
  assert (Hgone : ∀ item, IndexedDB.sync_queue (db st) !! SyncQueueItem.id item = Some item ->
                    ¬ attemptThrows st item ->
                    IndexedDB.sync_queue (db st') !! SyncQueueItem.id item = None).
  { intros item Hin Hok. rewrite Hq.
    destruct (drainQueue_entry st item Hk Hin) as [-> _].
    unfold leftInQueue. unfold attemptThrows, remoteAt in Hok.
    by destruct (processSyncItem item _). }
  assert (Habsent : ∀ k, IndexedDB.sync_queue (db st) !! k = None ->
                    IndexedDB.sync_queue (db st') !! k = None).
  { intros k Hnone. rewrite Hq. by apply drainQueue_absent. }
  split; [exact Hgone|]. split; [exact Habsent|].
  intros Hall. unfold IndexedDB.getSyncQueue, IndexedDB.getAll.
  assert (E : IndexedDB.sync_queue (db st') = ∅).
  { apply map_eq. intros k. rewrite lookup_empty.
    destruct (IndexedDB.sync_queue (db st) !! k) as [item|] eqn:Hl; [|by apply Habsent].
    assert (Hid : SyncQueueItem.id item = k) by (destruct Hk as (_ & _ & Hkq); by apply Hkq).
    subst k. apply Hgone; [done|]. apply Hall. by apply getSyncQueue_elem. }
  rewrite E. by rewrite map_to_list_empty.
Qed.

(** X5.  [fetchAndCacheServerData] when both queries succeed: every row the
    server returned is cached under its id with [sync_status = 'synced'];
    a local record whose id the server did not return is kept as it is (the
    refetch never removes a record); the queue and the remote store are not
    touched. *)
Theorem refetch_is_an_upsert (userId : string) (st : State) (ts : list Task.t)
    (ls : list TaskList.t) :
  sb_select_tasks userId (remote st) = Some ts ->
  sb_select_task_lists userId (remote st) = Some ls ->
  NoDup (Task.id <$> ts) ->
  let r := fetchAndCacheServerData userId st in
  r.2 = true
  ∧ (∀ x, x ∈ ts -> IndexedDB.tasks (db r.1) !! Task.id x = Some (asSyncedTask x))
  ∧ (∀ k, k ∉ Task.id <$> ts -> IndexedDB.tasks (db r.1) !! k = IndexedDB.tasks (db st) !! k)
  ∧ IndexedDB.sync_queue (db r.1) = IndexedDB.sync_queue (db st)
  ∧ remote r.1 = remote st.
Proof.
  intros Hts Hls Hnd r. subst r. unfold fetchAndCacheServerData. rewrite Hts, Hls.
  cbn [fst snd db remote].
  assert (Hids : Task.id <$> (asSyncedTask <$> ts) = Task.id <$> ts).
  { rewrite <- list_fmap_compose. by apply list_fmap_ext. }
  assert (Hnd' : NoDup (Task.id <$> (asSyncedTask <$> ts))) by by rewrite Hids.
  destruct (saveTasks_lookup (asSyncedTask <$> ts) (db st) Hnd') as (Hin & Hout & _).
  split; [done|]. split; [|split; [|split; [|done]]].
  - intros x Hx. rewrite saveTaskLists_tasks. apply (Hin (asSyncedTask x)). by apply list_elem_of_fmap_2.
  - intros k Hk. rewrite saveTaskLists_tasks. apply Hout. by rewrite Hids.
  - by rewrite saveTaskLists_queue, saveTasks_queue.
Qed.

End DrainMore.

(** A queue of one creation that the remote store accepts is empty after
    the run. *)
Lemma drain_removes_synced_entries_witness :
  IndexedDB.keyed (OfflineSync.db clean_state)
  ∧ IndexedDB.getSyncQueue
      (OfflineSync.db (OfflineSync.syncOfflineData (Some "u"%string) true false clean_state))
    = [].
Proof.
  assert (Hk : IndexedDB.keyed (OfflineSync.db clean_state)) by by_compute.
  split; [exact Hk|].
  apply (proj2 (proj2 (drain_removes_synced_entries "u" clean_state Hk))).
  intros item Hin Hfail.
  assert (Hq : IndexedDB.getSyncQueue (OfflineSync.db clean_state)
               = [SyncQueueItem.mk "q0" task create (TaskData other_task) 0 0])
    by (vm_compute; reflexivity).
  rewrite Hq in Hin. apply list_elem_of_singleton in Hin. subst item.
  vm_compute in Hfail. discriminate Hfail.
Defined.

(** The local copy of [T] is replaced by the server row, marked synced. *)
Lemma refetch_is_an_upsert_witness :
  NoDup (Task.id <$> [server_row])
  ∧ IndexedDB.tasks
      (OfflineSync.db (OfflineSync.fetchAndCacheServerData "u" stale_state).1) !! "T"%string
    = Some (OfflineSync.asSyncedTask server_row).
Proof.
  assert (Hnd : NoDup (Task.id <$> [server_row])) by (apply NoDup_singleton).
  split; [exact Hnd|].
  assert (Hts : sb_select_tasks "u" (OfflineSync.remote stale_state) = Some [server_row])
    by (vm_compute; reflexivity).
  apply (proj1 (proj2 (refetch_is_an_upsert "u" stale_state [server_row] [] Hts eq_refl Hnd))
           server_row).
  apply list_elem_of_singleton. reflexivity.
Defined.

Lemma processSyncChange_results {tz : TimeZone}
    refuses gen change userId now (r : Server.Results) t :
  Server.processSyncChange refuses gen change userId now r t
  = (fun dt : Server.Results * Server.Tables => (mergeResults r dt.1, dt.2))
    <$> Server.processSyncChange refuses gen change userId now noResults t.
Proof.
  assert (Hr : mergeResults r noResults = r).
  { unfold mergeResults, noResults. cbn. rewrite Z.add_0_r, !app_nil_r. by destruct r. }
  unfold Server.processSyncChange.
  destruct (Server.change_type change), (Server.change_data change) as [data|data];
    try done; destruct (Server.change_action change); cbn [fmap option_fmap option_map].
  - destruct (Server.handleTaskCreate _ _ _ _ _) as [t'|]; cbn; [by rewrite Hr|done].
  - unfold Server.handleTaskUpdate.
    destruct (Server.existingTask _ _ _) as [ts|]; [destruct (ts >? _)|].
    + cbn. unfold mergeResults, Server.addConflict, noResults. cbn.
      by rewrite Z.add_0_r, app_nil_r.
    + destruct (Server.exec _ _ _); cbn; [by rewrite Hr|done].
    + destruct (Server.exec _ _ _); cbn; [by rewrite Hr|done].
  - destruct (Server.handleTaskDelete _ _ _ _) as [t'|]; cbn; [by rewrite Hr|done].
  - destruct (Server.handleTaskListCreate _ _ _ _) as [t'|]; cbn; [by rewrite Hr|done].
  - unfold Server.handleTaskListUpdate.
    destruct (Server.existingList _ _ _) as [ts|]; [destruct (ts >? _)|].
    + cbn. unfold mergeResults, Server.addConflict, noResults. cbn.
      by rewrite Z.add_0_r, app_nil_r.
    + destruct (Server.exec _ _ _); cbn; [by rewrite Hr|done].
    + destruct (Server.exec _ _ _); cbn; [by rewrite Hr|done].
  - destruct (Server.handleTaskListDelete _ _ _ _) as [t'|]; cbn; [by rewrite Hr|done].
Qed.

(** What one change contributes to the results: it is counted or it is an
    error, and it adds at most one conflict, only when it is counted. *)
Lemma processSyncChange_contribution {tz : TimeZone} refuses gen change userId now t dr t' :
  Server.processSyncChange refuses gen change userId now noResults t = Some (dr, t') ->
  Server.processed dr = 0 ∧ Server.errors dr = []
  ∧ (length (Server.conflicts dr) <= 1)%nat.
Proof.
  unfold Server.processSyncChange.
  destruct (Server.change_type change), (Server.change_data change) as [data|data];
    try done; destruct (Server.change_action change); cbn [fmap option_fmap option_map].
  - destruct (Server.handleTaskCreate _ _ _ _ _); cbn; intros [= <- <-]; cbn; auto.
  - unfold Server.handleTaskUpdate.
    destruct (Server.existingTask _ _ _) as [ts|]; [destruct (ts >? _)|].
    + intros [= <- <-]. cbn. auto.
    + destruct (Server.exec _ _ _); intros [= <- <-]; cbn; auto.
    + destruct (Server.exec _ _ _); intros [= <- <-]; cbn; auto.
  - destruct (Server.handleTaskDelete _ _ _ _); cbn; intros [= <- <-]; cbn; auto.
  - destruct (Server.handleTaskListCreate _ _ _ _); cbn; intros [= <- <-]; cbn; auto.
  - unfold Server.handleTaskListUpdate.
    destruct (Server.existingList _ _ _) as [ts|]; [destruct (ts >? _)|].
    + intros [= <- <-]. cbn. auto.
    + destruct (Server.exec _ _ _); intros [= <- <-]; cbn; auto.
    + destruct (Server.exec _ _ _); intros [= <- <-]; cbn; auto.
  - destruct (Server.handleTaskListDelete _ _ _ _); cbn; intros [= <- <-]; cbn; auto.
Qed.

(** The loop, from any point of the batch on: the results so far are only
    added to. *)
Lemma foldl_syncStep_merge {tz : TimeZone} refuses gen userId now changes (r : Server.Results) t :
  foldl (Server.syncStep refuses gen userId now) (r, t) changes
  = (mergeResults r (foldl (Server.syncStep refuses gen userId now) (noResults, t) changes).1,
     (foldl (Server.syncStep refuses gen userId now) (noResults, t) changes).2).
Proof.
  revert r t. induction changes as [|c changes IH]; intros r t.
  { cbn. unfold mergeResults, noResults. cbn. rewrite Z.add_0_r, !app_nil_r. by destruct r. }
  cbn [foldl]. unfold Server.syncStep at 2 4 6. cbn [fst snd].
  rewrite (processSyncChange_results _ _ _ _ _ r).
  destruct (Server.processSyncChange refuses gen c userId now noResults t) as [[dr t']|] eqn:E;
    cbn [fmap option_fmap option_map fst snd].
  - destruct (processSyncChange_contribution _ _ _ _ _ _ _ _ E) as (Hp & He & _).
    rewrite (IH (Server.mkResults _ _ _) t').
    rewrite (IH (Server.mkResults (Server.processed dr + 1) _ _) t').
    f_equal. unfold mergeResults. cbn. rewrite Hp, He. cbn. rewrite !app_nil_r.
    f_equal; [lia|by rewrite app_assoc].
  - rewrite (IH (Server.mkResults _ _ _) t).
    rewrite (IH (Server.mkResults (Server.processed noResults) _ _) t).
    f_equal. unfold mergeResults, noResults. cbn.
    f_equal. by rewrite <- app_assoc.
Qed.

(** The counters of a batch. *)
Lemma sync_results_accounting {tz : TimeZone}
    (refuses : Server.Write -> bool) (gen_random_uuid : nat -> string)
    (userId : string) (now : Z) (changes : list Server.Change) (t : Server.Tables) :
  let r := (Server.sync refuses gen_random_uuid userId now changes t).1 in
  Server.processed r + Z.of_nat (length (Server.errors r)) = Z.of_nat (length changes)
  ∧ Z.of_nat (length (Server.conflicts r)) <= Server.processed r
  ∧ sublist (Server.errors r) changes.
Proof.
  unfold Server.sync. fold noResults. cbv zeta. revert t.
  induction changes as [|c changes IH]; intros t; [cbn; repeat split; [lia|constructor]|].
  cbn [foldl].
  destruct (Server.processSyncChange refuses gen_random_uuid c userId now noResults t)
    as [[dr t']|] eqn:E.
  - destruct (processSyncChange_contribution _ _ _ _ _ _ _ _ E) as (Hp & He & Hc).
    assert (Hs : Server.syncStep refuses gen_random_uuid userId now (noResults, t) c
                 = (Server.mkResults (Server.processed dr + 1) (Server.errors dr)
                      (Server.conflicts dr), t')).
    { unfold Server.syncStep. cbn [fst snd]. by rewrite E. }
    rewrite Hs, foldl_syncStep_merge. cbn [fst]. destruct (IH t') as (IH1 & IH2 & IH3).
    unfold mergeResults. cbn -[noResults]. rewrite Hp, He. cbn -[noResults].
    rewrite length_app. split; [lia|]. split; [lia|]. by apply sublist_cons.
  - assert (Hs : Server.syncStep refuses gen_random_uuid userId now (noResults, t) c
                 = (Server.mkResults 0 [c] [], t)).
    { unfold Server.syncStep. cbn [fst snd]. by rewrite E. }
    rewrite Hs, foldl_syncStep_merge. cbn [fst]. destruct (IH t) as (IH1 & IH2 & IH3).
    unfold mergeResults. cbn -[noResults].
    split; [lia|]. split; [lia|]. by apply sublist_skip.
Qed.

(** X6.  The result of [POST /api/sync]: every change is either counted in
    [processed] or listed in [errors], the errors are changes of the batch
    in batch order, and every conflict belongs to a counted change (a
    conflicting update counts as processed). *)
Theorem sync_accounting {tz : TimeZone}
    (refuses : Server.Write -> bool) (gen_random_uuid : nat -> string)
    (userId : string) (now : Z) (changes : list Server.Change) (t : Server.Tables) :
  let r := (Server.sync refuses gen_random_uuid userId now changes t).1 in
  Server.processed r + Z.of_nat (length (Server.errors r)) = Z.of_nat (length changes)
  ∧ Z.of_nat (length (Server.conflicts r)) <= Server.processed r
  ∧ sublist (Server.errors r) changes.
Proof. exact (sync_results_accounting refuses gen_random_uuid userId now changes t). Qed.

(** X7.  A change that throws does not abort the batch: the tables, the
    [processed] count and the conflicts are those of the batch without that
    change, and the change is inserted into [errors] at its place. *)
Theorem sync_error_isolation {tz : TimeZone}
    (refuses : Server.Write -> bool) (gen_random_uuid : nat -> string)
    (userId : string) (now : Z) (pre rest : list Server.Change) (c : Server.Change)
    (t : Server.Tables) :
  Server.processSyncChange refuses gen_random_uuid c userId now noResults
    (Server.sync refuses gen_random_uuid userId now pre t).2 = None ->
  let a := Server.sync refuses gen_random_uuid userId now (pre ++ c :: rest) t in
  let b := Server.sync refuses gen_random_uuid userId now (pre ++ rest) t in
  a.2 = b.2
  ∧ Server.processed a.1 = Server.processed b.1
  ∧ Server.conflicts a.1 = Server.conflicts b.1
  ∧ ∃ e1 e2, Server.errors b.1 = e1 ++ e2 ∧ Server.errors a.1 = e1 ++ c :: e2.
Proof.
  intros Hfail a b. subst a b. unfold Server.sync in *. fold noResults in *.
  rewrite !foldl_app.
  destruct (foldl (Server.syncStep refuses gen_random_uuid userId now) (noResults, t) pre)
    as [rp tp] eqn:Hpre.
  cbn [snd] in Hfail. cbn [foldl].
  assert (Hs : Server.syncStep refuses gen_random_uuid userId now (rp, tp) c
               = (Server.mkResults (Server.processed rp) (Server.errors rp ++ [c])
                    (Server.conflicts rp), tp)).
  { unfold Server.syncStep. cbn [fst snd].
    by rewrite processSyncChange_results, Hfail. }
  rewrite Hs, (foldl_syncStep_merge _ _ _ _ _ rp), (foldl_syncStep_merge _ _ _ _ _ (Server.mkResults _ _ _)).
  cbn [fst snd]. split; [done|]. unfold mergeResults. cbn -[noResults].
  split; [done|]. split; [done|].
  eexists _, _. split; [done|]. by rewrite <- app_assoc.
Qed.

(** X8.  An update or delete sent through [POST /api/sync] by user [userId]
    leaves every task list owned by someone else as it is, and a task
    update or task delete leaves every task owned by someone else as it is,
    whatever id the payload names. *)
Theorem sync_scoped_to_owner {tz : TimeZone}
    (refuses : Server.Write -> bool) (gen_random_uuid : nat -> string)
    (userId : string) (now : Z) (r : Server.Results) (t : Server.Tables)
    (change : Server.Change) :
  Server.change_action change ≠ create ->
  let t' := (Server.syncStep refuses gen_random_uuid userId now (r, t) change).2 in
  (∀ k l, Server.task_lists t !! k = Some l -> TaskList.user_id l ≠ userId ->
          Server.task_lists t' !! k = Some l)
  ∧ (Server.change_type change = task ->
     ∀ k x, Server.tasks t !! k = Some x -> Task.user_id x ≠ userId ->
            Server.tasks t' !! k = Some x).
Proof.
  intros Hact t'. subst t'. unfold Server.syncStep. cbn [fst snd].
  unfold Server.processSyncChange.
  destruct (Server.change_type change), (Server.change_data change) as [data|data];
    try (cbn; by split);
    destruct (Server.change_action change); try done;
    cbn [fmap option_fmap option_map].
  - (* task update *)
    unfold Server.handleTaskUpdate.
    destruct (Server.existingTask _ _ _) as [ts|] eqn:Eex; [destruct (ts >? _)|];
      try (cbn; by split).
    + unfold Server.exec. destruct (refuses _); [cbn; by split|]. cbn.
      unfold Server.existingTask in Eex.
      destruct (Server.tasks t !! Task.id data) as [old|] eqn:Eold; [|done].
      destruct (decide (Task.user_id old = userId)) as [Hu|]; [|done].
      cbn. split; [done|]. intros _ k x Hx Hne.
      rewrite lookup_insert_ne; [done|]. intros <-. congruence.
    + unfold Server.exec. destruct (refuses _); [cbn; by split|]. cbn.
      unfold Server.existingTask in Eex.
      destruct (Server.tasks t !! Task.id data) as [old|] eqn:Eold; [|cbn; by split].
      destruct (decide (Task.user_id old = userId)) as [Hu|]; [done|]. cbn. by split.
  - (* task delete *)
    unfold Server.handleTaskDelete, Server.exec. destruct (refuses _); [cbn; by split|].
    cbn. split; [done|]. intros _ k x Hx Hne.
    apply map_lookup_filter_Some. split; [done|]. cbn. intros [_ ?]. done.
  - (* list update *)
    unfold Server.handleTaskListUpdate.
    destruct (Server.existingList _ _ _) as [ts|] eqn:Eex; [destruct (ts >? _)|];
      try (cbn; by split).
    + unfold Server.exec. destruct (refuses _); [cbn; by split|]. cbn.
      unfold Server.existingList in Eex.
      destruct (Server.task_lists t !! TaskList.id data) as [old|] eqn:Eold; [|done].
      destruct (decide (TaskList.user_id old = userId)) as [Hu|]; [|done].
      cbn. split; [|done]. intros k l Hl Hne.
      rewrite lookup_insert_ne; [done|]. intros <-. congruence.
    + unfold Server.exec. destruct (refuses _); [cbn; by split|]. cbn.
      unfold Server.existingList in Eex.
      destruct (Server.task_lists t !! TaskList.id data) as [old|] eqn:Eold; [|cbn; by split].
      destruct (decide (TaskList.user_id old = userId)) as [Hu|]; [done|]. cbn. by split.
  - (* list delete *)
    unfold Server.handleTaskListDelete, Server.exec. destruct (refuses _); [cbn; by split|].
    cbn. destruct (Server.task_lists t !! TaskList.id data) as [old|] eqn:Eold; [|cbn; by split].
    destruct (decide (TaskList.user_id old = userId)) as [Hu|]; [|cbn; by split].
    cbn. split; [|done]. intros k l Hl Hne.
    rewrite lookup_delete_ne; [done|]. intros <-. congruence.
Qed.


(** X10.  A task delete sent through [POST /api/sync] is applied whatever
    the client timestamp: the rows of the user with that id are removed, no
    conflict and no error is recorded, and the change is counted. *)
Theorem delete_has_no_conflict_check {tz : TimeZone} (refuses : Server.Write -> bool)
    (gen_random_uuid : nat -> string) (data : Task.t) (userId : string)
    (Tc now : Z) (results : Server.Results) (t : Server.Tables) :
  refuses (Server.DeleteTask (Task.id data) userId) = false ->
  let change := Server.mkChange task delete (TaskData data) Tc in
  let step := Server.syncStep refuses gen_random_uuid userId now (results, t) change in
  (∀ k x, Server.tasks step.2 !! k = Some x ↔
          Server.tasks t !! k = Some x ∧ ¬ (Task.id x = Task.id data ∧ Task.user_id x = userId))
  ∧ Server.task_lists step.2 = Server.task_lists t
  ∧ Server.conflicts step.1 = Server.conflicts results
  ∧ Server.errors step.1 = Server.errors results
  ∧ Server.processed step.1 = Server.processed results + 1.
Proof.
  intros Hacc change step. subst step change.
  unfold Server.syncStep, Server.processSyncChange, Server.handleTaskDelete, Server.exec.
  cbn [fst snd Server.change_type Server.change_data Server.change_action].
  rewrite Hacc. cbn. split; [|done].
  intros k x. rewrite map_lookup_filter_Some. cbn. done.
Qed.


(** A bulk insert, row by row. *)
Lemma foldr_insertTask_lookup (rows : list Task.t) (m : gmap string Task.t) k :
  (k ∉ Task.id <$> rows -> foldr Server.insertTask m rows !! k = m !! k)
  ∧ (∀ x, foldr Server.insertTask m rows !! k = Some x -> m !! k = Some x ∨ x ∈ rows).
Proof.
  induction rows as [|a rows [IH1 IH2]]; [by split; [|left]|].
  cbn [foldr]. unfold Server.insertTask at 1 3. split.
  - rewrite fmap_cons. intros [Hne Hk]%not_elem_of_cons.
    rewrite lookup_insert_ne by done. by apply IH1.
  - intros x. destruct (decide (Task.id a = k)) as [<-|Hne].
    + rewrite lookup_insert_eq. intros [= <-]. right. by left.
    + rewrite lookup_insert_ne by done. intros Hx.
      destruct (IH2 x Hx) as [?|?]; [by left|right; by right].
Qed.

(** X12.  [handleTaskCreate]: the row inserted belongs to the authenticated
    user and is marked synced, whatever the payload says.  When the store
    refuses the insert the handler throws; otherwise it returns normally,
    also when generating the instances fails, the row is in the table under
    the payload's id, and every other new row is an instance of it owned by
    the same user. *)
Theorem task_create_forces_owner {tz : TimeZone} (refuses : Server.Write -> bool)
    (gen_random_uuid : nat -> string) (data : Task.t) (userId : string) (t : Server.Tables) :
  (∀ i, gen_random_uuid i ≠ Task.id data) ->
  let row := Server.taskCreateData data userId in
  let res := Server.handleTaskCreate refuses gen_random_uuid data userId t in
  Task.user_id row = userId ∧ Task.sync_status row = synced
  ∧ (refuses (Server.InsertTask row) = true -> res = None)
  ∧ (refuses (Server.InsertTask row) = false ->
     ∃ t', res = Some t'
       ∧ Server.tasks t' !! Task.id data = Some row
       ∧ Server.task_lists t' = Server.task_lists t
       ∧ ∀ k x, Server.tasks t' !! k = Some x -> k ≠ Task.id data ->
           Server.tasks t !! k = Some x
           ∨ (Task.recurrence_id x = Some (Task.id data) ∧ Task.user_id x = userId
              ∧ Task.recurrence x = none ∧ Task.is_recurring_parent x = false)).
Proof.
  intros Hfresh row res. subst res. split; [done|]. split; [done|].
  unfold Server.handleTaskCreate. cbv zeta. fold row. split.
  { unfold Server.exec at 1. intros ->. done. }
  unfold Server.exec at 1. intros ->. cbn [Server.apply].
  set (t1 := Server.mkTables (Server.insertTask row (Server.tasks t)) (Server.task_lists t)).
  assert (H1 : Server.tasks t1 !! Task.id data = Some row).
  { unfold t1, Server.insertTask. cbn. by rewrite lookup_insert_eq. }
  assert (H1' : ∀ k x, Server.tasks t1 !! k = Some x -> k ≠ Task.id data ->
                       Server.tasks t !! k = Some x).
  { intros k x Hx Hne. unfold t1, Server.insertTask in Hx. cbn in Hx.
    by rewrite lookup_insert_ne in Hx. }
  destruct (bool_decide (Task.recurrence data ≠ none) && Task.is_recurring_parent data);
    [|exists t1; repeat split; [done|]; intros k x Hx Hne; left; by apply H1'].
  unfold Server.generateRecurringInstances.
  set (rows := Server.instanceRows gen_random_uuid (Task.id data) (Task.recurrence data) row).
  assert (Hrows : ∀ x, x ∈ rows ->
            (∃ i, Task.id x = gen_random_uuid i)
            ∧ Task.recurrence_id x = Some (Task.id data) ∧ Task.user_id x = userId
            ∧ Task.recurrence x = none ∧ Task.is_recurring_parent x = false).
  { intros x Hx. unfold rows, Server.instanceRows in Hx.
    apply list_elem_of_fmap in Hx as (i & -> & _). split; [by exists i|done]. }
  destruct (bool_decide (rows = []));
    [exists t1; repeat split; [done|]; intros k x Hx Hne; left; by apply H1'|].
  unfold Server.exec. destruct (refuses _);
    [exists t1; repeat split; [done|]; intros k x Hx Hne; left; by apply H1'|].
  eexists. split; [done|]. cbn [Server.apply Server.tasks Server.task_lists].
  destruct (foldr_insertTask_lookup rows (Server.tasks t1) (Task.id data)) as [Hout _].
  split; [|split; [done|]].
  - rewrite Hout; [done|]. intros Hin. apply list_elem_of_fmap in Hin as (x & Hid & Hx).
    destruct (Hrows x Hx) as ((i & Hi) & _). apply (Hfresh i). congruence.
  - intros k x Hx Hne.
    destruct (foldr_insertTask_lookup rows (Server.tasks t1) k) as [_ Hin].
    destruct (Hin x Hx) as [Hold|Hnew]; [left; by apply H1'|right].
    by destruct (Hrows x Hnew) as (_ & ?).
Qed.

(** X13.  [DELETE /api/tasks/:id] answers 204, 404 or 500; it answers 404
    exactly when the user has no row with that id; and whenever it answers
    404 or 500 the tables are as they were. *)
Theorem delete_endpoint_errors (refuses : Server.Write -> bool) (id userId : string)
    (t : Server.Tables) :
  let r := Server.deleteTaskEndpoint refuses id userId t in
  (r.1 = 204 ∨ r.1 = 404 ∨ r.1 = 500)
  ∧ (r.1 = 404 ↔ Server.existingTask id userId t = None)
  ∧ (r.1 = 404 ∨ r.1 = 500 -> r.2 = t).
Proof.
  intros r. subst r. unfold Server.deleteTaskEndpoint, Server.existingTask, Server.exec.
  destruct (Server.tasks t !! id) as [row|]; [|cbn; split; [auto|split; [done|done]]].
  destruct (decide (Task.user_id row = userId)); [|cbn; split; [auto|split; [done|done]]].
  destruct (Task.is_recurring_parent row), (refuses _); cbn;
    (split; [auto|split; [split; discriminate|]]); try done;
    intros [?|?]; discriminate.
Qed.

(** A refused creation followed by an update. *)
Lemma sync_error_isolation_witness :
  (let a := Server.sync (tz := utc) rejects_inserts no_uuid "u" (at_ 10 6)
              ([] ++ Server.mkChange task create (TaskData other_task) (at_ 10 0)
                  :: [Server.mkChange task update (TaskData client_copy) (at_ 10 5)])
              server_tables in
   let b := Server.sync (tz := utc) rejects_inserts no_uuid "u" (at_ 10 6)
              ([] ++ [Server.mkChange task update (TaskData client_copy) (at_ 10 5)])
              server_tables in
   a.2 = b.2 ∧ Server.processed a.1 = Server.processed b.1).
Proof.
  assert (Hf : Server.processSyncChange (tz := utc) rejects_inserts no_uuid
                 (Server.mkChange task create (TaskData other_task) (at_ 10 0)) "u" (at_ 10 6)
                 noResults (Server.sync (tz := utc) rejects_inserts no_uuid "u" (at_ 10 6) []
                     server_tables).2
               = None) by reflexivity.
  pose proof (sync_error_isolation (tz := utc) rejects_inserts no_uuid "u" (at_ 10 6) []
                [Server.mkChange task update (TaskData client_copy) (at_ 10 5)]
                (Server.mkChange task create (TaskData other_task) (at_ 10 0))
                server_tables Hf) as (Ht & Hp & _).
  split; [exact Ht|exact Hp].
Defined.

(** User [v] sends an update for the task [T] of user [u]. *)
Lemma sync_scoped_to_owner_witness :
  Server.tasks
    (Server.syncStep (tz := utc) accepts_all no_uuid "v" (at_ 10 6) (noResults, server_tables)
       (Server.mkChange task update (TaskData client_copy) (at_ 10 5))).2 !! "T"%string
  = Some server_row.
Proof.
  assert (Ha : Server.change_action
                 (Server.mkChange task update (TaskData client_copy) (at_ 10 5)) ≠ create)
    by discriminate.
  apply (proj2 (sync_scoped_to_owner (tz := utc) accepts_all no_uuid "v" (at_ 10 6) noResults
                  server_tables _ Ha) eq_refl "T"%string server_row).
  - reflexivity.
  - discriminate.
Defined.


(** Deleting [T] with a client timestamp older than the server row. *)
Lemma delete_has_no_conflict_check_witness :
  let step := Server.syncStep (tz := utc) accepts_all no_uuid "u" (at_ 10 6) (noResults,
      server_tables)
                (Server.mkChange task delete (TaskData client_copy) (at_ 10 0)) in
  Server.conflicts step.1 = [] ∧ Server.processed step.1 = 1.
Proof.
  destruct (delete_has_no_conflict_check (tz := utc) accepts_all no_uuid client_copy "u" (at_ 10 0)
              (at_ 10 6) noResults server_tables eq_refl) as (_ & _ & Hc & _ & Hp).
  split; [exact Hc|exact Hp].
Defined.

(** User [v] creates the weekly parent [P]. *)
Lemma task_create_forces_owner_witness :
  (∀ i, instance_ids i ≠ Task.id series_parent)
  ∧ ∃ t', Server.handleTaskCreate (tz := utc) accepts_all instance_ids series_parent "v"
      no_tables = Some t'
          ∧ Server.tasks t' !! "P"%string = Some (Server.taskCreateData series_parent "v").
Proof.
  assert (Hfresh : ∀ i, instance_ids i ≠ Task.id series_parent).
  { intros i. unfold instance_ids. simpl. discriminate. }
  split; [exact Hfresh|].
  destruct (task_create_forces_owner (tz := utc) accepts_all instance_ids series_parent "v"
      no_tables Hfresh)
    as (_ & _ & _ & Hok).
  destruct (Hok eq_refl) as (t' & Hres & Hrow & _).
  exists t'. split; [exact Hres|exact Hrow].
Defined.



(** ** The server half of the reminder scheduler *)

(** X14.  The SQL lead-time [CASE] is total: for every string the interval is
    between 3 minutes and 1 day, it is 10 minutes for every string that is
    not one of the twelve options, it agrees with the JavaScript table on the
    twelve options, and so [calculate_notification_time] is always strictly
    before the due date-time. *)
Theorem sql_lead_interval (notification_time : string) (due_date due_time : Z) :
  3 * 60 * 1000 <= Pg.notification_interval notification_time <= 24 * 60 * 60 * 1000
  ∧ (notification_time ∉ Notifications.leadOptions ->
     Pg.notification_interval notification_time = 10 * 60 * 1000)
  ∧ (∀ lead, Notifications.timingMap !! notification_time = Some lead ->
       Pg.notification_interval notification_time = lead)
  ∧ Pg.calculate_notification_time due_date due_time notification_time
    < parseDateTime due_date due_time.
Proof.
  assert (Hb : 3 * 60 * 1000 <= Pg.notification_interval notification_time
               <= 24 * 60 * 60 * 1000).
  { unfold Pg.notification_interval. repeat case_bool_decide; lia. }
  split; [exact Hb|]. split; [|split].
  - intros Hout. unfold Pg.notification_interval.
    repeat (case_bool_decide as E;
            [exfalso; apply Hout; rewrite E; unfold Notifications.leadOptions;
             apply (bool_decide_unpack _); vm_compute; exact I|clear E]).
    done.
  - intros lead Hl. pose proof (timingMap_lookup_Some _ _ Hl) as [Hin _].
    unfold Notifications.leadOptions in Hin.
    repeat (apply elem_of_cons in Hin as [->|Hin];
            [vm_compute in Hl; injection Hl as <-; vm_compute; reflexivity|]).
    by apply elem_of_nil in Hin.
  - unfold Pg.calculate_notification_time. lia.
Qed.

(** What a scan returns. *)
Lemma scan_spec flag users now (tasks : gmap string Task.t) x email :
  (x, email) ∈ PgScan.scan flag users now tasks ↔
  (∃ k, tasks !! k = Some x) ∧ users !! Task.user_id x = Some email
  ∧ Task.completed x = Some false ∧ flag x = true
  ∧ PgScan.in_window
      (Pg.calculate_notification_time (Task.due_date x) (Task.due_time x)
         (Task.notification_time x)) now = true.
Proof.
  unfold PgScan.scan, IndexedDB.getAll. rewrite list_elem_of_omap. split.
  - intros (y & Hy & Hj). apply list_elem_of_In, filter_In in Hy as [Hy Hd].
    apply list_elem_of_In, list_elem_of_fmap in Hy as ([k z] & -> & Hkz).
    apply elem_of_map_to_list in Hkz. cbn [snd] in *.
    unfold PgScan.joined in Hj. destruct (users !! Task.user_id z) as [e|] eqn:He; [|done].
    injection Hj as <- <-. unfold PgScan.due in Hd.
    apply andb_true_iff in Hd as [[Hc Hf]%andb_true_iff Hw].
    apply bool_decide_eq_true in Hc. split; [eauto|done].
  - intros ((k & Hk) & He & Hc & Hf & Hw). exists x. split.
    + apply list_elem_of_In, filter_In. split.
      * apply list_elem_of_In, list_elem_of_fmap. exists (k, x). split; [done|].
        by apply elem_of_map_to_list.
      * unfold PgScan.due. rewrite Hf, Hw, (bool_decide_eq_true_2 _ Hc). done.
    + unfold PgScan.joined. by rewrite He.
Qed.

(** The window of a scan, for either channel. *)
Lemma scan_window_generic flag users (tasks : gmap string Task.t) x email s1 s2 :
  s1 <= s2 ->
  let scan := PgScan.scan flag users in
  ((x, email) ∈ scan s1 tasks -> (x, email) ∈ scan s2 tasks -> s2 - s1 <= 2 * 60 * 1000)
  ∧ (s2 - s1 <= 2 * 60 * 1000 ->
     ∀ now, s1 <= now <= s2 -> (x, email) ∈ scan now tasks ->
            (x, email) ∈ scan s1 tasks ∨ (x, email) ∈ scan s2 tasks).
Proof.
  intros Hle scan. subst scan. split.
  - rewrite !scan_spec. intros (_ & _ & _ & _ & H1) (_ & _ & _ & _ & H2).
    unfold PgScan.in_window in *. lia.
  - intros Hgap now Hnow. rewrite !scan_spec. intros (Hk & He & Hc & Hf & Hw).
    unfold PgScan.in_window in *.
    set (fire := Pg.calculate_notification_time _ _ _) in *.
    destruct (Z.le_gt_cases fire (s1 + 60 * 1000)).
    + left. repeat split; try done. lia.
    + right. repeat split; try done. lia.
Qed.

(** X15.  The two scans ([get_tasks_due_for_notifications] and
    [get_tasks_due_for_email_notifications]) return a task while the
    scan's clock is within one minute of its fire time.  So two scans more
    than two minutes apart never return the same task twice; two scans at most
    two minutes apart miss no task that a scan at an instant between them
    would return; and a task with both channels enabled is returned by the
    push scan exactly when it is returned by the e-mail scan. *)
Theorem scan_window (users : gmap string string) (tasks : gmap string Task.t) (x : Task.t)
    (email : string) (s1 s2 : Z) :
  s1 <= s2 ->
  let push := PgScan.get_tasks_due_for_notifications users in
  let mail := PgScan.get_tasks_due_for_email_notifications users in
  (((x, email) ∈ push s1 tasks -> (x, email) ∈ push s2 tasks -> s2 - s1 <= 2 * 60 * 1000)
   ∧ (s2 - s1 <= 2 * 60 * 1000 ->
      ∀ now, s1 <= now <= s2 -> (x, email) ∈ push now tasks ->
             (x, email) ∈ push s1 tasks ∨ (x, email) ∈ push s2 tasks))
  ∧ (((x, email) ∈ mail s1 tasks -> (x, email) ∈ mail s2 tasks -> s2 - s1 <= 2 * 60 * 1000)
     ∧ (s2 - s1 <= 2 * 60 * 1000 ->
        ∀ now, s1 <= now <= s2 -> (x, email) ∈ mail now tasks ->
               (x, email) ∈ mail s1 tasks ∨ (x, email) ∈ mail s2 tasks))
  ∧ (Task.push_notification x = true -> Task.email_reminder x = true ->
     ∀ now, (x, email) ∈ push now tasks ↔ (x, email) ∈ mail now tasks).
Proof.
  intros Hle push mail. subst push mail.
  unfold PgScan.get_tasks_due_for_notifications, PgScan.get_tasks_due_for_email_notifications.
  split; [by apply scan_window_generic|]. split; [by apply scan_window_generic|].
  intros Hp He now. rewrite !scan_spec, Hp, He. done.
Qed.

(** The task due 09:00 with lead 10 minutes fires at 08:50, between the
    scans of 08:49 and 08:51. *)
Lemma scan_window_witness :
  at_ 8 49 <= at_ 8 51
  ∧ ((server_row, "u@example.org"%string)
       ∈ PgScan.get_tasks_due_for_notifications scan_users (at_ 8 49) (Server.tasks server_tables)
     ∨ (server_row, "u@example.org"%string)
         ∈ PgScan.get_tasks_due_for_notifications scan_users (at_ 8 51)
             (Server.tasks server_tables)).
Proof.
  assert (Hle : at_ 8 49 <= at_ 8 51) by by_compute.
  split; [exact Hle|].
  destruct (scan_window scan_users (Server.tasks server_tables) server_row "u@example.org"
              (at_ 8 49) (at_ 8 51) Hle) as ((_ & Hcover) & _).
  apply (Hcover ltac:(by_compute) (at_ 8 50)).
  - split; by_compute.
  - by_compute.
Defined.

(** ** The API layer of the client *)

(** Deleting the tasks of a list, one by one. *)
Lemma foldl_deleteTask_tasks (l : list Task.t) (d : IndexedDB.DB) k :
  (k ∈ Task.id <$> l ->
     IndexedDB.tasks (foldl (fun d' y => IndexedDB.deleteTask (Task.id y) d') d l) !! k = None)
  ∧ (k ∉ Task.id <$> l ->
     IndexedDB.tasks (foldl (fun d' y => IndexedDB.deleteTask (Task.id y) d') d l) !! k
     = IndexedDB.tasks d !! k)
  ∧ IndexedDB.sync_queue (foldl (fun d' y => IndexedDB.deleteTask (Task.id y) d') d l)
    = IndexedDB.sync_queue d.
Proof.
  revert d. induction l as [|a l IH]; intros d.
  { cbn. split; [intros Hin; by apply elem_of_nil in Hin|done]. }
  cbn [foldl]. destruct (IH (IndexedDB.deleteTask (Task.id a) d)) as (IHin & IHout & IHq).
  rewrite fmap_cons. split; [|split; [|by rewrite IHq]].
  - intros Hin. destruct (decide (k ∈ Task.id <$> l)) as [Hl|Hl]; [by apply IHin|].
    apply elem_of_cons in Hin as [->|Hin]; [|done].
    rewrite IHout by done. unfold IndexedDB.deleteTask, IndexedDB.with_tasks.
    cbn [IndexedDB.tasks]. by rewrite lookup_delete_eq.
  - intros [Hne Hl]%not_elem_of_cons. rewrite IHout by done.
    unfold IndexedDB.deleteTask, IndexedDB.with_tasks. cbn [IndexedDB.tasks].
    by rewrite lookup_delete_ne.
Qed.

(** X16.  [deleteTask] of the API layer, for a signed-in user and a task the
    store shows: when the client is offline, or online but the request to
    the server does not go through, the call still returns normally; the
    task is kept under its id as a soft-deleted copy, so reads no longer show
    it; exactly one [delete] entry carrying that copy is queued; and no other
    task is touched (the instances of a recurring parent stay). *)
Theorem task_delete_falls_back_to_soft_delete (userId : string) (online response : bool)
    (uuid queueId : string) (now now' : Z) (id : string) (x : Task.t) (d : IndexedDB.DB) :
  IndexedDB.keyed d ->
  id ≠ EmptyString ->
  IndexedDB.getTask id d = Some x ->
  online = false ∨ response = false ->
  let gone := TaskAPI.offlineTask userId uuid now x delete in
  ∃ d', TaskAPI.deleteTask (Some userId) online response uuid queueId now now' id d = Some d'
    ∧ IndexedDB.getTask id d' = None
    ∧ IndexedDB.tasks d' !! id = Some gone
    ∧ Task.sync_status gone = deleted
    ∧ (∀ k, k ≠ id -> IndexedDB.tasks d' !! k = IndexedDB.tasks d !! k)
    ∧ IndexedDB.sync_queue d'
      = <[queueId := SyncQueueItem.mk queueId task delete (TaskData gone) now' 0]>
          (IndexedDB.sync_queue d).
Proof.
  intros (Hk & _) Hid Hget Hpath gone.
  pose proof Hget as Hx. apply getTask_spec in Hx as [Hx _].
  assert (Hidx : Task.id x = id) by by apply Hk in Hx.
  assert (Hgid : Task.id gone = id).
  { unfold gone, TaskAPI.offlineTask. cbn [Task.id]. unfold Js.or_str.
    rewrite Hidx. by rewrite bool_decide_eq_false_2. }
  exists (IndexedDB.addToSyncQueue task delete (TaskData gone) queueId now'
            (IndexedDB.saveTask gone d)).
  split.
  { unfold TaskAPI.deleteTask. rewrite Hget. unfold TaskAPI.saveTaskOffline. fold gone.
    cbn [fmap option_fmap option_map snd].
    destruct Hpath as [-> | ->]; [done|]. by destruct online. }
  unfold IndexedDB.getTask, IndexedDB.addToSyncQueue, IndexedDB.saveTask,
    IndexedDB.with_tasks, IndexedDB.with_sync_queue.
  cbn [IndexedDB.tasks IndexedDB.sync_queue]. rewrite Hgid, lookup_insert_eq.
  split; [done|]. split; [done|]. split; [done|]. split; [|done].
  intros k Hne. by rewrite lookup_insert_ne.
Qed.

(** What [getTasks] returns after a [deleteTask]. *)
Lemma getTasks_deleteTask userId id (d : IndexedDB.DB) y :
  IndexedDB.keyed d ->
  y ∈ IndexedDB.getTasks userId (IndexedDB.deleteTask id d) ↔
  y ∈ IndexedDB.getTasks userId d ∧ Task.id y ≠ id.
Proof.
  intros (Hk & _). rewrite !getTasks_spec.
  unfold IndexedDB.deleteTask, IndexedDB.with_tasks. cbn [IndexedDB.tasks]. split.
  - intros ((k & Hl) & Hu & Hs). apply lookup_delete_Some in Hl as [Hne Hl].
    split; [eauto|]. by rewrite (Hk _ _ Hl).
  - intros (((k & Hl) & Hu & Hs) & Hne). split; [|done]. exists k.
    apply lookup_delete_Some. split; [|done]. by rewrite <- (Hk _ _ Hl).
Qed.

(** X17.  [deleteTask] of the API layer when the server accepted the delete:
    the record is removed from the local store, nothing is added to it, a
    single task only loses its own record, a recurring parent also loses
    every readable instance that refers to it, and nothing is queued. *)
Theorem task_delete_online_removes_series (userId : string) (uuid queueId : string)
    (now now' : Z) (id : string) (x : Task.t) (d : IndexedDB.DB) :
  IndexedDB.keyed d ->
  IndexedDB.getTask id d = Some x ->
  ∃ d', TaskAPI.deleteTask (Some userId) true true uuid queueId now now' id d = Some d'
    ∧ IndexedDB.tasks d' !! id = None
    ∧ (∀ k y, IndexedDB.tasks d' !! k = Some y -> IndexedDB.tasks d !! k = Some y)
    ∧ (Task.is_recurring_parent x = false ->
       IndexedDB.tasks d' = base.delete id (IndexedDB.tasks d))
    ∧ (Task.is_recurring_parent x = true ->
       ∀ y, y ∈ IndexedDB.getTasks userId d -> Task.recurrence_id y = Some id ->
            IndexedDB.tasks d' !! Task.id y = None)
    ∧ IndexedDB.sync_queue d' = IndexedDB.sync_queue d.
Proof.
  intros Hkeyed Hget. unfold TaskAPI.deleteTask. rewrite Hget. cbn [negb].
  eexists. split; [done|].
  set (d1 := IndexedDB.deleteTask id d).
  assert (H1 : IndexedDB.tasks d1 !! id = None).
  { unfold d1, IndexedDB.deleteTask, IndexedDB.with_tasks. cbn. by rewrite lookup_delete_eq. }
  assert (H1' : ∀ k y, IndexedDB.tasks d1 !! k = Some y -> IndexedDB.tasks d !! k = Some y).
  { intros k y. unfold d1, IndexedDB.deleteTask, IndexedDB.with_tasks. cbn.
    rewrite lookup_delete_Some. by intros [_ ?]. }
  destruct (Task.is_recurring_parent x) eqn:Hp.
  - unfold TaskAPI.removeInstances.
    set (l := List.filter _ (IndexedDB.getTasks userId d1)).
    split; [|split; [|split; [done|split;
      [|by destruct (foldl_deleteTask_tasks l d1 id) as (_ & _ & ->)]]]].
    + destruct (foldl_deleteTask_tasks l d1 id) as (Hin & Hout & _).
      destruct (decide (id ∈ Task.id <$> l)); [by apply Hin|by rewrite Hout].
    + intros k y Hy. destruct (foldl_deleteTask_tasks l d1 k) as (Hin & Hout & _).
      destruct (decide (k ∈ Task.id <$> l)) as [Hl|Hl]; [rewrite Hin in Hy; done|].
      rewrite Hout in Hy by done. by apply H1'.
    + intros _ y Hy Hrec. destruct (foldl_deleteTask_tasks l d1 (Task.id y)) as (Hin & Hout & _).
      destruct (decide (Task.id y = id)) as [Heq|Hne].
      * rewrite Heq. destruct (decide (id ∈ Task.id <$> l)) as [Hl|Hl].
        -- destruct (foldl_deleteTask_tasks l d1 id) as (Hin' & _). by apply Hin'.
        -- destruct (foldl_deleteTask_tasks l d1 id) as (_ & Hout' & _). by rewrite Hout'.
      * apply Hin. apply list_elem_of_fmap. exists y. split; [done|].
        unfold l. apply list_elem_of_In, filter_In. split.
        -- apply list_elem_of_In. by apply getTasks_deleteTask.
        -- by apply bool_decide_eq_true.
  - split; [done|]. split; [done|]. split; [done|]. split; [done|done].
Qed.

(** Deleting the keys of a prefix of the entries of a map. *)
Lemma foldl_delete_prefix {A} (L : list (string * A)) (n : nat) :
  NoDup L.*1 ->
  foldl (fun (m : gmap string A) k => base.delete k m) (list_to_map L) (take n L).*1
  = list_to_map (drop n L).
Proof.
  revert n. induction L as [|[k v] L IH]; intros n Hnd; [by destruct n|].
  destruct n as [|n]; [done|].
  cbn [fmap list_fmap fst] in Hnd. apply NoDup_cons in Hnd as [Hk Hnd].
  cbn [take drop fmap list_fmap fst foldl list_to_map foldr uncurry].
  change (foldr (λ '(k0, v0) (m : gmap string A), <[k0:=v0]> m) ∅ L)
    with (list_to_map L : gmap string A).
  rewrite delete_insert_id by by apply not_elem_of_list_to_map.
  by apply IH.
Qed.

(** The removal loop, on the queue. *)
Lemma removeProcessed_queue (l : list SyncQueueItem.t) (d : IndexedDB.DB) :
  IndexedDB.sync_queue
    (foldl (fun d' item => IndexedDB.removeSyncQueueItem (SyncQueueItem.id item) d') d l)
  = foldl (fun (m : gmap string SyncQueueItem.t) k => base.delete k m)
      (IndexedDB.sync_queue d) (SyncQueueItem.id <$> l).
Proof.
  revert d. induction l as [|a l IH]; intros d; [done|].
  cbn [foldl fmap list_fmap]. by rewrite IH.
Qed.

(** The removal loop drops a prefix of the snapshot. *)
Lemma removeProcessed_spec processed (d : IndexedDB.DB) :
  IndexedDB.keyed d ->
  IndexedDB.getSyncQueue (TaskAPI.removeProcessed processed (IndexedDB.getSyncQueue d) d)
  ≡ₚ drop (Z.to_nat processed) (IndexedDB.getSyncQueue d).
Proof.
  intros (_ & _ & Hk). unfold TaskAPI.removeProcessed.
  unfold IndexedDB.getSyncQueue at 1. unfold IndexedDB.getAll at 1.
  rewrite removeProcessed_queue. unfold IndexedDB.getSyncQueue.
  rewrite fmap_take, (keyed_queue_ids _ Hk). unfold IndexedDB.getAll.
  set (L := map_to_list (IndexedDB.sync_queue d)).
  assert (Hnd : NoDup L.*1) by apply NoDup_fst_map_to_list.
  rewrite <- (list_to_map_to_list (IndexedDB.sync_queue d)) at 1. fold L.
  rewrite <- fmap_take, foldl_delete_prefix by done.
  rewrite <- fmap_drop. apply fmap_Permutation. apply map_to_list_to_map.
  rewrite fmap_drop. apply (sublist_NoDup _ L.*1); [done|]. apply sublist_drop.
Qed.

(** X18.  [syncOfflineChanges] against [POST /api/sync]: the client removes
    the first [processed] entries of the snapshot it posted, by position.
    So as many entries stay queued as the server reported errors, an entry
    whose update ran into a conflict counts as processed and leaves the
    queue, and when the server reports no error the queue is empty
    afterwards. *)
Theorem sync_changes_removes_by_position {tz : TimeZone}
    (userId : string) (refuses : Server.Write -> bool)
    (gen_random_uuid : nat -> string) (now : Z) (t : Server.Tables)
    (fetched : option (list Task.t)) (d : IndexedDB.DB) :
  IndexedDB.keyed d ->
  let queue := IndexedDB.getSyncQueue d in
  let post := fun changes =>
    Some (Server.sync refuses gen_random_uuid userId now changes t).1 in
  ∃ result d',
    TaskAPI.syncOfflineChanges (Some userId) true post fetched d = Some (result, d')
    ∧ result = (Server.sync refuses gen_random_uuid userId now (TaskAPI.changeOf <$> queue) t).1
    ∧ IndexedDB.getSyncQueue d' ≡ₚ drop (Z.to_nat (Server.processed result)) queue
    ∧ length (IndexedDB.getSyncQueue d') = length (Server.errors result)
    ∧ (Server.errors result = [] -> IndexedDB.getSyncQueue d' = []).
Proof.
  intros Hk queue post.
  set (result := (Server.sync refuses gen_random_uuid userId now (TaskAPI.changeOf <$> queue) t).1).
  destruct (sync_results_accounting refuses gen_random_uuid userId now
              (TaskAPI.changeOf <$> queue) t) as (Hacc & Hconf & _).
  fold result in Hacc, Hconf. rewrite length_fmap in Hacc.
  assert (Hlen : ∀ d', IndexedDB.getSyncQueue d'
                       ≡ₚ drop (Z.to_nat (Server.processed result)) queue ->
                       length (IndexedDB.getSyncQueue d') = length (Server.errors result)).
  { intros d' ->. rewrite length_drop. lia. }
  assert (Hnil : ∀ d', length (IndexedDB.getSyncQueue d') = length (Server.errors result) ->
                       Server.errors result = [] -> IndexedDB.getSyncQueue d' = []).
  { intros d' Hl He. rewrite He in Hl. by apply nil_length_inv. }
  unfold TaskAPI.syncOfflineChanges. cbn [negb orb]. rewrite bool_decide_eq_true_2 by eauto.
  cbn [negb]. fold queue. case_bool_decide as Hq.
  - exists result, d. assert (Hr : result = Server.mkResults 0 [] []).
    { unfold result. by rewrite Hq. }
    split; [by rewrite Hr|]. split; [done|].
    assert (Hp : IndexedDB.getSyncQueue d ≡ₚ drop (Z.to_nat (Server.processed result)) queue).
    { rewrite Hr. done. }
    split; [done|]. split; [by apply Hlen|]. apply Hnil. by apply Hlen.
  - unfold post. fold result.
    set (d1 := TaskAPI.removeProcessed (Server.processed result) queue d).
    assert (Hp : IndexedDB.getSyncQueue d1 ≡ₚ drop (Z.to_nat (Server.processed result)) queue)
      by by apply removeProcessed_spec.
    eexists result, _. split; [done|]. split; [done|].
    assert (Hq' : IndexedDB.getSyncQueue
                    (if bool_decide (Server.conflicts result = []) then d1
                     else TaskAPI.cacheFetched fetched d1) = IndexedDB.getSyncQueue d1).
    { destruct (bool_decide _); [done|]. unfold TaskAPI.cacheFetched.
      destruct fetched; [|done]. unfold IndexedDB.getSyncQueue. by rewrite saveTasks_queue. }
    rewrite Hq'. split; [done|]. split; [by apply Hlen|]. apply Hnil. by apply Hlen.
Qed.

(** Deleting the task [O] while offline. *)
Lemma task_delete_falls_back_to_soft_delete_witness :
  IndexedDB.keyed series_db
  ∧ ∃ d', TaskAPI.deleteTask (Some "u"%string) false false "id" "q0" (at_ 8 0) (at_ 8 0) "O"
            series_db = Some d'
          ∧ IndexedDB.getTask "O" d' = None.
Proof.
  assert (Hk : IndexedDB.keyed series_db) by by_compute.
  split; [exact Hk|].
  destruct (task_delete_falls_back_to_soft_delete "u" false false "id" "q0" (at_ 8 0) (at_ 8 0)
              "O" other_task series_db Hk ltac:(discriminate) ltac:(vm_compute; reflexivity)
              ltac:(left; reflexivity)) as (d' & Hd & Hg & _).
  exists d'. split; [exact Hd|exact Hg].
Defined.

(** Deleting the parent [P] while online. *)
Lemma task_delete_online_removes_series_witness :
  IndexedDB.keyed series_db
  ∧ ∃ d', TaskAPI.deleteTask (Some "u"%string) true true "id" "q0" (at_ 8 0) (at_ 8 0) "P"
            series_db = Some d'
          ∧ IndexedDB.tasks d' !! "P"%string = None.
Proof.
  assert (Hk : IndexedDB.keyed series_db) by by_compute.
  split; [exact Hk|].
  destruct (task_delete_online_removes_series "u" "id" "q0" (at_ 8 0) (at_ 8 0)
              "P" series_parent series_db Hk ltac:(vm_compute; reflexivity))
    as (d' & Hd & Hg & _).
  exists d'. split; [exact Hd|exact Hg].
Defined.

(** The queued edit of 10:00 meets the server row of 10:05: a conflict,
    and the queue is empty. *)
Lemma sync_changes_removes_by_position_witness :
  IndexedDB.keyed conflict_db
  ∧ ∃ result d',
      TaskAPI.syncOfflineChanges (Some "u"%string) true
        (fun changes => Some (Server.sync (tz := utc) accepts_all no_uuid "u" (at_ 10 6) changes
                                server_tables).1)
        None conflict_db = Some (result, d')
      ∧ IndexedDB.getSyncQueue d' = [].
Proof.
  assert (Hk : IndexedDB.keyed conflict_db) by by_compute.
  split; [exact Hk|].
  destruct (sync_changes_removes_by_position (tz := utc) "u" accepts_all no_uuid (at_ 10 6)
      server_tables
              None conflict_db Hk) as (result & d' & Hs & Hr & _ & _ & Hnil).
  exists result, d'. split; [exact Hs|].
  apply Hnil. rewrite Hr. vm_compute. reflexivity.
Defined.

(** ** The reminder hooks: updates, snoozing, e-mail *)

(** A reminder whose time is ahead is stored and gets a timer. *)
Lemma scheduleTaskNotification_future r x c uuid now now' e fire :
  Task.push_notification x = true ->
  Js.truthy_bool (Task.completed x) = false ->
  Notifications.reminderTime x c = Js.Num fire ->
  now < fire -> now' < fire ->
  let e' := Notifications.scheduleTaskNotification r x c uuid now now' e in
  Notifications.stored e' = Notifications.scheduledNotifications r ++ [reminderFor x uuid fire]
  ∧ Notifications.timers e'
    = Notifications.timers e ++ [Notifications.mkTimer fire (reminderFor x uuid fire) r]
  ∧ Notifications.displayed e' = Notifications.displayed e.
Proof.
  intros Hp Hc Hrt Hnow Hnow' e'. subst e'. unfold Notifications.scheduleTaskNotification.
  rewrite Hp, Hc, Hrt. cbn [negb orb Js.le].
  destruct (Z.leb_spec fire now) as [?|_]; [lia|].
  unfold Notifications.scheduleLocalNotification. cbn [ScheduledNotification.scheduledTime].
  destruct (Z.leb_spec (fire - now') 0) as [?|_]; [lia|]. done.
Qed.

(** A task that needs no reminder, or whose reminder time has passed. *)
Lemma scheduleTaskNotification_skipped r x c uuid now now' e :
  Task.push_notification x = false ∨ Js.truthy_bool (Task.completed x) = true
  ∨ Js.le (Notifications.reminderTime x c) (Js.Num now) = true ->
  let e' := Notifications.scheduleTaskNotification r x c uuid now now' e in
  Notifications.stored e' = Notifications.stored e
  ∧ Notifications.timers e' = Notifications.timers e
  ∧ Notifications.displayed e' = Notifications.displayed e.
Proof.
  intros Hskip e'. subst e'. unfold Notifications.scheduleTaskNotification.
  destruct (negb (Task.push_notification x) || Js.truthy_bool (Task.completed x)) eqn:E;
    [done|].
  apply orb_false_iff in E as [Ep Ec]. apply negb_false_iff in Ep.
  destruct Hskip as [?|[?|Hle]]; [congruence|congruence|]. by rewrite Hle.
Qed.


(** X20.  [handleTaskSnooze] for [minutes >= 1]: when the task is found, has
    push notifications enabled and is not completed, a reminder for the
    instant [minutes] after the snooze is stored and a timer is set for that
    instant, whatever the task's due time and lead time are; when the task
    cannot be read, the reminders stored for it are removed and nothing is
    scheduled. *)
Theorem snooze_reschedules (r : Notifications.Render) (taskId : string) (minutes : Z)
    (x : Task.t) (uuid : string) (now now' now'' : Z) (e : Notifications.Effects) :
  0 < now -> 0 < minutes ->
  Task.push_notification x = true ->
  Js.truthy_bool (Task.completed x) = false ->
  let snoozeTime := now + minutes * 60 * 1000 in
  let others := filter (fun n => ScheduledNotification.taskId n ≠ taskId)
                  (Notifications.scheduledNotifications r) in
  (now' < snoozeTime -> now'' < snoozeTime ->
   let e' := (NotificationActions.handleTaskSnooze r taskId minutes (Some (Some x)) uuid
                now now' now'' e).1 in
   Notifications.stored e'
     = Notifications.scheduledNotifications r ++ [reminderFor x uuid snoozeTime]
   ∧ Notifications.timers e'
     = Notifications.timers e ++ [Notifications.mkTimer snoozeTime (reminderFor x uuid snoozeTime) r]
   ∧ Notifications.displayed e' = Notifications.displayed e)
  ∧ (∀ fetched, fetched = None ∨ fetched = Some None ->
     let e' := (NotificationActions.handleTaskSnooze r taskId minutes fetched uuid
                  now now' now'' e).1 in
     Notifications.stored e' = others ∧ Notifications.timers e' = Notifications.timers e
     ∧ Notifications.displayed e' = Notifications.displayed e).
Proof.
  intros Hnow Hmin Hp Hc snoozeTime others. split.
  - intros Hn' Hn'' e'. subst e'. unfold NotificationActions.handleTaskSnooze. cbn [fst].
    fold snoozeTime.
    assert (Hrt : Notifications.reminderTime x (Some snoozeTime) = Js.Num snoozeTime).
    { unfold Notifications.reminderTime. destruct (Z.eqb_spec snoozeTime 0) as [E|_]; [|done].
      unfold snoozeTime in E. lia. }
    by destruct (scheduleTaskNotification_future r x (Some snoozeTime) uuid now' now''
                   (Notifications.cancelTaskNotifications r taskId
                      (Notifications.log "Snoozing task" e)) snoozeTime
                   Hp Hc Hrt Hn' Hn'') as (-> & -> & ->).
  - intros fetched [-> | ->]; done.
Qed.



(** Snoozing at 08:50 for 5 minutes. *)
Lemma snooze_reschedules_witness :
  let e' := (NotificationActions.handleTaskSnooze render0 "T" 5 (Some (Some task_due9)) "n2"
               (at_ 8 50) (at_ 8 50) (at_ 8 50) effects0).1 in
  Notifications.timers e'
  = [Notifications.mkTimer (at_ 8 55) (reminderFor task_due9 "n2" (at_ 8 55)) render0].
Proof.
  destruct (snooze_reschedules render0 "T" 5 task_due9 "n2" (at_ 8 50) (at_ 8 50) (at_ 8 50)
              effects0 ltac:(by_compute) ltac:(lia) eq_refl eq_refl) as [Hok _].
  destruct Hok as (_ & Ht & _); [by_compute|by_compute|].
  cbv zeta. rewrite Ht. vm_compute. reflexivity.
Defined.


(** ** The recurring-task hook: creation, repeated completion, deletion *)

(** X22.  [completeRecurringTask] called twice for the same task, the second
    call on the store the first one left (whatever ids and clock it draws):
    if the first call created a next instance, the second call changes
    neither the tasks nor the sync queue; otherwise the first call itself
    only marked the task completed and queued nothing.  So a repeated
    completion never adds a second successor.  The fresh id of the first
    call is assumed to differ from the id of the task and of its series. *)
Theorem completion_retry_creates_at_most_one {tz : TimeZone} (userId : string)
    (render render2 : Notifications.Render) (now now2 : Z)
    (ids ids2 : RecurringTasks.CompleteIds) (x : Task.t) (w : RecurringTasks.World) :
  RecurringTasks.nextUUID ids ≠ Task.id x ->
  RecurringTasks.nextUUID ids ≠ RecurringTasks.seriesOf x ->
  let w1 := RecurringTasks.onDb (IndexedDB.saveTask (RecurringTasks.markCompleted x)) w in
  let w' := RecurringTasks.completeRecurringTask (Some userId) render now ids x w in
  let w'' := RecurringTasks.completeRecurringTask (Some userId) render2 now2 ids2 x w' in
  (IndexedDB.tasks (RecurringTasks.db w'') = IndexedDB.tasks (RecurringTasks.db w')
   ∧ IndexedDB.sync_queue (RecurringTasks.db w'') = IndexedDB.sync_queue (RecurringTasks.db w'))
  ∨ (IndexedDB.tasks (RecurringTasks.db w') = IndexedDB.tasks (RecurringTasks.db w1)
     ∧ IndexedDB.sync_queue (RecurringTasks.db w') = IndexedDB.sync_queue (RecurringTasks.db w)).
Proof.
  intros Hfresh Hseries w1 w' w''.
  destruct (completeRecurringTask_db userId render now ids x w) as [Hyes Hno].
  fold w1 w' in Hyes, Hno. cbv zeta in Hyes, Hno.
  set (r := RecurringTasks.resolvedRecurrence x (RecurringTasks.db w1)) in *.
  set (due := RecurringTasks.nextDateStr x r) in *.
  set (next := RecurringTasks.instance userId (RecurringTasks.nextUUID ids) now x
                 (RecurringTasks.seriesOf x) due) in *.
  match type of Hno with (¬ ?c -> _) => destruct (decide c) as [Hc|Hc] end.
  2:{ right. rewrite (Hno Hc). done. }
  left. specialize (Hyes Hc). clear Hno.
  assert (Ht' : IndexedDB.tasks (RecurringTasks.db w')
                = <[RecurringTasks.nextUUID ids := next]>
                    (<[Task.id x := RecurringTasks.markCompleted x]>
                       (IndexedDB.tasks (RecurringTasks.db w)))).
  { rewrite Hyes. done. }
  set (w1' := RecurringTasks.onDb (IndexedDB.saveTask (RecurringTasks.markCompleted x)) w').
  assert (Ht1' : IndexedDB.tasks (RecurringTasks.db w1') = IndexedDB.tasks (RecurringTasks.db w')).
  { unfold w1', RecurringTasks.onDb, IndexedDB.saveTask, IndexedDB.with_tasks.
    cbn [RecurringTasks.db IndexedDB.tasks]. rewrite Ht'.
    change (Task.id (RecurringTasks.markCompleted x)) with (Task.id x).
    rewrite insert_insert_ne by done. by rewrite insert_insert_eq. }
  assert (Hq1' : IndexedDB.sync_queue (RecurringTasks.db w1')
                 = IndexedDB.sync_queue (RecurringTasks.db w')) by done.
  destruct (completeRecurringTask_db userId render2 now2 ids2 x w') as [_ Hno2].
  fold w1' w'' in Hno2. cbv zeta in Hno2.
  rewrite Hno2; [done|]. intros (_ & _ & _ & Hfree).
  assert (Hr2 : RecurringTasks.resolvedRecurrence x (RecurringTasks.db w1') = r).
  { unfold r, RecurringTasks.resolvedRecurrence.
    destruct (decide (Task.recurrence x ≠ none)); [done|].
    unfold RecurringTasks.getParentRecurrenceType, IndexedDB.getTask. rewrite Ht1', Ht'.
    rewrite lookup_insert_ne by done. done. }
  rewrite Hr2 in Hfree. fold due in Hfree.
  apply (proj1 (Forall_forall _ _)) with (x := next) in Hfree.
  - unfold RecurringTasks.occupies, next in Hfree. cbn in Hfree.
    rewrite !bool_decide_eq_true_2 in Hfree by done. done.
  - apply getTasks_spec. split; [|done]. exists (RecurringTasks.nextUUID ids).
    rewrite Ht1', Ht'. by rewrite lookup_insert_eq.
Qed.

(** The loop of [saveRecurringInstances]: every instance is stored under its
    id and queued, in order, under the queue ids drawn. *)
Lemma saveRecurringInstancesFrom_db render now queueId notificationId (l : list Task.t) k
    (w : RecurringTasks.World) :
  NoDup (Task.id <$> l) ->
  NoDup (queueId <$> seq k (length l)) ->
  let w' := RecurringTasks.saveRecurringInstancesFrom render now queueId notificationId k l w in
  (∀ x, x ∈ l -> IndexedDB.tasks (RecurringTasks.db w') !! Task.id x = Some x)
  ∧ (∀ j, j ∉ Task.id <$> l ->
       IndexedDB.tasks (RecurringTasks.db w') !! j = IndexedDB.tasks (RecurringTasks.db w) !! j)
  ∧ (∀ i x, l !! i = Some x ->
       IndexedDB.sync_queue (RecurringTasks.db w') !! queueId (k + i)%nat
       = Some (SyncQueueItem.mk (queueId (k + i)%nat) task create (TaskData x) now 0))
  ∧ (∀ q, q ∉ queueId <$> seq k (length l) ->
       IndexedDB.sync_queue (RecurringTasks.db w') !! q
       = IndexedDB.sync_queue (RecurringTasks.db w) !! q).
Proof.
  revert k w. induction l as [|a l IH]; intros k w Hnd Hq w'.
  { subst w'. cbn. split; [intros x Hx; by apply elem_of_nil in Hx|]. split; [done|].
    split; [intros i x Hx; done|done]. }
  subst w'. cbn [RecurringTasks.saveRecurringInstancesFrom].
  set (w1 := RecurringTasks.saveRecurringInstance render now (queueId k) (notificationId k) a w).
  assert (Hw1 : RecurringTasks.db w1
                = IndexedDB.addToSyncQueue task create (TaskData a) (queueId k) now
                    (IndexedDB.saveTask a (RecurringTasks.db w)))
    by apply saveRecurringInstance_db.
  rewrite fmap_cons in Hnd. apply NoDup_cons in Hnd as [Ha Hnd].
  cbn [length seq] in Hq. rewrite fmap_cons in Hq. apply NoDup_cons in Hq as [Hk Hq].
  destruct (IH (S k) w1 Hnd Hq) as (IHin & IHout & IHq & IHqout).
  split; [|split; [|split]].
  - intros x Hx. apply elem_of_cons in Hx as [->|Hx]; [|by apply IHin].
    rewrite IHout by done. rewrite Hw1. cbn. by rewrite lookup_insert_eq.
  - intros j Hj. rewrite fmap_cons in Hj. apply not_elem_of_cons in Hj as [Hne Hj].
    rewrite IHout by done. rewrite Hw1. cbn. by rewrite lookup_insert_ne.
  - intros i x Hx. destruct i as [|i].
    + injection Hx as ->. rewrite Nat.add_0_r. rewrite IHqout by done.
      rewrite Hw1. cbn. by rewrite lookup_insert_eq.
    + replace (k + S i)%nat with (S k + i)%nat by lia. by apply IHq.
  - intros q Hq'. cbn [length seq] in Hq'. rewrite fmap_cons in Hq'.
    apply not_elem_of_cons in Hq' as [Hne Hq'].
    rewrite IHqout by done. rewrite Hw1. cbn. by rewrite lookup_insert_ne.
Qed.

(** X23.  [createRecurringTask] for a task with a recurrence rule: the parent
    returned carries the fresh id, the user's id, the parent flag and the
    status [pending]; it is stored and one [create] entry carrying it is
    queued; every generated instance refers to the parent by
    [recurrence_id], is stored under its own id, and has one [create] entry
    of its own in the queue.  The ids drawn for the tasks, and those drawn
    for the queue entries, are assumed pairwise different. *)
Theorem recurring_create_stores_and_queues {tz : TimeZone}
    (userId : string) (render : Notifications.Render)
    (now : Z) (ids : RecurringTasks.CreateIds) (taskData : Task.t) (w : RecurringTasks.World) :
  Task.recurrence taskData ≠ none ->
  let parentTask := RecurringTasks.parentOf now userId (RecurringTasks.parentUUID ids) taskData in
  let instances := RecurringTasks.createdInstances (Some userId) now ids parentTask in
  NoDup (RecurringTasks.parentUUID ids
         :: (RecurringTasks.instanceUUID ids <$> seq 1 (length instances))) ->
  NoDup (RecurringTasks.parentQueueUUID ids
         :: (RecurringTasks.instanceQueueUUID ids <$> seq 0 (length instances))) ->
  let res := RecurringTasks.createRecurringTask (Some userId) render now ids taskData w in
  res.1 = Some parentTask
  ∧ Task.is_recurring_parent parentTask = true
  ∧ Task.user_id parentTask = userId
  ∧ Task.sync_status parentTask = pending
  ∧ IndexedDB.tasks (RecurringTasks.db res.2) !! RecurringTasks.parentUUID ids = Some parentTask
  ∧ IndexedDB.sync_queue (RecurringTasks.db res.2) !! RecurringTasks.parentQueueUUID ids
    = Some (SyncQueueItem.mk (RecurringTasks.parentQueueUUID ids) task create
              (TaskData parentTask) now 0)
  ∧ ∀ i x, instances !! i = Some x ->
      Task.recurrence_id x = Some (RecurringTasks.parentUUID ids)
      ∧ IndexedDB.tasks (RecurringTasks.db res.2) !! Task.id x = Some x
      ∧ IndexedDB.sync_queue (RecurringTasks.db res.2) !! RecurringTasks.instanceQueueUUID ids i
        = Some (SyncQueueItem.mk (RecurringTasks.instanceQueueUUID ids i) task create
                  (TaskData x) now 0).
Proof.
  intros Hrec parentTask instances Hids Hqids res.
  subst res. unfold RecurringTasks.createRecurringTask.
  rewrite decide_False by done. fold parentTask. fold instances.
  set (w2 := RecurringTasks.onDb _ (RecurringTasks.onDb _ w)).
  set (w3 := RecurringTasks.saveRecurringInstances render now _ _ instances w2).
  assert (Hdb : ∀ w4 : RecurringTasks.World,
            w4 = (if Task.push_notification parentTask
                  then RecurringTasks.onNotif
                         (Notifications.scheduleTaskNotification render parentTask None
                            (RecurringTasks.parentNotificationUUID ids) now now) w3
                  else w3) ->
            RecurringTasks.db w4 = RecurringTasks.db w3).
  { intros w4 ->. by destruct (Task.push_notification parentTask). }
  cbn [fst snd]. rewrite (Hdb _ eq_refl). clear Hdb.
  assert (Hinst : ∀ i x, instances !! i = Some x ->
            x = RecurringTasks.instance userId (RecurringTasks.instanceUUID ids (S i)) now
                  parentTask (Task.id parentTask)
                  (toISODate
                     (RecurringTasks.advance (Task.recurrence parentTask)
                        (parseISODate (Task.due_date parentTask)) (Z.of_nat (S i))))).
  { intros i x Hx. unfold instances, RecurringTasks.createdInstances in Hx.
    apply generateRecurringInstances_lookup in Hx as (u & [= <-] & _ & -> & _). done. }
  assert (Hidl : Task.id <$> instances
                 = RecurringTasks.instanceUUID ids <$> seq 1 (length instances)).
  { apply list_eq. intros i. rewrite !list_lookup_fmap.
    destruct (instances !! i) as [x|] eqn:Hx.
    - rewrite (lookup_seq_lt _ _ _ (lookup_lt_Some _ _ _ Hx)). cbn.
      by rewrite (Hinst i x Hx).
    - rewrite lookup_seq_ge; [done|]. by apply lookup_ge_None. }
  apply NoDup_cons in Hids as [Hp Hids]. apply NoDup_cons in Hqids as [Hpq Hqids].
  rewrite <- Hidl in Hp, Hids.
  destruct (saveRecurringInstancesFrom_db render now (RecurringTasks.instanceQueueUUID ids)
              (RecurringTasks.instanceNotificationUUID ids) instances 0 w2 Hids Hqids)
    as (Hin & Hout & Hq & Hqout).
  fold (RecurringTasks.saveRecurringInstances render now (RecurringTasks.instanceQueueUUID ids)
          (RecurringTasks.instanceNotificationUUID ids) instances w2) in Hin, Hout, Hq, Hqout.
  fold w3 in Hin, Hout, Hq, Hqout.
  split; [done|]. split; [done|]. split; [done|]. split; [done|].
  split; [|split].
  - rewrite Hout by done. unfold w2. cbn. by rewrite lookup_insert_eq.
  - rewrite Hqout by done. unfold w2. cbn. by rewrite lookup_insert_eq.
  - intros i x Hx. split; [by rewrite (Hinst i x Hx)|].
    split; [apply Hin; by apply list_elem_of_lookup_2 in Hx|]. by apply (Hq i x).
Qed.

(** The loop of [deleteRecurringSeries] queues one deletion per member, in
    order. *)
Lemma deleteSeriesFrom_queue now queueId (l : list Task.t) k (d : IndexedDB.DB) :
  NoDup (queueId <$> seq k (length l)) ->
  let d' := RecurringTasks.deleteSeriesFrom now queueId k l d in
  (∀ i x, l !! i = Some x ->
     IndexedDB.sync_queue d' !! queueId (k + i)%nat
     = Some (SyncQueueItem.mk (queueId (k + i)%nat) task delete (TaskData x) now 0))
  ∧ (∀ q, q ∉ queueId <$> seq k (length l) ->
       IndexedDB.sync_queue d' !! q = IndexedDB.sync_queue d !! q).
Proof.
  revert k d. induction l as [|a l IH]; intros k d Hq d'.
  { subst d'. cbn. split; [intros i x Hx; done|done]. }
  subst d'. cbn [RecurringTasks.deleteSeriesFrom].
  cbn [length seq] in Hq. rewrite fmap_cons in Hq. apply NoDup_cons in Hq as [Hk Hq].
  set (d1 := IndexedDB.addToSyncQueue task delete (TaskData a) (queueId k) now
               (IndexedDB.deleteTask (Task.id a) d)).
  destruct (IH (S k) d1 Hq) as (IHq & IHout).
  split.
  - intros i x Hx. destruct i as [|i].
    + injection Hx as ->. rewrite Nat.add_0_r. rewrite IHout by done.
      unfold d1. cbn. by rewrite lookup_insert_eq.
    + replace (k + S i)%nat with (S k + i)%nat by lia. by apply IHq.
  - intros q Hq'. cbn [length seq] in Hq'. rewrite fmap_cons in Hq'.
    apply not_elem_of_cons in Hq' as [Hne Hq'].
    rewrite IHout by done. unfold d1. cbn. by rewrite lookup_insert_ne.
Qed.

(** X24.  [deleteRecurringSeries] queues one [delete] entry for every task it
    removes, carrying the removed record, in the order the tasks were read;
    the entries queued before stay as they are.  The ids drawn for the new
    entries are assumed pairwise different. *)
Theorem series_deletion_queues_each_member (now : Z) (queueId : nat -> string)
    (userId taskId P : string) (isParent : bool) (d : IndexedDB.DB) :
  P ≠ EmptyString ->
  RecurringTasks.seriesParent taskId isParent (IndexedDB.getTasks userId d) = Some P ->
  let series := List.filter (RecurringTasks.inSeries P) (IndexedDB.getTasks userId d) in
  NoDup (queueId <$> seq 0 (length series)) ->
  let d' := RecurringTasks.deleteRecurringSeries (Some userId) now queueId taskId isParent d in
  (∀ i x, series !! i = Some x ->
     IndexedDB.sync_queue d' !! queueId i
     = Some (SyncQueueItem.mk (queueId i) task delete (TaskData x) now 0))
  ∧ (∀ q, q ∉ queueId <$> seq 0 (length series) ->
       IndexedDB.sync_queue d' !! q = IndexedDB.sync_queue d !! q).
Proof.
  intros HP Hparent series Hq d'.
  assert (Hd' : d' = RecurringTasks.deleteSeriesFrom now queueId 0 series d).
  { subst d'. unfold RecurringTasks.deleteRecurringSeries. rewrite Hparent.
    unfold Js.truthy_opt. by rewrite bool_decide_eq_false_2 by done. }
  rewrite Hd'. exact (deleteSeriesFrom_queue now queueId series 0 d Hq).
Qed.

(** Deleting instance [I1] of the series of [P]: three deletions are queued. *)
Lemma series_deletion_queues_each_member_witness :
  let d' := RecurringTasks.deleteRecurringSeries (Some "u"%string) 0 queue_ids "I1" false
              series_db in
  let series := List.filter (RecurringTasks.inSeries "P") (IndexedDB.getTasks "u" series_db) in
  RecurringTasks.seriesParent "I1" false (IndexedDB.getTasks "u" series_db) = Some "P"%string
  ∧ length series = 3%nat
  ∧ IndexedDB.sync_queue d' !! queue_ids 0
    = (fun x => SyncQueueItem.mk (queue_ids 0) task delete (TaskData x) 0 0) <$> series !! 0%nat.
Proof.
  assert (HP : "P"%string ≠ EmptyString) by done.
  assert (Hpar : RecurringTasks.seriesParent "I1" false (IndexedDB.getTasks "u" series_db)
                 = Some "P"%string) by (vm_compute; reflexivity).
  assert (Hnd : NoDup (queue_ids <$> seq 0 (length
                  (List.filter (RecurringTasks.inSeries "P") (IndexedDB.getTasks "u" series_db)))))
    by by_compute.
  pose proof (series_deletion_queues_each_member 0 queue_ids "u" "I1" "P" false series_db
                HP Hpar Hnd) as [Hq _].
  cbv zeta. split; [exact Hpar|]. split; [vm_compute; reflexivity|].
  destruct (List.filter (RecurringTasks.inSeries "P") (IndexedDB.getTasks "u" series_db) !! 0%nat)
    as [x|] eqn:E; [|vm_compute in E; discriminate].
  exact (Hq 0%nat x E).
Defined.

(** The instance due 2024-06-03 is completed at 08:00 and again at 08:05. *)
Lemma completion_retry_creates_at_most_one_witness :
  let x := daily_instance "I1" (isoDate 2024 6 3) in
  let w'' := RecurringTasks.completeRecurringTask (tz := utc) (Some "u"%string) render0 (at_ 8 5)
               (RecurringTasks.mkCompleteIds "I3" "q3" "n3") x completed_today in
  size (IndexedDB.tasks (RecurringTasks.db completed_today)) = 3%nat
  ∧ IndexedDB.tasks (RecurringTasks.db w'') = IndexedDB.tasks (RecurringTasks.db completed_today)
  ∧ IndexedDB.sync_queue (RecurringTasks.db w'')
    = IndexedDB.sync_queue (RecurringTasks.db completed_today).
Proof.
  assert (H1 : RecurringTasks.nextUUID complete_ids ≠ Task.id (daily_instance "I1" (isoDate 2024 6 3)))
    by done.
  assert (H2 : RecurringTasks.nextUUID complete_ids
               ≠ RecurringTasks.seriesOf (daily_instance "I1" (isoDate 2024 6 3))) by done.
  assert (Hsize : size (IndexedDB.tasks (RecurringTasks.db completed_today)) = 3%nat)
    by (vm_compute; reflexivity).
  assert (Hsize1 : size (IndexedDB.tasks (RecurringTasks.db
                      (RecurringTasks.onDb
                         (IndexedDB.saveTask
                            (RecurringTasks.markCompleted (daily_instance "I1" (isoDate 2024 6 3))))
                         (daily_world (daily_instance "I1" (isoDate 2024 6 3)))))) = 2%nat)
    by (vm_compute; reflexivity).
  cbv zeta. split; [exact Hsize|].
  destruct (completion_retry_creates_at_most_one (tz := utc) "u" render0 render0 (at_ 8 0) (at_ 8 5)
              complete_ids (RecurringTasks.mkCompleteIds "I3" "q3" "n3")
              (daily_instance "I1" (isoDate 2024 6 3))
              (daily_world (daily_instance "I1" (isoDate 2024 6 3))) H1 H2) as [Hsame|[Hnone _]].
  - exact Hsame.
  - exfalso. fold completed_today in Hnone. rewrite Hnone, Hsize1 in Hsize. discriminate Hsize.
Defined.

(** The weekly parent of 2024-06-03 in an empty store: 52 instances. *)
Lemma recurring_create_stores_and_queues_witness :
  let res := RecurringTasks.createRecurringTask (tz := utc) (Some "u"%string) render0 (at_ 8 0)
      create_ids
               weekly_parent (RecurringTasks.mkWorld IndexedDB.empty effects0) in
  let parentTask := RecurringTasks.parentOf (at_ 8 0) "u" "P" weekly_parent in
  length (RecurringTasks.createdInstances (tz := utc) (Some "u"%string) (at_ 8 0) create_ids
      parentTask)
  = 52%nat
  ∧ res.1 = Some parentTask
  ∧ IndexedDB.tasks (RecurringTasks.db res.2) !! "P"%string = Some parentTask.
Proof.
  assert (Hrec : Task.recurrence weekly_parent ≠ none) by done.
  assert (Hlen : length (RecurringTasks.createdInstances (tz := utc) (Some "u"%string) (at_ 8 0)
      create_ids
                           (RecurringTasks.parentOf (at_ 8 0) "u" "P" weekly_parent)) = 52%nat)
    by (vm_compute; reflexivity).
  assert (Hids : NoDup (RecurringTasks.parentUUID create_ids
            :: (RecurringTasks.instanceUUID create_ids
                  <$> seq 1 (length (RecurringTasks.createdInstances (tz := utc) (Some
                      "u"%string) (at_ 8 0)
                                       create_ids
                                       (RecurringTasks.parentOf (at_ 8 0) "u"
                                          (RecurringTasks.parentUUID create_ids) weekly_parent))))))
    by by_compute.
  assert (Hq : NoDup (RecurringTasks.parentQueueUUID create_ids
            :: (RecurringTasks.instanceQueueUUID create_ids
                  <$> seq 0 (length (RecurringTasks.createdInstances (tz := utc) (Some
                      "u"%string) (at_ 8 0)
                                       create_ids
                                       (RecurringTasks.parentOf (at_ 8 0) "u"
                                          (RecurringTasks.parentUUID create_ids) weekly_parent))))))
    by by_compute.
  destruct (recurring_create_stores_and_queues (tz := utc) "u" render0 (at_ 8 0) create_ids
      weekly_parent
              (RecurringTasks.mkWorld IndexedDB.empty effects0) Hrec Hids Hq)
    as (Hres & _ & _ & _ & Hp & _).
  cbv zeta. split; [exact Hlen|]. split; [exact Hres|exact Hp].
Defined.

(** ** Resynchronising reminders, the e-mail endpoint, the service worker *)

(** The loop of [syncNotifications] over tasks whose reminders are all ahead. *)
Lemma scheduleEach_future r uuid clock clock' (tasks : list Task.t) k
    (e : Notifications.Effects) :
  (∀ i x, tasks !! i = Some x ->
     Task.push_notification x = true
     ∧ Js.truthy_bool (Task.completed x) = false
     ∧ Notifications.reminderTime x None = Js.Num (fireTime x)
     ∧ clock (k + i)%nat < fireTime x ∧ clock' (k + i)%nat < fireTime x) ->
  let e' := NotificationActions.scheduleEach r uuid clock clock' k tasks e in
  Notifications.timers e'
  = Notifications.timers e
    ++ imap (fun i x => Notifications.mkTimer (fireTime x)
                          (reminderFor x (uuid (k + i)%nat) (fireTime x)) r) tasks
  ∧ Notifications.stored e'
    = match last tasks with
      | Some x => Notifications.scheduledNotifications r
                  ++ [reminderFor x (uuid (k + length tasks - 1)%nat) (fireTime x)]
      | None => Notifications.stored e
      end
  ∧ Notifications.displayed e' = Notifications.displayed e.
Proof.
  revert k e. induction tasks as [|x rest IH]; intros k e Hall e'.
  { subst e'. cbn. by rewrite app_nil_r. }
  subst e'. cbn [NotificationActions.scheduleEach].
  destruct (Hall 0%nat x eq_refl) as (Hp & Hc & Hrt & Hnow & Hnow').
  rewrite Nat.add_0_r in Hnow, Hnow'.
  destruct (scheduleTaskNotification_future r x None (uuid k) (clock k) (clock' k) e
              (fireTime x) Hp Hc Hrt Hnow Hnow') as (Hs & Ht & Hd).
  set (e1 := Notifications.scheduleTaskNotification r x None (uuid k) (clock k) (clock' k) e)
    in *.
  destruct (IH (S k) e1) as (IHt & IHs & IHd).
  { intros i y Hy. replace (S k + i)%nat with (k + S i)%nat by lia. by apply (Hall (S i)). }
  split; [|split].
  - rewrite IHt, Ht, <- app_assoc. f_equal. rewrite imap_cons. cbn [app]. f_equal.
    + by rewrite Nat.add_0_r.
    + apply imap_ext. intros i y _. cbn. by rewrite Nat.add_succ_r.
  - rewrite IHs. destruct rest as [|y rest'].
    + cbn [last length]. rewrite Hs. by replace (k + 1 - 1)%nat with k by lia.
    + change (last (x :: y :: rest')) with (last (y :: rest')).
      destruct (last (y :: rest')) as [z|] eqn:El.
      * by replace (k + length (x :: y :: rest') - 1)%nat
          with (S k + length (y :: rest') - 1)%nat by (cbn [length]; lia).
      * by rewrite last_None in El.
  - by rewrite IHd.
Qed.

(** X25.  [syncNotifications], online and signed in, for fetched tasks whose
    reminder times are all ahead.  Every fetched task gets a timer and the
    timers pending before stay, so a task that already had one has two.
    The list stored at the end is not the list of the fetched tasks: it is
    the list the render had captured, which the function has just cleared,
    with the reminder of the last fetched task appended; for no fetched
    task it is empty.  Nothing is shown. *)
Theorem sync_notifications_keeps_captured_list (userId : string)
    (r : Notifications.Render) (tasks : list Task.t) (uuid : nat -> string)
    (clock clock' : nat -> Z) (e : Notifications.Effects) :
  (∀ i x, tasks !! i = Some x ->
     Task.push_notification x = true
     ∧ Js.truthy_bool (Task.completed x) = false
     ∧ Notifications.reminderTime x None = Js.Num (fireTime x)
     ∧ clock i < fireTime x ∧ clock' i < fireTime x) ->
  let e' := NotificationActions.syncNotifications (Some userId) true r (Some tasks) uuid
              clock clock' e in
  Notifications.timers e'
  = Notifications.timers e
    ++ imap (fun i x => Notifications.mkTimer (fireTime x)
                          (reminderFor x (uuid i) (fireTime x)) r) tasks
  ∧ Notifications.stored e'
    = match last tasks with
      | Some x => Notifications.scheduledNotifications r
                  ++ [reminderFor x (uuid (length tasks - 1)%nat) (fireTime x)]
      | None => []
      end
  ∧ Notifications.displayed e' = Notifications.displayed e.
Proof.
  intros Hall e'. subst e'. unfold NotificationActions.syncNotifications.
  cbn [negb].
  destruct (scheduleEach_future r uuid clock clock' tasks 0
              (Notifications.saveScheduledNotifications [] e) Hall) as (Ht & Hs & Hd).
  unfold Notifications.log. cbn [Notifications.timers Notifications.stored
                                  Notifications.displayed].
  rewrite Ht, Hs, Hd. done.
Qed.

(** Syncing at 08:30 the task that got its reminder at 08:00 and one more
    task. *)
Lemma sync_notifications_keeps_captured_list_witness :
  let e' := NotificationActions.syncNotifications (Some "u"%string) true
              (Notifications.rerender render0 scheduled_effects) (Some [task_due9; other_task])
              instance_ids (fun _ => at_ 8 30) (fun _ => at_ 8 30) scheduled_effects in
  length (Notifications.timers e') = 3%nat
  ∧ ScheduledNotification.taskId <$> Notifications.stored e' = ["T"; "O"]%string
  ∧ ScheduledNotification.id <$> Notifications.stored e' = ["n1"; "i1"]%string.
Proof.
  assert (Hall : ∀ i x, [task_due9; other_task] !! i = Some x ->
            Task.push_notification x = true
            ∧ Js.truthy_bool (Task.completed x) = false
            ∧ Notifications.reminderTime x None = Js.Num (fireTime x)
            ∧ (fun _ : nat => at_ 8 30) i < fireTime x
            ∧ (fun _ : nat => at_ 8 30) i < fireTime x).
  { intros [|[|i]] x Hx; [| |done]; injection Hx as <-; repeat split; vm_compute; reflexivity. }
  destruct (sync_notifications_keeps_captured_list "u"
              (Notifications.rerender render0 scheduled_effects) [task_due9; other_task]
              instance_ids (fun _ => at_ 8 30) (fun _ => at_ 8 30) scheduled_effects Hall)
    as (Ht & Hs & _).
  cbv zeta. rewrite Ht, Hs. split; [vm_compute; reflexivity|].
  split; vm_compute; reflexivity.
Defined.

(** The test of the endpoint, as a proposition. *)
Lemma mailDue_check (row : Task.t) (now : Z) :
  negb (Js.truthy_bool (Task.completed row)) && Task.email_reminder row
  && SyncEmails.withinFiveMinutes
       (Server.calculateNotificationTime (Task.due_date row) (Task.due_time row)
          (Task.notification_time row)) now = true
  ↔ mailDue row now.
Proof.
  unfold mailDue.
  destruct (Server.calculateNotificationTime _ _ _) as [fire|]; cbn [SyncEmails.withinFiveMinutes].
  - rewrite !andb_true_iff, negb_true_iff, Z.leb_le. split.
    + intros [[Hc He] Hw]. split; [done|]. split; [done|]. exists fire. split; [done|lia].
    + intros (Hc & He & fire' & [= <-] & Hw). split; [done|lia].
  - rewrite andb_false_r. split; [done|]. by intros (_ & _ & fire & [=] & _).
Qed.

(** One turn of the loop of [POST /api/sync-emails]. *)
Lemma syncEmails_step_cases userId userEmail t now en results outbox :
  let st' := SyncEmails.step userId userEmail t now en (results, outbox) in
  (SyncEmails.selectTask (EmailNotifications.taskId en) userId t = None
   ∧ st' = (SyncEmails.mkResults (SyncEmails.processed results)
              (SyncEmails.errors results ++ [(en, "Task not found or access denied"%string)])
              (SyncEmails.sent results), outbox))
  ∨ (∃ row, SyncEmails.selectTask (EmailNotifications.taskId en) userId t = Some row
            ∧ mailDue row now
            ∧ st' = (SyncEmails.mkResults (SyncEmails.processed results + 1)
                       (SyncEmails.errors results) (SyncEmails.sent results + 1),
                     outbox ++ [SyncEmails.mkMail userEmail row]))
  ∨ (∃ row, SyncEmails.selectTask (EmailNotifications.taskId en) userId t = Some row
            ∧ ¬ mailDue row now
            ∧ st' = (SyncEmails.mkResults (SyncEmails.processed results + 1)
                       (SyncEmails.errors results) (SyncEmails.sent results), outbox)).
Proof.
  intros st'. subst st'. unfold SyncEmails.step.
  destruct (SyncEmails.selectTask _ _ _) as [row|]; [|by left].
  right. pose proof (mailDue_check row now) as Hdue.
  destruct (negb (Js.truthy_bool (Task.completed row)) && Task.email_reminder row) eqn:E1.
  - cbn [andb] in Hdue.
    destruct (SyncEmails.withinFiveMinutes _ _) eqn:E2.
    + left. exists row. split; [done|]. split; [by apply Hdue|done].
    + right. exists row. split; [done|]. split; [|done]. intros Hd. apply Hdue in Hd. done.
  - cbn [andb] in Hdue. right. exists row. split; [done|]. split; [|done].
    intros Hd. apply Hdue in Hd. done.
Qed.

(** The loop of [POST /api/sync-emails], from any intermediate result. *)
Lemma syncEmails_loop_spec userId userEmail t clock
    (emailQueue : list EmailNotifications.EmailNotification) k
    (st : SyncEmails.Results * list SyncEmails.Mail) :
  let st' := SyncEmails.loop userId userEmail t clock k emailQueue st in
  SyncEmails.processed st'.1 + Z.of_nat (length (SyncEmails.errors st'.1))
  = SyncEmails.processed st.1 + Z.of_nat (length (SyncEmails.errors st.1))
    + Z.of_nat (length emailQueue)
  ∧ SyncEmails.sent st'.1 - SyncEmails.sent st.1
    = Z.of_nat (length st'.2) - Z.of_nat (length st.2)
  ∧ 0 <= SyncEmails.sent st'.1 - SyncEmails.sent st.1
    <= SyncEmails.processed st'.1 - SyncEmails.processed st.1
  ∧ (∀ m, m ∈ st'.2 ↔
          m ∈ st.2
          ∨ ∃ i en, emailQueue !! i = Some en
                    ∧ SyncEmails.selectTask (EmailNotifications.taskId en) userId t
                      = Some (SyncEmails.mailTask m)
                    ∧ SyncEmails.to m = userEmail
                    ∧ mailDue (SyncEmails.mailTask m) (clock (k + i)%nat))
  ∧ (∀ en msg, (en, msg) ∈ SyncEmails.errors st'.1 ↔
          (en, msg) ∈ SyncEmails.errors st.1
          ∨ (en ∈ emailQueue
             ∧ SyncEmails.selectTask (EmailNotifications.taskId en) userId t = None
             ∧ msg = "Task not found or access denied"%string)).
Proof.
  revert k st. induction emailQueue as [|en rest IH]; intros k [results outbox] st'.
  { subst st'. cbn [SyncEmails.loop fst snd length]. split; [lia|]. split; [lia|].
    split; [lia|]. split.
    - intros m. split; [by left|]. intros [?|(i & e & He & _)]; [done|done].
    - intros e msg. split; [by left|]. intros [?|(He & _)]; [done|].
      by apply elem_of_nil in He. }
  subst st'. cbn [SyncEmails.loop].
  destruct (syncEmails_step_cases userId userEmail t (clock k) en results outbox)
    as [(Hsel & Hst)|[(row & Hsel & Hdue & Hst)|(row & Hsel & Hdue & Hst)]];
    cbv zeta in Hst; rewrite Hst; clear Hst;
    match goal with |- context [SyncEmails.loop _ _ _ _ _ _ ?s] =>
      destruct (IH (S k) s) as (IHa & IHs & IHb & IHm & IHe)
    end;
    cbn [fst snd SyncEmails.processed SyncEmails.errors SyncEmails.sent] in *;
    rewrite ?length_app in *; cbn [length] in *.
  - split; [lia|]. split; [lia|]. split; [lia|]. split.
    + intros m. rewrite IHm. split.
      * intros [?|(i & e & He & Hrest)]; [by left|]. right. exists (S i), e.
        split; [done|]. by rewrite Nat.add_succ_r.
      * intros [?|(i & e & He & Hs & Hto & Hd)]; [by left|]. destruct i as [|i].
        { injection He as <-. congruence. }
        right. exists i, e. split; [done|]. split; [done|]. split; [done|].
        by rewrite Nat.add_succ_r in Hd.
    + intros e msg. rewrite IHe, elem_of_app, list_elem_of_singleton, elem_of_cons. split.
      * intros [[?|[= -> ->]]|(He & Hrest)]; [by left|right; by split; [left|]|].
        right. split; [by right|done].
      * intros [?|([->|He] & Hs & ->)]; [by left; left|by left; right|]. right. by split.
  - split; [lia|]. split; [lia|]. split; [lia|]. split.
    + intros m. rewrite IHm, elem_of_app, list_elem_of_singleton. split.
      * intros [[?| ->]|(i & e & He & Hrest)]; [by left| |].
        { right. exists 0%nat, en. split; [done|]. split; [done|]. split; [done|].
          by rewrite Nat.add_0_r. }
        right. exists (S i), e. split; [done|]. by rewrite Nat.add_succ_r.
      * intros [?|(i & e & He & Hs & Hto & Hd)]; [by left; left|]. destruct i as [|i].
        { injection He as <-. left. right. destruct m as [to' row']. cbn in *.
          rewrite Hsel in Hs. by injection Hs as <-; subst. }
        right. exists i, e. split; [done|]. split; [done|]. split; [done|].
        by rewrite Nat.add_succ_r in Hd.
    + intros e msg. rewrite IHe, elem_of_cons. split.
      * intros [?|(He & Hrest)]; [by left|]. right. split; [by right|done].
      * intros [?|([->|He] & Hs & ->)]; [by left|congruence|]. right. by split.
  - split; [lia|]. split; [lia|]. split; [lia|]. split.
    + intros m. rewrite IHm. split.
      * intros [?|(i & e & He & Hrest)]; [by left|]. right. exists (S i), e.
        split; [done|]. by rewrite Nat.add_succ_r.
      * intros [?|(i & e & He & Hs & Hto & Hd)]; [by left|]. destruct i as [|i].
        { injection He as <-. rewrite Nat.add_0_r in Hd. rewrite Hsel in Hs.
          injection Hs as ->. done. }
        right. exists i, e. split; [done|]. split; [done|]. split; [done|].
        by rewrite Nat.add_succ_r in Hd.
    + intros e msg. rewrite IHe, elem_of_cons. split.
      * intros [?|(He & Hrest)]; [by left|]. right. split; [by right|done].
      * intros [?|([->|He] & Hs & ->)]; [by left|congruence|]. right. by split.
Qed.

(** X26.  [POST /api/sync-emails]: every queue entry is counted once, as
    processed or as an error, and [sent] is the number of mails written,
    never more than [processed].  A mail is written exactly for an entry
    whose task is a row of the caller that is not completed, has the e-mail
    reminder enabled and whose reminder time, computed from the row, lies
    within five minutes of the clock reading of that turn; it goes to the
    caller's address.  The entry's own scheduled time and status play no
    part.  An error is recorded exactly for an entry whose task is not a
    row of the caller. *)
Theorem sync_emails_report (userId userEmail : string) (t : Server.Tables) (clock : nat -> Z)
    (emailQueue : list EmailNotifications.EmailNotification) :
  let res := SyncEmails.syncEmails userId userEmail t clock emailQueue in
  SyncEmails.processed res.1 + Z.of_nat (length (SyncEmails.errors res.1))
  = Z.of_nat (length emailQueue)
  ∧ SyncEmails.sent res.1 = Z.of_nat (length res.2)
  ∧ 0 <= SyncEmails.sent res.1 <= SyncEmails.processed res.1
  ∧ (∀ m, m ∈ res.2 ↔
          ∃ i en, emailQueue !! i = Some en
                  ∧ SyncEmails.selectTask (EmailNotifications.taskId en) userId t
                    = Some (SyncEmails.mailTask m)
                  ∧ SyncEmails.to m = userEmail
                  ∧ mailDue (SyncEmails.mailTask m) (clock i))
  ∧ (∀ m, m ∈ res.2 ->
          Task.user_id (SyncEmails.mailTask m) = userId
          ∧ Js.truthy_bool (Task.completed (SyncEmails.mailTask m)) = false
          ∧ Task.email_reminder (SyncEmails.mailTask m) = true)
  ∧ (∀ en msg, (en, msg) ∈ SyncEmails.errors res.1 ↔
          en ∈ emailQueue
          ∧ SyncEmails.selectTask (EmailNotifications.taskId en) userId t = None
          ∧ msg = "Task not found or access denied"%string).
Proof.
  intros res.
  destruct (syncEmails_loop_spec userId userEmail t clock emailQueue 0
              (SyncEmails.mkResults 0 [] 0, [])) as (Ha & Hs & Hb & Hm & He).
  fold (SyncEmails.syncEmails userId userEmail t clock emailQueue) in Ha, Hs, Hb, Hm, He.
  fold res in Ha, Hs, Hb, Hm, He.
  cbn [fst snd SyncEmails.processed SyncEmails.errors SyncEmails.sent length] in Ha, Hs, Hb.
  assert (Hmail : ∀ m, m ∈ res.2 ↔
            ∃ i en, emailQueue !! i = Some en
                    ∧ SyncEmails.selectTask (EmailNotifications.taskId en) userId t
                      = Some (SyncEmails.mailTask m)
                    ∧ SyncEmails.to m = userEmail
                    ∧ mailDue (SyncEmails.mailTask m) (clock i)).
  { intros m. rewrite Hm. cbn [snd]. split.
    - intros [Hin|Hex]; [by apply elem_of_nil in Hin|done].
    - intros Hex. by right. }
  split; [lia|]. split; [lia|]. split; [lia|]. split; [exact Hmail|]. split.
  - intros m Hin.
    apply Hmail in Hin as (i & en & _ & Hsel & _ & Hc & Hr & _).
    unfold SyncEmails.selectTask in Hsel.
    destruct (Server.tasks t !! EmailNotifications.taskId en) as [row|]; [|done].
    destruct (decide (Task.user_id row = userId)) as [Hu|]; [|done].
    injection Hsel as Hrow. split; [by rewrite <- Hrow|done].
  - intros en msg. rewrite He. cbn [fst SyncEmails.errors]. split.
    + intros [Hin|?]; [by apply elem_of_nil in Hin|done].
    + intros ?. by right.
Qed.

(** [scheduleNotification] shows the notification or arms a timeout for it,
    and keeps what was pending. *)
Lemma scheduleNotification_spec now n (s : ServiceWorker.State) :
  handlesIssued s ->
  let s' := ServiceWorker.scheduleNotification now n s in
  handlesIssued s'
  ∧ (∀ timeoutId tm, ServiceWorker.timeouts s !! timeoutId = Some tm ->
       ServiceWorker.timeouts s' !! timeoutId = Some tm)
  ∧ (∀ m, m ∈ ServiceWorker.shown s -> m ∈ ServiceWorker.shown s')
  ∧ shownOrArmed n s'
  ∧ ServiceWorker.notificationQueue s' = ServiceWorker.notificationQueue s.
Proof.
  intros Hwf s'.
  assert (Harm : ∀ fireAt,
            let a := ServiceWorker.arm fireAt n s in
            handlesIssued a
            ∧ (∀ timeoutId tm, ServiceWorker.timeouts s !! timeoutId = Some tm ->
                 ServiceWorker.timeouts a !! timeoutId = Some tm)
            ∧ (∀ m, m ∈ ServiceWorker.shown s -> m ∈ ServiceWorker.shown a)
            ∧ shownOrArmed n a
            ∧ ServiceWorker.notificationQueue a = ServiceWorker.notificationQueue s).
  { intros fireAt a. subst a. unfold ServiceWorker.arm.
    split; [|split; [|split; [done|split; [|done]]]].
    - unfold handlesIssued. cbn. apply map_Forall_insert_2; [lia|].
      intros i tm Hi. specialize (Hwf i tm Hi). cbn in Hwf. lia.
    - intros i tm Hi. cbn. rewrite lookup_insert_ne; [done|].
      specialize (Hwf i tm Hi). cbn in Hwf. lia.
    - right. exists (S (ServiceWorker.lastTimeout s)), fireAt. cbn.
      by rewrite lookup_insert_eq. }
  subst s'. unfold ServiceWorker.scheduleNotification.
  destruct (ServiceWorker.scheduledTime n) as [t|]; [|apply Harm].
  destruct (t - now <=? 0); [|apply Harm].
  split; [done|]. split; [done|]. split.
  - intros m Hm. cbn. apply elem_of_app. by left.
  - split; [|done]. left. cbn. apply elem_of_app. right. by apply list_elem_of_singleton.
Qed.

(** The loop of [processNotificationQueue]. *)
Lemma processEach_spec now clock (queue : list ServiceWorker.NotificationData) k
    (s : ServiceWorker.State) (p : list ServiceWorker.NotificationData) :
  handlesIssued s ->
  let st' := ServiceWorker.processEach now clock k queue (s, p) in
  handlesIssued st'.1
  ∧ (∀ timeoutId tm, ServiceWorker.timeouts s !! timeoutId = Some tm ->
       ServiceWorker.timeouts st'.1 !! timeoutId = Some tm)
  ∧ (∀ m, m ∈ ServiceWorker.shown s -> m ∈ ServiceWorker.shown st'.1)
  ∧ (∀ n, n ∈ queue -> shownOrArmed n st'.1)
  ∧ ServiceWorker.notificationQueue st'.1 = ServiceWorker.notificationQueue s
  ∧ st'.2 = p ++ queue.
Proof.
  revert k s p. induction queue as [|n rest IH]; intros k s p Hwf st'.
  { subst st'. cbn. split; [done|]. split; [done|]. split; [done|].
    split; [intros n Hn; by apply elem_of_nil in Hn|]. split; [done|by rewrite app_nil_r]. }
  subst st'. cbn [ServiceWorker.processEach fst snd].
  set (s1 := if Js.le (ServiceWorker.scheduledTime n) (Js.Num now)
             then ServiceWorker.showScheduledNotification n s
             else ServiceWorker.scheduleNotification (clock k) n s).
  assert (H1 : handlesIssued s1
               ∧ (∀ timeoutId tm, ServiceWorker.timeouts s !! timeoutId = Some tm ->
                    ServiceWorker.timeouts s1 !! timeoutId = Some tm)
               ∧ (∀ m, m ∈ ServiceWorker.shown s -> m ∈ ServiceWorker.shown s1)
               ∧ shownOrArmed n s1
               ∧ ServiceWorker.notificationQueue s1 = ServiceWorker.notificationQueue s).
  { subst s1. destruct (Js.le _ _); [|by apply scheduleNotification_spec].
    split; [done|]. split; [done|]. split.
    - intros m Hm. cbn. apply elem_of_app. by left.
    - split; [|done]. left. cbn. apply elem_of_app. right. by apply list_elem_of_singleton. }
  destruct H1 as (Hwf1 & Ht1 & Hs1 & Hn1 & Hq1).
  destruct (IH (S k) s1 (p ++ [n]) Hwf1) as (Hwf2 & Ht2 & Hs2 & Hn2 & Hq2 & Hp2).
  split; [done|]. split; [by intros i tm Hi; apply Ht2, Ht1|].
  split; [by intros m Hm; apply Hs2, Hs1|]. split.
  - intros m Hm. apply elem_of_cons in Hm as [->|Hm]; [|by apply Hn2].
    destruct Hn1 as [Hin|(i & f & Hi)]; [left; by apply Hs2|].
    right. exists i, f. by apply Ht2.
  - split; [congruence|]. by rewrite Hp2, <- app_assoc.
Qed.

(** X27.  [processNotificationQueue] of the service worker: afterwards the
    queue is empty, and every notification that was queued has been shown
    or has a pending timeout; the timeouts pending before and the
    notifications shown before are kept. *)
Theorem queue_processing_loses_nothing (now : Z) (clock : nat -> Z)
    (s : ServiceWorker.State) :
  handlesIssued s ->
  let s' := ServiceWorker.processNotificationQueue now clock s in
  ServiceWorker.notificationQueue s' = []
  ∧ (∀ n, n ∈ ServiceWorker.notificationQueue s -> shownOrArmed n s')
  ∧ (∀ timeoutId tm, ServiceWorker.timeouts s !! timeoutId = Some tm ->
       ServiceWorker.timeouts s' !! timeoutId = Some tm)
  ∧ (∀ m, m ∈ ServiceWorker.shown s -> m ∈ ServiceWorker.shown s')
  ∧ handlesIssued s'.
Proof.
  intros Hwf s'. subst s'. unfold ServiceWorker.processNotificationQueue.
  destruct (ServiceWorker.notificationQueue s) as [|n0 q0] eqn:Eq.
  { rewrite Eq. split; [done|]. split; [intros n Hn; by apply elem_of_nil in Hn|done]. }
  destruct (processEach_spec now clock (n0 :: q0) 0 s [] Hwf)
    as (Hwf' & Ht & Hs & Hn & Hq & Hp).
  destruct (ServiceWorker.processEach now clock 0 (n0 :: q0) (s, [])) as [s1 processed].
  cbn [fst snd] in *. rewrite app_nil_l in Hp. subst processed.
  unfold ServiceWorker.storeQueue. cbn [ServiceWorker.notificationQueue ServiceWorker.timeouts
                                         ServiceWorker.shown].
  split.
  - rewrite Hq, Eq.
    assert (Hall : ∀ l', (∀ x, x ∈ l' -> x ∈ n0 :: q0) ->
              List.filter (fun n => negb (bool_decide (n ∈ n0 :: q0))) l' = []).
    { clear. induction l' as [|a l' IHl']; intros Hsub; [done|]. cbn [List.filter].
      rewrite bool_decide_eq_true_2 by (apply Hsub; by left). cbn [negb].
      apply IHl'. intros x Hx. apply Hsub. by right. }
    by apply Hall.
  - split; [|done]. intros n Hin.
    destruct (Hn n Hin) as [Hsh|Harm]; [by left|by right].
Qed.

(** A queue with one notification that is late and one that is ahead. *)
Lemma queue_processing_loses_nothing_witness :
  let late := ServiceWorker.mkData "a" "T" (Js.Num (at_ 7 50)) "Due soon" "Standup" EmptyString
                (Some (at_ 7 0)) in
  let ahead := ServiceWorker.mkData "b" "O" (Js.Num (at_ 8 50)) "Due soon" "Dentist"
                 EmptyString (Some (at_ 7 0)) in
  let s' := ServiceWorker.processNotificationQueue (at_ 8 0) (fun _ => at_ 8 0)
              (ServiceWorker.mkState ∅ [late; ahead] ∅ 0 [] None) in
  ServiceWorker.notificationQueue s' = []
  ∧ ServiceWorker.shown s' = [late]
  ∧ ServiceWorker.timeouts s' !! 1%nat = Some (at_ 8 50, ahead).
Proof.
  cbv zeta.
  assert (Hwf : handlesIssued
                  (ServiceWorker.mkState ∅
                     [ServiceWorker.mkData "a" "T" (Js.Num (at_ 7 50)) "Due soon" "Standup"
                        EmptyString (Some (at_ 7 0));
                      ServiceWorker.mkData "b" "O" (Js.Num (at_ 8 50)) "Due soon" "Dentist"
                        EmptyString (Some (at_ 7 0))] ∅ 0 [] None)) by by_compute.
  destruct (queue_processing_loses_nothing (at_ 8 0) (fun _ => at_ 8 0) _ Hwf) as (Hq & _).
  split; [exact Hq|]. split; vm_compute; reflexivity.
Defined.

(** [cancelNotification] removes the task's entries from the queue. *)
Lemma cancelNotification_queue task (s : ServiceWorker.State) m :
  m ∈ ServiceWorker.notificationQueue (ServiceWorker.cancelNotification task s)
  ↔ m ∈ ServiceWorker.notificationQueue s ∧ ServiceWorker.taskId m ≠ task.
Proof.
  unfold ServiceWorker.cancelNotification, ServiceWorker.storeQueue.
  cbn [ServiceWorker.notificationQueue].
  assert (Hq : ServiceWorker.notificationQueue
                 match ServiceWorker.scheduledNotifications s !! task with
                 | Some (S _ as timeoutId) =>
                     ServiceWorker.mkState
                       (base.delete task (ServiceWorker.scheduledNotifications s))
                       (ServiceWorker.notificationQueue s)
                       (base.delete timeoutId (ServiceWorker.timeouts s))
                       (ServiceWorker.lastTimeout s) (ServiceWorker.shown s)
                       (ServiceWorker.storedQueue s)
                 | _ => s
                 end = ServiceWorker.notificationQueue s).
  { by destruct (ServiceWorker.scheduledNotifications s !! task) as [[|i]|]. }
  rewrite Hq, list_elem_of_In, filter_In, <- list_elem_of_In, negb_true_iff,
    bool_decide_eq_false. done.
Qed.

(** X28.  In the service worker, [scheduleNotification] for a time ahead arms
    a timeout and records its handle under the task id, replacing the
    handle recorded before without clearing it.  [cancelNotification] for
    the task then clears that timeout only: the pending timeouts are again
    those from before the scheduling, the task has no handle recorded, its
    queue entries are gone, and cancelling once more clears nothing.  So a
    timeout that was already pending for the task still runs. *)
Theorem cancel_clears_only_the_last_timeout (now t : Z) (n : ServiceWorker.NotificationData)
    (s : ServiceWorker.State) :
  handlesIssued s ->
  ServiceWorker.scheduledTime n = Js.Num t ->
  now < t ->
  let s1 := ServiceWorker.scheduleNotification now n s in
  let s2 := ServiceWorker.cancelNotification (ServiceWorker.taskId n) s1 in
  (∃ timeoutId, ServiceWorker.timeouts s1 !! timeoutId = Some (t, n)
                ∧ ServiceWorker.scheduledNotifications s1 !! ServiceWorker.taskId n
                  = Some timeoutId)
  ∧ ServiceWorker.timeouts s2 = ServiceWorker.timeouts s
  ∧ ServiceWorker.scheduledNotifications s2
    = base.delete (ServiceWorker.taskId n) (ServiceWorker.scheduledNotifications s)
  ∧ (∀ m, m ∈ ServiceWorker.notificationQueue s2 ↔
          m ∈ ServiceWorker.notificationQueue s
          ∧ ServiceWorker.taskId m ≠ ServiceWorker.taskId n)
  ∧ ServiceWorker.timeouts (ServiceWorker.cancelNotification (ServiceWorker.taskId n) s2)
    = ServiceWorker.timeouts s.
Proof.
  intros Hwf Ht Hnow s1 s2.
  assert (Hfresh : ServiceWorker.timeouts s !! S (ServiceWorker.lastTimeout s) = None).
  { destruct (ServiceWorker.timeouts s !! S (ServiceWorker.lastTimeout s)) as [tm|] eqn:E;
      [|done]. specialize (Hwf _ _ E). cbn in Hwf. lia. }
  assert (Hs1 : s1 = ServiceWorker.arm t n s).
  { subst s1. unfold ServiceWorker.scheduleNotification. rewrite Ht.
    destruct (Z.leb_spec (t - now) 0) as [?|_]; [lia|done]. }
  assert (Hs2t : ServiceWorker.timeouts s2 = ServiceWorker.timeouts s).
  { subst s2. rewrite Hs1. unfold ServiceWorker.cancelNotification, ServiceWorker.arm.
    cbn [ServiceWorker.scheduledNotifications]. rewrite lookup_insert_eq.
    cbn. by rewrite delete_insert_id. }
  assert (Hs2m : ServiceWorker.scheduledNotifications s2
                 = base.delete (ServiceWorker.taskId n) (ServiceWorker.scheduledNotifications s)).
  { subst s2. rewrite Hs1. unfold ServiceWorker.cancelNotification, ServiceWorker.arm.
    cbn [ServiceWorker.scheduledNotifications]. rewrite lookup_insert_eq.
    cbn. by rewrite delete_insert_eq. }
  split; [|split; [done|split; [done|split]]].
  - exists (S (ServiceWorker.lastTimeout s)). rewrite Hs1. unfold ServiceWorker.arm. cbn.
    by rewrite !lookup_insert_eq.
  - intros m. unfold s2. rewrite cancelNotification_queue. by rewrite Hs1.
  - rewrite <- Hs2t. unfold ServiceWorker.cancelNotification at 1.
    rewrite Hs2m, lookup_delete_eq. done.
Qed.

(** A task scheduled for 08:50 and then again for 08:55, then cancelled:
    the timeout for 08:50 is still pending. *)
Lemma cancel_clears_only_the_last_timeout_witness :
  let n1 := ServiceWorker.mkData "a" "T" (Js.Num (at_ 8 50)) "Due soon" "Standup" EmptyString
              None in
  let n2 := ServiceWorker.mkData "b" "T" (Js.Num (at_ 8 55)) "Due soon" "Standup" EmptyString
              None in
  let s := ServiceWorker.scheduleNotification (at_ 8 0) n1
             (ServiceWorker.mkState ∅ [] ∅ 0 [] None) in
  let s2 := ServiceWorker.cancelNotification "T"
              (ServiceWorker.scheduleNotification (at_ 8 10) n2 s) in
  ServiceWorker.timeouts s2 = ServiceWorker.timeouts s
  ∧ ServiceWorker.timeouts s !! 1%nat = Some (at_ 8 50, n1)
  ∧ ServiceWorker.scheduledNotifications s2 !! "T"%string = None.
Proof.
  cbv zeta.
  set (n1 := ServiceWorker.mkData "a" "T" (Js.Num (at_ 8 50)) "Due soon" "Standup" EmptyString
               None).
  set (n2 := ServiceWorker.mkData "b" "T" (Js.Num (at_ 8 55)) "Due soon" "Standup" EmptyString
               None).
  set (s := ServiceWorker.scheduleNotification (at_ 8 0) n1
              (ServiceWorker.mkState ∅ [] ∅ 0 [] None)).
  assert (Hwf : handlesIssued s) by by_compute.
  assert (Ht : ServiceWorker.scheduledTime n2 = Js.Num (at_ 8 55)) by reflexivity.
  assert (Hnow : at_ 8 10 < at_ 8 55) by (vm_compute; reflexivity).
  destruct (cancel_clears_only_the_last_timeout (at_ 8 10) (at_ 8 55) n2 s Hwf Ht Hnow)
    as (_ & Htm & Hmap & _).
  split; [exact Htm|]. split; [vm_compute; reflexivity|].
  change (ServiceWorker.taskId n2) with "T"%string in Hmap.
  rewrite Hmap. apply lookup_delete_eq.
Defined.
